(** * A shallow embedding of the falling-block game engine of [src/App.tsx]

    The engine is the set of state updaters that [App] hands to React's
    [setGameState]: [checkCollision], [rotate], [lockPiece], [move],
    [hardDrop], [holdPiece], [toggleFreeze] and [startGame], together with
    the catalog of [src/constants.ts].  Every updater is a function from the
    previous [GameState] to the next one, and is embedded as such.

    Conventions of the embedding.
    - JavaScript numbers that the engine uses are integers (grid coordinates,
      counters); they are embedded as [Z].  Loop counters over arrays are
      [nat] and are injected with [Z.of_nat] where the source adds them to a
      coordinate.
    - Code that can raise (reading a property of [undefined], [Array(n)] with
      a negative [n]) returns in the [Result] monad: [Ok] for a normal
      return, [Throw] for a raised exception.  The [while] loops of
      [hardDrop] and [moveToEnd] are run with fuel; [OutOfFuel] is the third
      outcome.
    - [Math.random] is the only effect.  The drawn element of the [types]
      array is passed to the embedding as an explicit argument.
    - Arrays are lists.  The engine never writes into an array that another
      value shares ([rotate] and [lockPiece] build new arrays), so pieces and
      grids are values.

    The file has three parts: the embedding, in the order of the source; the
    notions that the statements use; the properties. *)

From Stdlib Require Import ZArith Bool String List Lia.
Import ListNotations.
Open Scope Z_scope.

Set Implicit Arguments.

(** ** Outcomes of a call *)

Inductive Result (A : Type) : Type :=
| Ok (a : A)
| Throw
| OutOfFuel.

Arguments Ok {A} a.
Arguments Throw {A}.
Arguments OutOfFuel {A}.

Definition bind {A B : Type} (r : Result A) (k : A -> Result B) : Result B :=
  match r with
  | Ok a => k a
  | Throw => Throw
  | OutOfFuel => OutOfFuel
  end.

Notation "'let*' v ':=' r 'in' k" := (bind r (fun v => k))
  (at level 10, v name, r at level 100, k at level 200).

(** ** Data model ([src/types.ts]) *)

(** [TetrominoType = 'I' | 'J' | 'L' | 'O' | 'S' | 'T' | 'Z'].  The
    constructors carry a [K] prefix because [I], [O], [S] and [Z] are names of
    the Standard Library. *)
Inductive TetrominoType : Type := KI | KJ | KL | KO | KS | KT | KZ.

Record Position : Type := mkPosition { x : Z; y : Z }.

(** [shape: number[][]]: a cell is occupied when its number is truthy, that
    is, different from [0]. *)
Definition Shape : Type := list (list Z).

Record Tetromino : Type := mkTetromino {
  type : TetrominoType;
  shape : Shape;
  color : string;
  position : Position
}.

(** A grid cell has type [string | null].  Writing past the end of a row
    leaves holes, which read as [undefined]; [CUndefined] is that value. *)
Inductive Cell : Type :=
| CNull
| CUndefined
| CTag (c : string).

Definition Grid : Type := list (list Cell).

Inductive Status : Type := PLAYING | PAUSED | GAME_OVER | IDLE.

Record Config : Type := mkConfig {
  width : Z;
  height : Z;
  baseSpeed : Z
}.

Record GameState : Type := mkGameState {
  grid : Grid;
  currentPiece : option Tetromino;
  nextPiece : Tetromino;
  heldPiece : option Tetromino;
  canHold : bool;
  isFrozen : bool;
  score : Z;
  lines : Z;
  level : Z;
  status : Status;
  config : Config
}.

Definition Status_eqb (a b : Status) : bool :=
  match a, b with
  | PLAYING, PLAYING | PAUSED, PAUSED | GAME_OVER, GAME_OVER | IDLE, IDLE => true
  | _, _ => false
  end.

(** ** Catalog ([src/constants.ts]) *)

Definition INITIAL_WIDTH : Z := 10.
Definition INITIAL_HEIGHT : Z := 20.

Record TetrominoDef : Type := mkDef { def_shape : Shape; def_color : string }.

Definition TETROMINOES (t : TetrominoType) : TetrominoDef :=
  match t with
  | KI => mkDef [[0; 0; 0; 0];
                 [1; 1; 1; 1];
                 [0; 0; 0; 0];
                 [0; 0; 0; 0]]
            "bg-cyan-400 border-cyan-300 shadow-[0_0_10px_rgba(34,211,238,0.8)]"
  | KJ => mkDef [[1; 0; 0];
                 [1; 1; 1];
                 [0; 0; 0]]
            "bg-blue-600 border-blue-400 shadow-[0_0_10px_rgba(37,99,235,0.8)]"
  | KL => mkDef [[0; 0; 1];
                 [1; 1; 1];
                 [0; 0; 0]]
            "bg-orange-500 border-orange-300 shadow-[0_0_10px_rgba(249,115,22,0.8)]"
  | KO => mkDef [[1; 1];
                 [1; 1]]
            "bg-yellow-400 border-yellow-200 shadow-[0_0_10px_rgba(250,204,21,0.8)]"
  | KS => mkDef [[0; 1; 1];
                 [1; 1; 0];
                 [0; 0; 0]]
            "bg-green-500 border-green-300 shadow-[0_0_10px_rgba(34,197,94,0.8)]"
  | KT => mkDef [[0; 1; 0];
                 [1; 1; 1];
                 [0; 0; 0]]
            "bg-purple-500 border-purple-300 shadow-[0_0_10px_rgba(168,85,247,0.8)]"
  | KZ => mkDef [[1; 1; 0];
                 [0; 1; 1];
                 [0; 0; 0]]
            "bg-red-500 border-red-300 shadow-[0_0_10px_rgba(239,68,68,0.8)]"
  end.

(** [SCORING[n] || 0]: the table has the keys 1 to 4; any other key reads
    [undefined], which [||] turns into [0]. *)
Definition SCORING (n : Z) : Z :=
  if n =? 1 then 100
  else if n =? 2 then 300
  else if n =? 3 then 500
  else if n =? 4 then 800
  else 0.

(** ** JavaScript truthiness of the values the engine tests *)

(** [if (shape[y][x])] and [if (cell)] on a number. *)
Definition truthyNum (v : Z) : bool := negb (v =? 0).

(** [grid[nextY][nextX]] used as a condition: [null], [undefined] and the
    empty string are falsy, every other string is truthy. *)
Definition truthyCell (c : Cell) : bool :=
  match c with
  | CTag s => negb (String.eqb s EmptyString)
  | CNull | CUndefined => false
  end.

(** [cell !== null]. *)
Definition notNull (c : Cell) : bool :=
  match c with
  | CNull => false
  | CUndefined | CTag _ => true
  end.

(** ** Reading the grid *)

(** [grid[r][c]] for an integer row [r] and column [c]: outside the array the
    read yields [undefined].  ([checkCollision] reads only at [0 <= r <
    grid.length].) *)
Definition cellAt (g : Grid) (r c : Z) : Cell :=
  if (r <? 0) || (c <? 0) then CUndefined
  else nth (Z.to_nat c) (nth (Z.to_nat r) g []) CUndefined.

(** [grid.length] and [grid[0].length] (of a grid that has a row 0). *)
Definition gridHeight (g : Grid) : Z := Z.of_nat (length g).
Definition gridWidth (g : Grid) : Z := Z.of_nat (length (hd [] g)).

(** ** [getRandomPiece] (App.tsx, 71-81)

    [t] is the element [types[Math.floor(Math.random() * types.length)]]. *)
Definition getRandomPiece (t : TetrominoType) (width : Z) : Tetromino :=
  let def := TETROMINOES t in
  {| type := t;
     shape := def_shape def;
     color := def_color def;
     position := {| x := width / 2 - 2; y := 0 |} |}.

(** ** [checkCollision] (App.tsx, 83-102) *)

(** The body of the two nested loops for the shape cell [v = shape[iy][ix]].
    [Ok true] is the [return true]; [Ok false] lets the loops go on.
    [grid[0].length] raises a [TypeError] when the grid has no row. *)
Definition collidesAt (piece : Tetromino) (grid : Grid) (moveX moveY : Z)
    (iy ix : nat) (v : Z) : Result bool :=
  if truthyNum v then
    let nextX := x (position piece) + Z.of_nat ix + moveX in
    let nextY := y (position piece) + Z.of_nat iy + moveY in
    if nextX <? 0 then Ok true
    else
      match grid with
      | [] => Throw
      | row0 :: _ =>
          if nextX >=? Z.of_nat (length row0) then Ok true
          else if nextY >=? Z.of_nat (length grid) then Ok true
          else if (nextY >=? 0) && truthyCell (cellAt grid nextY nextX) then Ok true
          else Ok false
      end
  else Ok false.

(** A [for] loop from index [i] over the elements [l], left at the first
    iteration whose body returns [true] or raises. *)
Fixpoint forUntil {A : Type} (body : nat -> A -> Result bool) (i : nat)
    (l : list A) : Result bool :=
  match l with
  | [] => Ok false
  | a :: rest =>
      let* hit := body i a in
      if hit then Ok true else forUntil body (S i) rest
  end.

Definition checkCollision (piece : Tetromino) (grid : Grid) (moveX moveY : Z)
    (newShape : option Shape) : Result bool :=
  let shape := match newShape with Some s => s | None => shape piece end in
  forUntil (fun iy row => forUntil (collidesAt piece grid moveX moveY iy) 0%nat row)
    0%nat shape.

(** ** The rotation transform of [rotate] (App.tsx, 118-126)

    [shape[0].map((_, index) => shape.map(row => row[index]))] raises when
    the shape has no row 0.  A read [row[index]] past the end of a shorter row
    yields [undefined], which is falsy like [0] and is embedded as [0]; no
    such read happens on a matrix whose rows are as long as row 0. *)
Definition transposeShape (s : Shape) : Result Shape :=
  match s with
  | [] => Throw
  | row0 :: _ =>
      Ok (map (fun index => map (fun row => nth index row 0) s)
              (seq 0 (length row0)))
  end.

(** [newShape.forEach(row => row.reverse())] when [clockwise], else
    [newShape.reverse()]. *)
Definition rotateShape (clockwise : bool) (s : Shape) : Result Shape :=
  let* newShape := transposeShape s in
  Ok (if clockwise then map (@rev Z) newShape else rev newShape).

Definition withShape (p : Tetromino) (s : Shape) : Tetromino :=
  {| type := type p; shape := s; color := color p; position := position p |}.

Definition withPosition (p : Tetromino) (pos : Position) : Tetromino :=
  {| type := type p; shape := shape p; color := color p; position := pos |}.

(** [{ ...prev, currentPiece: c }]. *)
Definition withCurrentPiece (prev : GameState) (c : option Tetromino) : GameState :=
  {| grid := grid prev; currentPiece := c; nextPiece := nextPiece prev;
     heldPiece := heldPiece prev; canHold := canHold prev;
     isFrozen := isFrozen prev; score := score prev; lines := lines prev;
     level := level prev; status := status prev; config := config prev |}.

(** [!prev.currentPiece || prev.status !== 'PLAYING'] is decided on the
    status once the piece is known. *)
Definition isPlaying (s : GameState) : bool := Status_eqb (status s) PLAYING.

(** ** [toggleFreeze] (App.tsx, 104-112) *)
Definition toggleFreeze (prev : GameState) : GameState :=
  if negb (isPlaying prev) then prev
  else
    {| grid := grid prev; currentPiece := currentPiece prev;
       nextPiece := nextPiece prev; heldPiece := heldPiece prev;
       canHold := canHold prev; isFrozen := negb (isFrozen prev);
       score := score prev; lines := lines prev; level := level prev;
       status := status prev; config := config prev |}.

(** ** [rotate] (App.tsx, 114-136) *)
Definition rotate (clockwise : bool) (prev : GameState) : Result GameState :=
  match currentPiece prev with
  | None => Ok prev
  | Some cp =>
      if negb (isPlaying prev) || isFrozen prev then Ok prev
      else
        let* newShape := rotateShape clockwise (shape cp) in
        let* hit := checkCollision cp (grid prev) 0 0 (Some newShape) in
        if negb hit then Ok (withCurrentPiece prev (Some (withShape cp newShape)))
        else Ok prev
  end.

(** ** [lockPiece] (App.tsx, 138-195) *)

(** [row[gridX] = c] on an array: a negative [gridX] names a property that is
    not an element (no element changes), an index inside the row replaces the
    element, an index past the end extends the row and leaves holes. *)
Definition setCell (row : list Cell) (gridX : Z) (c : Cell) : list Cell :=
  if gridX <? 0 then row
  else
    let i := Z.to_nat gridX in
    if (i <? length row)%nat then firstn i row ++ c :: skipn (S i) row
    else row ++ repeat CUndefined (i - length row) ++ [c].

(** [newGrid[gridY][gridX] = c], reached with [gridY >= 0] only:
    [newGrid[gridY]] is [undefined] past the last row and the assignment
    raises. *)
Definition writeCell (g : Grid) (gridY gridX : Z) (c : Cell) : Result Grid :=
  let i := Z.to_nat gridY in
  match nth_error g i with
  | None => Throw
  | Some row => Ok (firstn i g ++ setCell row gridX c :: skipn (S i) g)
  end.

(** [forEach] with an index, threading the array being written. *)
Fixpoint forEachM {A St : Type} (body : nat -> A -> St -> Result St) (i : nat)
    (l : list A) (s : St) : Result St :=
  match l with
  | [] => Ok s
  | a :: rest => let* s' := body i a s in forEachM body (S i) rest s'
  end.

Definition stampCell (cp : Tetromino) (iy ix : nat) (cell : Z) (newGrid : Grid)
    : Result Grid :=
  if truthyNum cell then
    let gridY := y (position cp) + Z.of_nat iy in
    let gridX := x (position cp) + Z.of_nat ix in
    if gridY >=? 0 then writeCell newGrid gridY gridX (CTag (color cp))
    else Ok newGrid
  else Ok newGrid.

(** The two nested [forEach] over [currentPiece.shape], run on the copy
    [grid.map(row => [...row])] of the grid. *)
Definition stampPiece (cp : Tetromino) (g : Grid) : Result Grid :=
  forEachM (fun iy row newGrid => forEachM (stampCell cp iy) 0%nat row newGrid)
    0%nat (shape cp) g.

(** [row.every(cell => cell !== null)]. *)
Definition rowFull (row : list Cell) : bool := forallb notNull row.

(** The rows that [newGrid.filter] keeps, and the value that
    [clearedLinesCount] has after the filter. *)
Definition keptRows (newGrid : Grid) : Grid :=
  filter (fun row => negb (rowFull row)) newGrid.

Definition clearedLinesCount (newGrid : Grid) : Z :=
  Z.of_nat (length (filter rowFull newGrid)).

(** [while (filteredGrid.length < config.height)
      filteredGrid.unshift(Array(config.width).fill(null))]:
    the loop runs [config.height - filteredGrid.length] times when that is
    positive; [Array(n)] raises a [RangeError] for a negative [n]. *)
Definition refill (cfg : Config) (filteredGrid : Grid) : Result Grid :=
  let missing := height cfg - Z.of_nat (length filteredGrid) in
  if missing <=? 0 then Ok filteredGrid
  else if width cfg <? 0 then Throw
  else Ok (repeat (repeat CNull (Z.to_nat (width cfg))) (Z.to_nat missing)
           ++ filteredGrid).

Definition spawnPos (cfg : Config) : Position :=
  {| x := width cfg / 2 - 2; y := 0 |}.

(** [t] is the kind that the call of [getRandomPiece] draws. *)
Definition lockPiece (t : TetrominoType) (state : GameState) : Result GameState :=
  match currentPiece state with
  | None => Ok state
  | Some cp =>
      let* newGrid := stampPiece cp (grid state) in
      let cleared := clearedLinesCount newGrid in
      let* filteredGrid := refill (config state) (keptRows newGrid) in
      let newScore :=
        score state + (if cleared >? 0 then SCORING cleared * level state else 0) in
      let newLinesTotal := lines state + cleared in
      let newLevel := newLinesTotal / 10 + 1 in
      let spawned := withPosition (nextPiece state) (spawnPos (config state)) in
      let* hit := checkCollision spawned filteredGrid 0 0 None in
      if hit then
        Ok {| grid := filteredGrid; currentPiece := None;
              nextPiece := nextPiece state; heldPiece := heldPiece state;
              canHold := canHold state; isFrozen := false;
              score := newScore; lines := lines state; level := level state;
              status := GAME_OVER; config := config state |}
      else
        Ok {| grid := filteredGrid; currentPiece := Some spawned;
              nextPiece := getRandomPiece t (width (config state));
              heldPiece := heldPiece state; canHold := true; isFrozen := false;
              score := newScore; lines := newLinesTotal; level := newLevel;
              status := status state; config := config state |}
  end.

(** ** [move] (App.tsx, 197-221) *)
Definition move (t : TetrominoType) (dx dy : Z) (prev : GameState)
    : Result GameState :=
  match currentPiece prev with
  | None => Ok prev
  | Some cp =>
      if negb (isPlaying prev) then Ok prev
      else if isFrozen prev && negb (dy =? 0) then Ok prev
      else
        let* hit := checkCollision cp (grid prev) dx dy None in
        if negb hit then
          Ok (withCurrentPiece prev
                (Some (withPosition cp {| x := x (position cp) + dx;
                                          y := y (position cp) + dy |})))
        else if dy >? 0 then lockPiece t prev
        else Ok prev
  end.

(** ** [hardDrop] (App.tsx, 223-236) *)

(** [while (!checkCollision(piece, grid, 0, dropY + 1)) dropY++], from the
    current value of [dropY]; the result is the final [dropY]. *)
Fixpoint dropLoop (fuel : nat) (cp : Tetromino) (g : Grid) (dropY : Z) : Result Z :=
  match fuel with
  | O => OutOfFuel
  | S fuel' =>
      let* hit := checkCollision cp g 0 (dropY + 1) None in
      if hit then Ok dropY else dropLoop fuel' cp g (dropY + 1)
  end.

Definition hardDrop (fuel : nat) (t : TetrominoType) (prev : GameState)
    : Result GameState :=
  match currentPiece prev with
  | None => Ok prev
  | Some cp =>
      if negb (isPlaying prev) then Ok prev
      else
        let* dropY := dropLoop fuel cp (grid prev) 0 in
        let droppedPiece :=
          withPosition cp {| x := x (position cp); y := y (position cp) + dropY |} in
        lockPiece t (withCurrentPiece prev (Some droppedPiece))
  end.

(** ** [holdPiece] (App.tsx, 238-278) *)
Definition holdPiece (t : TetrominoType) (prev : GameState) : GameState :=
  match currentPiece prev with
  | None => prev
  | Some cp =>
      if negb (canHold prev) || negb (isPlaying prev) then prev
      else
        let newHeldType := type cp in
        let def := TETROMINOES newHeldType in
        let newHeldPiece :=
          {| type := newHeldType; shape := def_shape def; color := def_color def;
             position := {| x := 0; y := 0 |} |} in
        let spawnPos := {| x := width (config prev) / 2 - 2; y := 0 |} in
        match heldPiece prev with
        | None =>
            {| grid := grid prev;
               currentPiece := Some (withPosition (nextPiece prev) spawnPos);
               nextPiece := getRandomPiece t (width (config prev));
               heldPiece := Some newHeldPiece; canHold := false;
               isFrozen := isFrozen prev; score := score prev;
               lines := lines prev; level := level prev;
               status := status prev; config := config prev |}
        | Some held =>
            let heldType := type held in
            let heldDef := TETROMINOES heldType in
            let nextFromHold :=
              {| type := heldType; shape := def_shape heldDef;
                 color := def_color heldDef; position := spawnPos |} in
            {| grid := grid prev; currentPiece := Some nextFromHold;
               nextPiece := nextPiece prev; heldPiece := Some newHeldPiece;
               canHold := false; isFrozen := isFrozen prev; score := score prev;
               lines := lines prev; level := level prev;
               status := status prev; config := config prev |}
        end
  end.

(** ** [startGame] (App.tsx, 346-361) and the initial [useState] value

    [t1] and [t2] are the kinds drawn by the two calls of [getRandomPiece]. *)
Definition emptyGrid (w h : Z) : Grid :=
  repeat (repeat CNull (Z.to_nat w)) (Z.to_nat h).

Definition startGame (t1 t2 : TetrominoType) (prev : GameState) : GameState :=
  let initialWidth := INITIAL_WIDTH in
  {| grid := emptyGrid initialWidth INITIAL_HEIGHT;
     currentPiece :=
       Some (withPosition (getRandomPiece t1 initialWidth)
               {| x := initialWidth / 2 - 2; y := 0 |});
     nextPiece := getRandomPiece t2 initialWidth;
     heldPiece := None; canHold := true; isFrozen := false;
     score := 0; lines := 0; level := 1; status := PLAYING;
     config := config prev |}.

Definition initialState : GameState :=
  {| grid := emptyGrid INITIAL_WIDTH INITIAL_HEIGHT;
     currentPiece := None;
     nextPiece := {| type := KI; shape := def_shape (TETROMINOES KI);
                     color := def_color (TETROMINOES KI);
                     position := {| x := 0; y := 0 |} |};
     heldPiece := None; canHold := true; isFrozen := false;
     score := 0; lines := 0; level := 1; status := IDLE;
     config := {| width := INITIAL_WIDTH; height := INITIAL_HEIGHT;
                  baseSpeed := 500 |} |}.

(** ** [moveToEnd]

    [src/App.tsx] has no such updater; the revision of [App] that is bundled
    after the catalog in [src/constants.ts] (lines 339-354 there) defines it
    over the same [checkCollision], and it is embedded from there. *)
Fixpoint slideLoop (fuel : nat) (cp : Tetromino) (g : Grid) (dx finalDx : Z)
    : Result Z :=
  match fuel with
  | O => OutOfFuel
  | S fuel' =>
      let* hit := checkCollision cp g (finalDx + dx) 0 None in
      if hit then Ok finalDx else slideLoop fuel' cp g dx (finalDx + dx)
  end.

Definition moveToEnd (fuel : nat) (dx : Z) (prev : GameState) : Result GameState :=
  match currentPiece prev with
  | None => Ok prev
  | Some cp =>
      if negb (isPlaying prev) || isFrozen prev then Ok prev
      else
        let* finalDx := slideLoop fuel cp (grid prev) dx 0 in
        Ok (withCurrentPiece prev
              (Some (withPosition cp {| x := x (position cp) + finalDx;
                                        y := y (position cp) |})))
  end.

(** * Notions used by the statements *)

(** ** The collision test as a boolean function *)

(** The value of a [forUntil] loop whose body always returns. *)
Fixpoint anyFrom {A : Type} (f : nat -> A -> bool) (i : nat) (l : list A) : bool :=
  match l with
  | [] => false
  | a :: rest => f i a || anyFrom f (S i) rest
  end.

(** What one iteration of [checkCollision] decides on a grid that has a
    row 0. *)
Definition hits (piece : Tetromino) (g : Grid) (moveX moveY : Z) (iy ix : nat)
    (v : Z) : bool :=
  truthyNum v &&
  (let nextX := x (position piece) + Z.of_nat ix + moveX in
   let nextY := y (position piece) + Z.of_nat iy + moveY in
   (nextX <? 0) || (nextX >=? gridWidth g) || (nextY >=? gridHeight g) ||
   ((nextY >=? 0) && truthyCell (cellAt g nextY nextX))).

Definition collides (piece : Tetromino) (g : Grid) (moveX moveY : Z)
    (s : Shape) : bool :=
  anyFrom (fun iy row => anyFrom (hits piece g moveX moveY iy) 0%nat row) 0%nat s.

Definition activeShape (piece : Tetromino) (newShape : option Shape) : Shape :=
  match newShape with Some s => s | None => shape piece end.

(** An occupied cell of the shape [s], with its indices. *)
Definition occupiedAt (s : Shape) (iy ix : nat) : Prop :=
  exists row v, nth_error s iy = Some row /\ nth_error row ix = Some v /\ v <> 0.

(** Where the shape cell [(iy, ix)] of [piece] lands under the offset. *)
Definition landX (piece : Tetromino) (moveX : Z) (ix : nat) : Z :=
  x (position piece) + Z.of_nat ix + moveX.
Definition landY (piece : Tetromino) (moveY : Z) (iy : nat) : Z :=
  y (position piece) + Z.of_nat iy + moveY.

(** The landing cell is beyond a side wall, at or below the floor, or a
    truthy cell of a visible row. *)
Definition blocked (g : Grid) (r c : Z) : Prop :=
  c < 0 \/ c >= gridWidth g \/ r >= gridHeight g \/
  (r >= 0 /\ truthyCell (cellAt g r c) = true).

(** The active piece [p] is legally placed on [g]: every occupied cell is
    between the side walls and above the floor, and those at rows [>= 0] are
    on cells that are not settled. *)
Definition validPiece (g : Grid) (p : Tetromino) : Prop :=
  forall iy ix, occupiedAt (shape p) iy ix ->
    let c := x (position p) + Z.of_nat ix in
    let r := y (position p) + Z.of_nat iy in
    0 <= c < gridWidth g /\ r < gridHeight g /\
    (0 <= r -> truthyCell (cellAt g r c) = false).

(** Every occupied cell of [p] is between the side walls and above the
    floor of [g]. *)
Definition inField (g : Grid) (p : Tetromino) : Prop :=
  forall iy ix, occupiedAt (shape p) iy ix ->
    0 <= x (position p) + Z.of_nat ix < gridWidth g /\
    y (position p) + Z.of_nat iy < gridHeight g.

(** ** Shape matrices *)

(** A square matrix of side [n]. *)
Definition isSquare (n : nat) (m : Shape) : Prop :=
  length m = n /\ Forall (fun row => length row = n) m.

(** The entry [m[i][j]] of a matrix. *)
Definition entry (m : Shape) (i j : nat) : Z := nth j (nth i m []) 0.

(** The clockwise transform on a matrix that has a row 0, without the
    outcome wrapper. *)
Definition rotatedCW (n : nat) (m : Shape) : Shape :=
  map (@rev Z) (map (fun index => map (fun row => nth index row 0) m) (seq 0 n)).

(** [def.shape[0].length]: the width of a shape matrix. *)
Definition shapeWidth (s : Shape) : Z := Z.of_nat (length (hd [] s)).

(** ** Grids and the lock *)

(** A grid of [h] rows of [w] cells each. *)
Definition hasDims (w h : nat) (g : Grid) : Prop :=
  length g = h /\ Forall (fun row => length row = w) g.

(** The grid has the dimensions of the configuration, and the configuration
    is one that [Array(width)] and the refill loop accept. *)
Definition configured (cfg : Config) (g : Grid) : Prop :=
  hasDims (Z.to_nat (width cfg)) (Z.to_nat (height cfg)) g /\
  0 <= width cfg /\ 0 < height cfg.

(** The row that [Array(config.width).fill(null)] builds. *)
Definition emptyRow (cfg : Config) : list Cell := repeat CNull (Z.to_nat (width cfg)).

(** The queued piece at the spawn position, as [lockPiece] builds it. *)
Definition spawned (state : GameState) : Tetromino :=
  withPosition (nextPiece state) (spawnPos (config state)).

(** The [droppedPiece] of [hardDrop] for the drop distance [d]. *)
Definition droppedPiece (cp : Tetromino) (d : Z) : Tetromino :=
  withPosition cp {| x := x (position cp); y := y (position cp) + d |}.

(** The value of a call that returns ([d] stands in otherwise). *)
Definition resultOr {A : Type} (d : A) (r : Result A) : A :=
  match r with
  | Ok a => a
  | _ => d
  end.

(** ** Sessions *)

(** An intent is one call of an updater, with the kinds that its calls of
    [getRandomPiece] draw and the fuel of its loop.  The gravity clock issues
    [Move t 0 1]; the keyboard of [src/App.tsx] issues [Move t (-1) 0],
    [Move t 1 0], [Move t 0 1], [Rotate true], [HardDrop], [Hold] and
    [ToggleFreeze], and the start button issues [Start].  The other intents
    (any offset, [Rotate false], [MoveToEnd]) are calls that the updaters
    accept and that the bundled revision issues. *)
Inductive Intent : Type :=
| Start (t1 t2 : TetrominoType)
| Move (t : TetrominoType) (dx dy : Z)
| MoveToEnd (fuel : nat) (dx : Z)
| Rotate (clockwise : bool)
| HardDrop (fuel : nat) (t : TetrominoType)
| Hold (t : TetrominoType)
| ToggleFreeze.

Definition dispatch (i : Intent) (s : GameState) : Result GameState :=
  match i with
  | Start t1 t2 => Ok (startGame t1 t2 s)
  | Move t dx dy => move t dx dy s
  | MoveToEnd fuel dx => moveToEnd fuel dx s
  | Rotate clockwise => rotate clockwise s
  | HardDrop fuel t => hardDrop fuel t s
  | Hold t => Ok (holdPiece t s)
  | ToggleFreeze => Ok (toggleFreeze s)
  end.

Fixpoint run (intents : list Intent) (s : GameState) : Result GameState :=
  match intents with
  | [] => Ok s
  | i :: rest => let* s' := dispatch i s in run rest s'
  end.

(** The states of a session: the initial [useState] value and whatever a
    returning updater makes of a state of the session. *)
Inductive reachable : GameState -> Prop :=
| reachable_initial : reachable initialState
| reachable_step (i : Intent) (s s' : GameState) :
    reachable s -> dispatch i s = Ok s' -> reachable s'.

(** The states of a session in which [holdPiece] is never called. *)
Inductive reachableWithoutHold : GameState -> Prop :=
| withoutHold_initial : reachableWithoutHold initialState
| withoutHold_step (i : Intent) (s s' : GameState) :
    reachableWithoutHold s -> (forall t, i <> Hold t) ->
    dispatch i s = Ok s' -> reachableWithoutHold s'.

(** The intent reaches the call of [lockPiece] with an active piece: a
    descent ([dy > 0]) that is let through by the guards and blocked by the
    collision test, or a hard drop that is let through by the guards. *)
Definition intentLocks (i : Intent) (s : GameState) : Prop :=
  match i with
  | Move _ dx dy =>
      exists cp, currentPiece s = Some cp /\ isPlaying s = true /\
                 isFrozen s && negb (dy =? 0) = false /\
                 checkCollision cp (grid s) dx dy None = Ok true /\ dy > 0
  | HardDrop _ _ => currentPiece s <> None /\ isPlaying s = true
  | _ => False
  end.

(** A stretch of a session without a lock and without a restart. *)
Inductive quietRun : GameState -> GameState -> Prop :=
| quiet_refl (s : GameState) : quietRun s s
| quiet_step (i : Intent) (s s' s'' : GameState) :
    quietRun s s' -> dispatch i s' = Ok s'' ->
    ~ intentLocks i s' -> (forall t1 t2, i <> Start t1 t2) ->
    quietRun s s''.

(** The configuration is the initial one, the grid has its size, and the
    active piece, if any, is legally placed. *)
Definition wellPlaced (s : GameState) : Prop :=
  config s = config initialState /\
  configured (config s) (grid s) /\
  forall p, currentPiece s = Some p -> validPiece (grid s) p.

(** ** Concrete states *)

(** A playing state used to run the lock on: the bottom row of the 10 by 20
    field is settled except at columns 3 and 4, and the O piece sits in that
    gap at rows 18 and 19. *)
Definition gapState (lvl : Z) : GameState :=
  let tag := CTag (def_color (TETROMINOES KI)) in
  {| grid := repeat (repeat CNull 10) 19
             ++ [[tag; tag; tag; CNull; CNull; tag; tag; tag; tag; tag]];
     currentPiece := Some (withPosition (getRandomPiece KO 10) {| x := 3; y := 18 |});
     nextPiece := getRandomPiece KT 10;
     heldPiece := None; canHold := true; isFrozen := false;
     score := 0; lines := 0; level := lvl; status := PLAYING;
     config := config initialState |}.

(** The grid of [gapState] with the O piece stamped into it. *)
Definition gapStamped : Grid :=
  let tag := CTag (def_color (TETROMINOES KI)) in
  let o := CTag (def_color (TETROMINOES KO)) in
  repeat (repeat CNull 10) 18
  ++ [[CNull; CNull; CNull; o; o; CNull; CNull; CNull; CNull; CNull];
      [tag; tag; tag; o; o; tag; tag; tag; tag; tag]].

(** A session that has just started with the O piece, then frozen. *)
Definition frozenStart : GameState := toggleFreeze (startGame KO KT initialState).

(** A session played on the keyboard.  The I piece is laid flat in the left
    corner and the L piece in the right corner; five I pieces are stood on
    end in column 6, which they fill from the floor to row 0; the O piece is
    then active at its spawn position and the I piece is queued. *)
Definition standI (t : TetrominoType) : list Intent :=
  [Rotate true; Move KI 1 0; HardDrop 32 t].

Definition towerIntents : list Intent :=
  [Start KI KL;
   Move KI (-1) 0; Move KI (-1) 0; Move KI (-1) 0; HardDrop 32 KI;
   Move KI 1 0; Move KI 1 0; Move KI 1 0; Move KI 1 0; HardDrop 32 KI]
  ++ standI KI ++ standI KI ++ standI KI ++ standI KO ++ standI KI.

Definition towerState : GameState :=
  match run towerIntents initialState with
  | Ok s => s
  | _ => initialState
  end.

(** From [towerState], the O piece is moved one column to the right and let
    down 18 rows by gravity: it rests on the floor at columns 4 and 5, the
    last gap of the bottom row. *)
Definition restingIntents : list Intent :=
  Move KI 1 0 :: repeat (Move KI 0 1) 18.

Definition restingState : GameState :=
  match run restingIntents towerState with
  | Ok s => s
  | _ => initialState
  end.

(** A session that clears a row and goes on: two I pieces are laid flat on
    the floor at columns 0 to 3 and 4 to 7, and the O piece is dropped at
    columns 8 and 9. *)
Definition clearIntents : list Intent :=
  [Start KI KI;
   Move KI (-1) 0; Move KI (-1) 0; Move KI (-1) 0; HardDrop 32 KO;
   Move KI 1 0; HardDrop 32 KT;
   Move KI 1 0; Move KI 1 0; Move KI 1 0; Move KI 1 0; Move KI 1 0;
   HardDrop 32 KS].

Definition clearedState : GameState :=
  match run clearIntents initialState with
  | Ok s => s
  | _ => initialState
  end.

(** ** Further notions *)

(** The piece [cp] translated by [(dx, dy)], as [move] builds it. *)
Definition movedPiece (cp : Tetromino) (dx dy : Z) : Tetromino :=
  withPosition cp {| x := x (position cp) + dx; y := y (position cp) + dy |}.

(** The counter-clockwise transform on a matrix that has a row 0, without
    the outcome wrapper. *)
Definition rotatedCCW (n : nat) (m : Shape) : Shape :=
  rev (map (fun index => map (fun row => nth index row 0) m) (seq 0 n)).

(** ** [getGhostPosition] (App.tsx, 363-373)

    The probing loop is the one of [hardDrop]; [None] is the [null] that is
    returned when there is no active piece. *)
Definition getGhostPosition (fuel : nat) (gameState : GameState)
    : Result (option Position) :=
  match currentPiece gameState with
  | None => Ok None
  | Some cp =>
      let* dropY := dropLoop fuel cp (grid gameState) 0 in
      Ok (Some {| x := x (position cp); y := y (position cp) + dropY |})
  end.

(** A cell as a session leaves it: [null] or a colour of the catalog. *)
Definition catalogCell (c : Cell) : Prop :=
  c = CNull \/ exists t, c = CTag (def_color (TETROMINOES t)).

(** The piece carries the shape and the colour of the catalog entry of its
    kind. *)
Definition catalogPiece (p : Tetromino) : Prop :=
  shape p = def_shape (TETROMINOES (type p)) /\
  color p = def_color (TETROMINOES (type p)).

(** The shape is a square matrix of side 1 to 4 with an occupied cell, and
    the colour is the one of the kind. *)
Definition soundPiece (p : Tetromino) : Prop :=
  (exists n, (0 < n <= 4)%nat /\ isSquare n (shape p)) /\
  (exists iy ix, occupiedAt (shape p) iy ix) /\
  color p = def_color (TETROMINOES (type p)).

(** What every state of a session satisfies. *)
Definition sound (s : GameState) : Prop :=
  config s = config initialState /\
  configured (config s) (grid s) /\
  Forall (Forall catalogCell) (grid s) /\
  Forall (fun row => rowFull row = false) (grid s) /\
  catalogPiece (nextPiece s) /\
  (forall p, currentPiece s = Some p -> inField (grid s) p /\ soundPiece p) /\
  0 <= score s /\ 0 <= lines s /\ level s = lines s / 10 + 1.

(** The intent carries enough fuel for its loop on the state [s] (a field of
    height 20 and width 10), and the slide has a direction. *)
Definition enoughFuel (i : Intent) (s : GameState) : Prop :=
  match i with
  | HardDrop fuel _ =>
      forall cp, currentPiece s = Some cp ->
                 (Z.to_nat (INITIAL_HEIGHT - y (position cp)) < fuel)%nat
  | MoveToEnd fuel dx => dx <> 0 /\ (Z.to_nat INITIAL_WIDTH <= fuel)%nat
  | _ => True
  end.

(** The grids [g] and [g'] are equal, or differ in the row of index [i]
    only. *)
Definition touchesRow (i : nat) (g g' : Grid) : Prop :=
  g' = g \/
  exists l1 a a' l2, length l1 = i /\ g = l1 ++ a :: l2 /\ g' = l1 ++ a' :: l2.

(** The cell at row [r], column [c] is under an occupied cell of the
    piece. *)
Definition covered (cp : Tetromino) (r c : Z) : Prop :=
  exists iy ix, occupiedAt (shape cp) iy ix /\
                r = y (position cp) + Z.of_nat iy /\
                c = x (position cp) + Z.of_nat ix.

(** The part of [covered] that the stamp has reached when it is at the
    shape cell [(ky, kx)]: the rows before [ky], and the cells before [kx]
    of row [ky]. *)
Definition coveredBefore (cp : Tetromino) (ky kx : nat) (r c : Z) : Prop :=
  exists iy ix, occupiedAt (shape cp) iy ix /\
                r = y (position cp) + Z.of_nat iy /\
                c = x (position cp) + Z.of_nat ix /\
                ((iy < ky)%nat \/ (iy = ky /\ (ix < kx)%nat)).

(** On the visible cells, [g] is [g0] with the colour of the piece on the
    cells of [W]. *)
Definition stampedOn (W : Z -> Z -> Prop) (tag : Cell) (g0 g : Grid) : Prop :=
  forall r c, 0 <= r -> 0 <= c ->
    (W r c -> cellAt g r c = tag) /\ (~ W r c -> cellAt g r c = cellAt g0 r c).

(** ** The cell renderer (App.tsx, 436-476)

    The function that the board maps over [gameState.grid]: for the cell
    [cell] at row [iy] and column [ix] it computes [blockColor] and
    [isGhost]; a [Block] is drawn when [blockColor] is truthy. *)
Definition FROZEN_COLOR : string :=
  "bg-red-600 border-red-400 shadow-[0_0_15px_rgba(220,38,38,0.9)]".

(** [relativeX >= 0 && relativeX < shape[0].length && relativeY >= 0 &&
    relativeY < shape.length && shape[relativeY][relativeX]], as a
    condition.  [shape[0].length] is reached when [relativeX >= 0] and raises
    when the shape has no row 0; a read past the end of a row yields
    [undefined], which is falsy like [0]. *)
Definition shapeCovers (shape : Shape) (relativeX relativeY : Z) : Result bool :=
  if relativeX >=? 0 then
    match shape with
    | [] => Throw
    | row0 :: _ =>
        if relativeX <? Z.of_nat (length row0) then
          if (relativeY >=? 0) && (relativeY <? Z.of_nat (length shape)) then
            Ok (truthyNum (nth (Z.to_nat relativeX)
                             (nth (Z.to_nat relativeY) shape []) 0))
          else Ok false
        else Ok false
    end
  else Ok false.

(** The result is the pair of [blockColor] and [isGhost]. *)
Definition renderCell (gameState : GameState) (ghostPos : option Position)
    (iy ix : nat) (cell : Cell) : Result (Cell * bool) :=
  let* ghosted :=
    match ghostPos, currentPiece gameState with
    | Some gp, Some cp =>
        if negb (truthyCell cell) then
          let* over :=
            shapeCovers (shape cp) (Z.of_nat ix - x gp) (Z.of_nat iy - y gp) in
          if over then Ok (CTag (color cp), true) else Ok (cell, false)
        else Ok (cell, false)
    | _, _ => Ok (cell, false)
    end in
  match currentPiece gameState with
  | None => Ok ghosted
  | Some cp =>
      let* over :=
        shapeCovers (shape cp) (Z.of_nat ix - x (position cp))
          (Z.of_nat iy - y (position cp)) in
      if over then
        Ok (CTag (if isFrozen gameState then FROZEN_COLOR else color cp), false)
      else Ok ghosted
  end.

(** ** The revision of [App] bundled in [src/constants.ts]

    After the catalog, [src/constants.ts] carries a second revision of
    [App] (lines 79-694).  Its [checkCollision], [toggleFreeze], [rotate],
    [move], [hardDrop] and initial state read as in [src/App.tsx]; it has no
    [holdPiece]; it adds [stopGame], [moveToEnd] and [updateConfig]; and its
    [getRandomPiece], [lockPiece] and [startGame] differ.  The module embeds
    what differs, over the definitions above for what does not. *)
Module Bundled.

(** The largest length of an array: [Array(n)] and [Array.from({ length: n
    })] raise a [RangeError] beyond it. *)
Definition MAX_ARRAY_LENGTH : Z := 4294967295.

(** [shape[0].length]: a [TypeError] when the shape has no row 0. *)
Definition firstRowLength (s : Shape) : Result Z :=
  match s with
  | [] => Throw
  | row0 :: _ => Ok (Z.of_nat (length row0))
  end.

(** [getRandomPiece] (constants.ts, 157-167).  The deep copy of the shape
    is the same value. *)
Definition getRandomPiece (t : TetrominoType) (width : Z) : Result Tetromino :=
  let def := TETROMINOES t in
  let* n := firstRowLength (def_shape def) in
  Ok {| type := t;
        shape := def_shape def;
        color := def_color def;
        position := {| x := width / 2 - n / 2; y := 0 |} |}.

(** [stopGame] (constants.ts, 197-208).  The coach comment that it also sets
    is not part of the game state. *)
Definition stopGame (prev : GameState) : GameState :=
  {| grid := grid prev; currentPiece := None; nextPiece := nextPiece prev;
     heldPiece := heldPiece prev; canHold := canHold prev; isFrozen := false;
     score := 0; lines := 0; level := 1; status := IDLE; config := config prev |}.

(** [lockPiece] (constants.ts, 235-296).  The stamp writes at the rows
    [0 <= gridY < config.height] only. *)
Definition stampCell (cfg : Config) (cp : Tetromino) (iy ix : nat) (cell : Z)
    (newGrid : Grid) : Result Grid :=
  if truthyNum cell then
    let gridY := y (position cp) + Z.of_nat iy in
    let gridX := x (position cp) + Z.of_nat ix in
    if (gridY >=? 0) && (gridY <? height cfg)
    then writeCell newGrid gridY gridX (CTag (color cp))
    else Ok newGrid
  else Ok newGrid.

Definition stampPiece (cfg : Config) (cp : Tetromino) (g : Grid) : Result Grid :=
  forEachM (fun iy row newGrid => forEachM (stampCell cfg cp iy) 0%nat row newGrid)
    0%nat (shape cp) g.

Definition lockPiece (t : TetrominoType) (state : GameState) : Result GameState :=
  match currentPiece state with
  | None => Ok state
  | Some cp =>
      let* newGrid := stampPiece (config state) cp (grid state) in
      let cleared := clearedLinesCount newGrid in
      let* filteredGrid := refill (config state) (keptRows newGrid) in
      let newScore :=
        score state + (if cleared >? 0 then SCORING cleared * level state else 0) in
      let newLinesTotal := lines state + cleared in
      let newLevel := newLinesTotal / 10 + 1 in
      let* n := firstRowLength (shape (nextPiece state)) in
      let spawnPos := {| x := width (config state) / 2 - n / 2; y := 0 |} in
      let nextToSpawn := withPosition (nextPiece state) spawnPos in
      let* hit := checkCollision nextToSpawn filteredGrid 0 0 None in
      if hit then
        Ok {| grid := filteredGrid; currentPiece := None;
              nextPiece := nextPiece state; heldPiece := heldPiece state;
              canHold := canHold state; isFrozen := false;
              score := newScore; lines := newLinesTotal; level := level state;
              status := GAME_OVER; config := config state |}
      else
        let* next := getRandomPiece t (width (config state)) in
        Ok {| grid := filteredGrid; currentPiece := Some nextToSpawn;
              nextPiece := next;
              heldPiece := heldPiece state; canHold := true; isFrozen := false;
              score := newScore; lines := newLinesTotal; level := newLevel;
              status := status state; config := config state |}
  end.

(** [move] (constants.ts, 298-322). *)
Definition move (t : TetrominoType) (dx dy : Z) (prev : GameState)
    : Result GameState :=
  match currentPiece prev with
  | None => Ok prev
  | Some cp =>
      if negb (isPlaying prev) then Ok prev
      else if isFrozen prev && negb (dy =? 0) then Ok prev
      else
        let* hit := checkCollision cp (grid prev) dx dy None in
        if negb hit then
          Ok (withCurrentPiece prev
                (Some (withPosition cp {| x := x (position cp) + dx;
                                          y := y (position cp) + dy |})))
        else if dy >? 0 then lockPiece t prev
        else Ok prev
  end.

(** [hardDrop] (constants.ts, 324-337). *)
Definition hardDrop (fuel : nat) (t : TetrominoType) (prev : GameState)
    : Result GameState :=
  match currentPiece prev with
  | None => Ok prev
  | Some cp =>
      if negb (isPlaying prev) then Ok prev
      else
        let* dropY := dropLoop fuel cp (grid prev) 0 in
        let droppedPiece :=
          withPosition cp {| x := x (position cp); y := y (position cp) + dropY |} in
        lockPiece t (withCurrentPiece prev (Some droppedPiece))
  end.

(** [updateConfig] (constants.ts, 408-416). *)
Inductive ConfigKey : Type := KeyWidth | KeyHeight | KeyBaseSpeed.

(** [{ ...prev.config, [dim]: val }]. *)
Definition withConfigKey (cfg : Config) (dim : ConfigKey) (val : Z) : Config :=
  match dim with
  | KeyWidth => {| width := val; height := height cfg; baseSpeed := baseSpeed cfg |}
  | KeyHeight => {| width := width cfg; height := val; baseSpeed := baseSpeed cfg |}
  | KeyBaseSpeed => {| width := width cfg; height := height cfg; baseSpeed := val |}
  end.

(** [Array.from({ length: h }, () => Array(w).fill(null))]: no row, and no
    call of [Array(w)], when [h <= 0]. *)
Definition makeGrid (w h : Z) : Result Grid :=
  if h <=? 0 then Ok []
  else if h >? MAX_ARRAY_LENGTH then Throw
  else if (w <? 0) || (w >? MAX_ARRAY_LENGTH) then Throw
  else Ok (emptyGrid w h).

Definition updateConfig (dim : ConfigKey) (val : Z) (prev : GameState)
    : Result GameState :=
  let* newGrid :=
    match dim with
    | KeyWidth => makeGrid val (height (config prev))
    | KeyHeight => makeGrid (width (config prev)) val
    | KeyBaseSpeed => Ok (grid prev)
    end in
  Ok {| grid := newGrid; currentPiece := currentPiece prev;
        nextPiece := nextPiece prev; heldPiece := heldPiece prev;
        canHold := canHold prev; isFrozen := isFrozen prev; score := score prev;
        lines := lines prev; level := level prev; status := status prev;
        config := withConfigKey (config prev) dim val |}.

(** [startGame] (constants.ts, 418-436).  The dimensions and the two pieces
    come from the rendered state [gameState] of the closure; the updater is
    applied to [prev]. *)
Definition startGame (t1 t2 : TetrominoType) (gameState prev : GameState)
    : Result GameState :=
  let width := width (config gameState) in
  let height := height (config gameState) in
  let* p1 := getRandomPiece t1 width in
  let* p2 := getRandomPiece t2 width in
  let* newGrid := makeGrid width height in
  let* n := firstRowLength (shape p1) in
  Ok {| grid := newGrid;
        currentPiece := Some (withPosition p1 {| x := width / 2 - n / 2; y := 0 |});
        nextPiece := p2; heldPiece := None; canHold := true; isFrozen := false;
        score := 0; lines := 0; level := 1; status := PLAYING;
        config := config prev |}.

(** A call of an updater of the bundled revision, with the kinds drawn and
    the fuel of its loop.  A handler runs on the state that was rendered
    last, so [startGame] reads its closure from the state it updates. *)
Inductive Intent : Type :=
| Start (t1 t2 : TetrominoType)
| Stop
| UpdateConfig (dim : ConfigKey) (val : Z)
| Move (t : TetrominoType) (dx dy : Z)
| MoveToEnd (fuel : nat) (dx : Z)
| Rotate (clockwise : bool)
| HardDrop (fuel : nat) (t : TetrominoType)
| ToggleFreeze.

Definition dispatch (i : Intent) (s : GameState) : Result GameState :=
  match i with
  | Start t1 t2 => startGame t1 t2 s s
  | Stop => Ok (stopGame s)
  | UpdateConfig dim val => updateConfig dim val s
  | Move t dx dy => move t dx dy s
  | MoveToEnd fuel dx => moveToEnd fuel dx s
  | Rotate clockwise => rotate clockwise s
  | HardDrop fuel t => hardDrop fuel t s
  | ToggleFreeze => Ok (toggleFreeze s)
  end.

(** The states of a session of the bundled revision. *)
Inductive reachable : GameState -> Prop :=
| bundled_initial : reachable initialState
| bundled_step (i : Intent) (s s' : GameState) :
    reachable s -> dispatch i s = Ok s' -> reachable s'.

End Bundled.

(** ** The rows cleared in a session

    [lockPiece] counts the rows that its filter removes in the local
    variable [clearedLinesCount].  The total of a session is the sum of
    these counts over the locks since the last start. *)

(** The final value of [clearedLinesCount] in the call [lockPiece(state)]
    ([0] when the call returns at its first line or raises in the stamp). *)
Definition lockClears (state : GameState) : Z :=
  match currentPiece state with
  | None => 0
  | Some cp =>
      match stampPiece cp (grid state) with
      | Ok newGrid => clearedLinesCount newGrid
      | _ => 0
      end
  end.

(** The state that the intent passes to [lockPiece], if it reaches that
    call: [prev] for a blocked descent of [move], [{ ...prev, currentPiece:
    droppedPiece }] for [hardDrop]. *)
Definition lockedState (i : Intent) (s : GameState) : option GameState :=
  match i, currentPiece s with
  | Move _ dx dy, Some cp =>
      if negb (isPlaying s) then None
      else if isFrozen s && negb (dy =? 0) then None
      else
        match checkCollision cp (grid s) dx dy None with
        | Ok hit => if negb hit then None else if dy >? 0 then Some s else None
        | _ => None
        end
  | HardDrop fuel _, Some cp =>
      if negb (isPlaying s) then None
      else
        match dropLoop fuel cp (grid s) 0 with
        | Ok dropY => Some (withCurrentPiece s (Some (droppedPiece cp dropY)))
        | _ => None
        end
  | _, _ => None
  end.

(** The rows that the intent clears on the state [s]. *)
Definition clearedBy (i : Intent) (s : GameState) : Z :=
  match lockedState i s with
  | Some state => lockClears state
  | None => 0
  end.

(** The rows cleared since the last start when the intents have run from
    [s], [total] being the rows cleared before them. *)
Fixpoint totalCleared (intents : list Intent) (s : GameState) (total : Z) : Z :=
  match intents with
  | [] => total
  | i :: rest =>
      match dispatch i s with
      | Ok s' =>
          totalCleared rest s'
            (match i with
             | Start _ _ => 0
             | _ => total + clearedBy i s
             end)
      | _ => total
      end
  end.

(** A keyboard session that clears 4, 4, 1 and 1 rows.  [standAt l r t]
    stands the active I piece on end (it then occupies column 5), moves it
    [l] columns to the left and [r] to the right and drops it; [t] is the
    kind that the lock draws.  [fourRows] stands ten I pieces side by side in
    the columns 0 to 9 of an empty field: the tenth completes four rows. *)
Definition standAt (l r : nat) (t : TetrominoType) : list Intent :=
  Rotate true :: repeat (Move KI (-1) 0) l ++ repeat (Move KI 1 0) r
  ++ [HardDrop 32 t].

Definition fourRows : list Intent :=
  standAt 5 0 KI ++ standAt 4 0 KI ++ standAt 3 0 KI ++ standAt 2 0 KI
  ++ standAt 1 0 KI ++ standAt 0 0 KI ++ standAt 0 1 KI ++ standAt 0 2 KI
  ++ standAt 0 3 KI ++ standAt 0 4 KI.

(** After the two blocks of four rows: two I pieces laid flat at columns 0
    to 3 and 4 to 7 and the O piece at columns 8 and 9 clear the ninth row
    and leave the upper half of the O piece on the floor.  Then an I piece
    is laid flat at columns 0 to 3, one is stood on end in column 7 and five
    in column 6, which they fill from the floor to row 0; the O piece is
    active at its spawn position and the I piece is queued. *)
Definition nineRowsIntents : list Intent :=
  [Start KI KI] ++ fourRows ++ fourRows
  ++ repeat (Move KI (-1) 0) 3 ++ [HardDrop 32 KO]
  ++ [Move KI 1 0; HardDrop 32 KI]
  ++ repeat (Move KI 1 0) 5 ++ [HardDrop 32 KI]
  ++ repeat (Move KI (-1) 0) 3 ++ [HardDrop 32 KI]
  ++ standAt 0 2 KI
  ++ standAt 0 1 KI ++ standAt 0 1 KI ++ standAt 0 1 KI ++ standAt 0 1 KO
  ++ standAt 0 1 KI.

Definition nineRowsState : GameState :=
  match run nineRowsIntents initialState with
  | Ok s => s
  | _ => initialState
  end.

(** The O piece is moved one column to the right and dropped into the last
    gap of the bottom row, at columns 4 and 5. *)
Definition lastRowIntents : list Intent := [Move KI 1 0; HardDrop 32 KI].

Definition tenRowsIntents : list Intent := nineRowsIntents ++ lastRowIntents.

Definition tenRowsState : GameState :=
  match run tenRowsIntents initialState with
  | Ok s => s
  | _ => initialState
  end.

(** * Properties *)

Unset Implicit Arguments.

(** Splits a conjunction into its conjuncts, and nothing else. *)
Ltac splits := repeat match goal with |- _ /\ _ => split end.

(** ** Loops that neither raise nor run out of fuel *)

Lemma forUntil_pure {A : Type} (body : nat -> A -> Result bool)
    (f : nat -> A -> bool) (l : list A) :
  (forall i a, body i a = Ok (f i a)) ->
  forall i, forUntil body i l = Ok (anyFrom f i l).
Proof.
  intros Hbody. induction l as [|a rest IH]; intros i; simpl.
  - reflexivity.
  - rewrite Hbody. simpl. destruct (f i a); simpl; [reflexivity | apply IH].
Qed.

Lemma anyFrom_true_iff {A : Type} (f : nat -> A -> bool) (l : list A) :
  forall i, anyFrom f i l = true <->
            exists k a, nth_error l k = Some a /\ f (i + k)%nat a = true.
Proof.
  induction l as [|a rest IH]; intros i; simpl.
  - split; [discriminate | intros (k & b & Hk & _); destruct k; discriminate].
  - rewrite orb_true_iff, IH. split.
    + intros [H | (k & b & Hk & Hf)].
      * exists 0%nat, a. rewrite Nat.add_0_r. auto.
      * exists (S k), b. rewrite Nat.add_succ_r. auto.
    + intros (k & b & Hk & Hf). destruct k as [|k]; simpl in Hk.
      * injection Hk as ->. rewrite Nat.add_0_r in Hf. auto.
      * right. exists k, b. rewrite Nat.add_succ_r in Hf. auto.
Qed.

(** ** [checkCollision] computes the boolean test *)

Lemma collidesAt_hits piece g moveX moveY iy ix v :
  g <> [] -> collidesAt piece g moveX moveY iy ix v = Ok (hits piece g moveX moveY iy ix v).
Proof.
  intros Hg. unfold collidesAt, hits, gridWidth, gridHeight.
  destruct g as [|row0 g']; [congruence|]. cbn [hd].
  destruct (truthyNum v); cbn [andb]; [|reflexivity].
  destruct (_ <? 0); cbn [orb]; [reflexivity|].
  destruct (_ >=? Z.of_nat (length row0)); cbn [orb]; [reflexivity|].
  destruct (_ >=? Z.of_nat (length (row0 :: g'))); cbn [orb]; [reflexivity|].
  destruct (_ && _); reflexivity.
Qed.

Lemma checkCollision_collides piece g moveX moveY newShape :
  g <> [] ->
  checkCollision piece g moveX moveY newShape
  = Ok (collides piece g moveX moveY (activeShape piece newShape)).
Proof.
  intros Hg. unfold checkCollision, collides, activeShape.
  apply forUntil_pure. intros iy row.
  apply forUntil_pure. intros ix v. now apply collidesAt_hits.
Qed.

Lemma collides_true_iff piece g moveX moveY s :
  collides piece g moveX moveY s = true <->
  exists iy ix, occupiedAt s iy ix /\
                blocked g (landY piece moveY iy) (landX piece moveX ix).
Proof.
  unfold collides. rewrite anyFrom_true_iff. split.
  - intros (iy & row & Hrow & Hany). apply anyFrom_true_iff in Hany.
    destruct Hany as (ix & v & Hv & Hhit). simpl in Hhit.
    unfold hits in Hhit. apply andb_true_iff in Hhit. destruct Hhit as [Hv0 Hb].
    exists iy, ix. split.
    + exists row, v. repeat split; auto.
      unfold truthyNum in Hv0. apply negb_true_iff, Z.eqb_neq in Hv0. exact Hv0.
    + unfold blocked, landX, landY. cbv zeta in Hb.
      repeat rewrite orb_true_iff in Hb. rewrite andb_true_iff in Hb.
      destruct Hb as [[[H|H]|H]|[H1 H2]]; [left|right; left|right; right; left|right; right; right]; try lia.
      split; [lia | exact H2].
  - intros (iy & ix & (row & v & Hrow & Hv & Hv0) & Hb).
    exists iy, row. split; [exact Hrow|]. apply anyFrom_true_iff.
    exists ix, v. split; [exact Hv|]. simpl. unfold hits.
    apply andb_true_iff. split.
    + unfold truthyNum. apply negb_true_iff, Z.eqb_neq. exact Hv0.
    + cbv zeta. unfold blocked, landX, landY in Hb.
      repeat rewrite orb_true_iff. rewrite andb_true_iff.
      destruct Hb as [H|[H|[H|[H1 H2]]]].
      * left; left; left. lia.
      * left; left; right. lia.
      * left; right. lia.
      * right. split; [lia | exact H2].
Qed.

(** ** C1: what [checkCollision] decides *)

(** C1.  On a grid that has at least one row, [checkCollision] returns, and
    it returns [true] if and only if some occupied cell of the override shape
    (or of the piece's own shape when there is no override), placed at the
    piece's position plus the offset, lands at a column below 0, at a column
    at or beyond the grid width, at a row at or beyond the grid height, or on
    a truthy (non-empty) grid cell at a row at or above 0.  When every
    occupied cell lands at a negative row, the result is [true] exactly when
    one of them is beyond a side wall, whatever the grid holds. *)
Theorem checkCollision_spec (piece : Tetromino) (g : Grid) (moveX moveY : Z)
    (newShape : option Shape) :
  g <> [] ->
  exists b,
    checkCollision piece g moveX moveY newShape = Ok b /\
    (b = true <->
     exists iy ix, occupiedAt (activeShape piece newShape) iy ix /\
       let nextX := x (position piece) + Z.of_nat ix + moveX in
       let nextY := y (position piece) + Z.of_nat iy + moveY in
       nextX < 0 \/ nextX >= gridWidth g \/ nextY >= gridHeight g \/
       (nextY >= 0 /\ truthyCell (cellAt g nextY nextX) = true)) /\
    ((forall iy ix, occupiedAt (activeShape piece newShape) iy ix ->
                    y (position piece) + Z.of_nat iy + moveY < 0) ->
     (b = true <->
      exists iy ix, occupiedAt (activeShape piece newShape) iy ix /\
        let nextX := x (position piece) + Z.of_nat ix + moveX in
        nextX < 0 \/ nextX >= gridWidth g)).
Proof.
  intros Hg. exists (collides piece g moveX moveY (activeShape piece newShape)).
  split; [now apply checkCollision_collides|]. split.
  - apply collides_true_iff.
  - intros Hneg. rewrite collides_true_iff. split.
    + intros (iy & ix & Hocc & Hb). exists iy, ix. split; [exact Hocc|].
      specialize (Hneg iy ix Hocc). unfold blocked, landX, landY, gridHeight in Hb.
      cbv zeta. destruct Hb as [H|[H|[H|[H _]]]]; [left; exact H | right; exact H | lia | lia].
    + intros (iy & ix & Hocc & Hb). exists iy, ix. split; [exact Hocc|].
      unfold blocked, landX. cbv zeta in Hb. destruct Hb as [H|H]; [left | right; left]; exact H.
Qed.

(** The O piece at its spawn position on the empty 10 by 20 field, pushed 19
    rows down: the theorem decides the call by the floor. *)
Lemma checkCollision_spec_witness :
  emptyGrid 10 20 <> [] /\
  checkCollision (getRandomPiece KO 10) (emptyGrid 10 20) 0 19 None = Ok true.
Proof.
  assert (Hg : emptyGrid 10 20 <> []) by (vm_compute; discriminate).
  split; [exact Hg|].
  destruct (checkCollision_spec (getRandomPiece KO 10) (emptyGrid 10 20) 0 19 None Hg)
    as (b & Hb & Hiff & _).
  rewrite Hb. f_equal. apply Hiff.
  exists 1%nat, 0%nat. split.
  - exists [1; 1], 1. repeat split; try reflexivity; discriminate.
  - right; right; left. vm_compute. discriminate.
Defined.

(** A grid without rows has no [grid[0]]: the test raises as soon as it
    meets an occupied cell that is not left of column 0. *)
Lemma checkCollision_no_rows :
  checkCollision (getRandomPiece KO 10) [] 0 0 None = Throw.
Proof. reflexivity. Qed.

(** ** C8: four clockwise quarter turns *)

Lemma rotateShape_square (n : nat) (m : Shape) :
  isSquare n m -> (0 < n)%nat -> rotateShape true m = Ok (rotatedCW n m).
Proof.
  intros [Hlen Hrows] Hn. unfold rotateShape, transposeShape, rotatedCW.
  destruct m as [|row0 rest]; simpl in Hlen; [lia|].
  apply Forall_inv in Hrows. rewrite Hrows. reflexivity.
Qed.

Lemma rotatedCW_square (n : nat) (m : Shape) :
  isSquare n m -> isSquare n (rotatedCW n m).
Proof.
  intros [Hlen _]. unfold rotatedCW. split.
  - now rewrite !length_map, length_seq.
  - apply Forall_forall. intros row Hin.
    apply in_map_iff in Hin. destruct Hin as (col & <- & Hin).
    apply in_map_iff in Hin. destruct Hin as (index & <- & _).
    now rewrite length_rev, length_map.
Qed.

Lemma nth_nil_Z (i : nat) : nth i (@nil Z) 0 = 0.
Proof. destruct i; reflexivity. Qed.

(** Entry [(i, j)] of the turned matrix is entry [(n - 1 - j, i)] of the
    original. *)
Lemma rotatedCW_entry (n : nat) (m : Shape) (i j : nat) :
  isSquare n m -> (i < n)%nat -> (j < n)%nat ->
  entry (rotatedCW n m) i j = entry m (n - 1 - j) i.
Proof.
  intros [Hlen Hrows] Hi Hj. unfold entry, rotatedCW.
  change (@nil Z) with (rev (@nil Z)) at 1. rewrite map_nth.
  set (col := fun index => map (fun row : list Z => nth index row 0) m).
  assert (Hcol : nth i (map col (seq 0 n)) [] = col i).
  { rewrite (nth_indep _ [] (col 0%nat)) by now rewrite length_map, length_seq.
    rewrite map_nth, seq_nth by exact Hi. reflexivity. }
  rewrite Hcol. unfold col.
  rewrite rev_nth by (rewrite length_map; lia).
  rewrite length_map, Hlen.
  replace (n - S j)%nat with (n - 1 - j)%nat by lia.
  rewrite <- (nth_nil_Z i) at 1.
  exact (map_nth (fun row : list Z => nth i row 0) m [] (n - 1 - j)).
Qed.

Lemma square_ext (n : nat) (a b : Shape) :
  isSquare n a -> isSquare n b ->
  (forall i j, (i < n)%nat -> (j < n)%nat -> entry a i j = entry b i j) ->
  a = b.
Proof.
  intros [Ha Hra] [Hb Hrb] Hentry.
  apply (nth_ext a b [] []); [congruence|].
  intros i Hi. rewrite Ha in Hi.
  assert (Hla : length (nth i a []) = n).
  { rewrite Forall_forall in Hra. apply Hra, nth_In. lia. }
  assert (Hlb : length (nth i b []) = n).
  { rewrite Forall_forall in Hrb. apply Hrb, nth_In. lia. }
  apply (nth_ext _ _ 0 0); [congruence|].
  intros j Hj. rewrite Hla in Hj. exact (Hentry i j Hi Hj).
Qed.

(** C8.  For every square shape matrix (of side at least 1, so that it has a
    row 0 to transpose), applying the clockwise transform of [rotate]
    (transpose, then reverse each row) four times in succession returns, and
    returns a matrix equal to the original. *)
Theorem rotateShape_four_times (n : nat) (m : Shape) :
  isSquare n m -> (0 < n)%nat ->
  (let* a := rotateShape true m in
   let* b := rotateShape true a in
   let* c := rotateShape true b in
   rotateShape true c) = Ok m.
Proof.
  intros Hsq Hn.
  pose proof (rotatedCW_square _ _ Hsq) as H1.
  pose proof (rotatedCW_square _ _ H1) as H2.
  pose proof (rotatedCW_square _ _ H2) as H3.
  pose proof (rotatedCW_square _ _ H3) as H4.
  rewrite (rotateShape_square _ _ Hsq Hn). cbn [bind].
  rewrite (rotateShape_square _ _ H1 Hn). cbn [bind].
  rewrite (rotateShape_square _ _ H2 Hn). cbn [bind].
  rewrite (rotateShape_square _ _ H3 Hn). f_equal.
  apply (square_ext _ _ _ H4 Hsq). intros i j Hi Hj.
  rewrite (rotatedCW_entry _ _ _ _ H3) by lia.
  rewrite (rotatedCW_entry _ _ _ _ H2) by lia.
  rewrite (rotatedCW_entry _ _ _ _ H1) by lia.
  rewrite (rotatedCW_entry _ _ _ _ Hsq) by lia.
  f_equal; lia.
Qed.

(** The T piece of the catalog, turned four times. *)
Lemma rotateShape_four_times_witness :
  isSquare 3 (def_shape (TETROMINOES KT)) /\ (0 < 3)%nat /\
  (let* a := rotateShape true (def_shape (TETROMINOES KT)) in
   let* b := rotateShape true a in
   let* c := rotateShape true b in
   rotateShape true c) = Ok (def_shape (TETROMINOES KT)).
Proof.
  assert (Hsq : isSquare 3 (def_shape (TETROMINOES KT))).
  { split; [reflexivity|]. repeat constructor. }
  assert (Hn : (0 < 3)%nat) by lia.
  split; [exact Hsq|]. split; [exact Hn|].
  exact (rotateShape_four_times _ _ Hsq Hn).
Defined.

(** A matrix without rows has no row 0: the transform raises. *)
Lemma rotateShape_no_rows (clockwise : bool) : rotateShape clockwise [] = Throw.
Proof. reflexivity. Qed.

(** ** [lockPiece]: how a call unfolds *)

Lemma bind_Ok {A B : Type} (r : Result A) (k : A -> Result B) (b : B) :
  bind r k = Ok b -> exists a, r = Ok a /\ k a = Ok b.
Proof. destruct r; simpl; intros H; try discriminate. eauto. Qed.

Lemma filter_split_length {A : Type} (f : A -> bool) (l : list A) :
  (length (filter f l) + length (filter (fun a => negb (f a)) l) = length l)%nat.
Proof.
  induction l as [|a l IH]; simpl; [reflexivity|].
  destruct (f a); simpl; lia.
Qed.

Lemma keptRows_length (newGrid : Grid) :
  Z.of_nat (length (keptRows newGrid)) = Z.of_nat (length newGrid) - clearedLinesCount newGrid.
Proof.
  unfold keptRows, clearedLinesCount.
  pose proof (filter_split_length rowFull newGrid). lia.
Qed.

(** The refill loop on the rows kept from a grid of the configured size. *)
Lemma refill_configured (cfg : Config) (newGrid : Grid) :
  configured cfg newGrid ->
  refill cfg (keptRows newGrid)
  = Ok (repeat (emptyRow cfg) (Z.to_nat (clearedLinesCount newGrid)) ++ keptRows newGrid).
Proof.
  intros [[Hlen _] [Hw Hh]]. unfold refill.
  rewrite keptRows_length, Hlen, Z2Nat.id by lia.
  replace (height cfg - (height cfg - clearedLinesCount newGrid))
    with (clearedLinesCount newGrid) by lia.
  destruct (clearedLinesCount newGrid <=? 0) eqn:Hk.
  - apply Z.leb_le in Hk.
    replace (Z.to_nat (clearedLinesCount newGrid)) with 0%nat by lia.
    reflexivity.
  - destruct (width cfg <? 0) eqn:Hneg; [apply Z.ltb_lt in Hneg; lia|].
    reflexivity.
Qed.

Lemma refilled_dims (cfg : Config) (newGrid : Grid) :
  configured cfg newGrid ->
  configured cfg
    (repeat (emptyRow cfg) (Z.to_nat (clearedLinesCount newGrid)) ++ keptRows newGrid).
Proof.
  intros [[Hlen Hrows] [Hw Hh]]. split; [split|split; assumption].
  - rewrite length_app, repeat_length.
    pose proof (keptRows_length newGrid) as Hk. rewrite Hlen in *.
    unfold clearedLinesCount in *. lia.
  - apply Forall_app. split.
    + apply Forall_forall. intros row Hin. apply repeat_spec in Hin. subst row.
      unfold emptyRow. apply repeat_length.
    + unfold keptRows. rewrite Forall_forall in *. intros row Hin.
      apply filter_In in Hin. apply Hrows, Hin.
Qed.

(** Every field of the state that a returning [lockPiece] produces. *)
Lemma lockPiece_inv (t : TetrominoType) (state s' : GameState) (cp : Tetromino) :
  currentPiece state = Some cp ->
  lockPiece t state = Ok s' ->
  exists newGrid filteredGrid hit,
    stampPiece cp (grid state) = Ok newGrid /\
    refill (config state) (keptRows newGrid) = Ok filteredGrid /\
    checkCollision (spawned state) filteredGrid 0 0 None = Ok hit /\
    grid s' = filteredGrid /\
    score s' = score state +
               (if clearedLinesCount newGrid >? 0
                then SCORING (clearedLinesCount newGrid) * level state else 0) /\
    isFrozen s' = false /\ config s' = config state /\
    heldPiece s' = heldPiece state /\
    (hit = true ->
     status s' = GAME_OVER /\ currentPiece s' = None /\
     lines s' = lines state /\ level s' = level state /\
     canHold s' = canHold state /\ nextPiece s' = nextPiece state) /\
    (hit = false ->
     status s' = status state /\ currentPiece s' = Some (spawned state) /\
     lines s' = lines state + clearedLinesCount newGrid /\
     level s' = (lines state + clearedLinesCount newGrid) / 10 + 1 /\
     canHold s' = true /\
     nextPiece s' = getRandomPiece t (width (config state))).
Proof.
  intros Hcp Hlock. unfold lockPiece in Hlock. rewrite Hcp in Hlock.
  apply bind_Ok in Hlock. destruct Hlock as (newGrid & Hstamp & Hlock).
  apply bind_Ok in Hlock. destruct Hlock as (filteredGrid & Hrefill & Hlock).
  apply bind_Ok in Hlock. destruct Hlock as (hit & Hhit & Hlock).
  exists newGrid, filteredGrid, hit.
  destruct hit; injection Hlock as <-; cbn;
    repeat (split; [first [assumption | reflexivity]|]);
    split; intros Hb; try discriminate; repeat split; reflexivity.
Qed.

(** [lockPiece] returns once the stamp has succeeded on a grid of the
    configured size. *)
Lemma lockPiece_returns (t : TetrominoType) (state : GameState) (cp : Tetromino)
    (newGrid : Grid) :
  currentPiece state = Some cp ->
  stampPiece cp (grid state) = Ok newGrid ->
  configured (config state) newGrid ->
  exists s', lockPiece t state = Ok s'.
Proof.
  intros Hcp Hstamp Hcfg. unfold lockPiece. rewrite Hcp, Hstamp. cbn [bind].
  rewrite (refill_configured _ _ Hcfg). cbn [bind].
  rewrite checkCollision_collides.
  - cbn [bind]. destruct (collides _ _ _ _ _); eauto.
  - pose proof (refilled_dims _ _ Hcfg) as [[Hlen _] [_ Hh]].
    intros Hnil. rewrite Hnil in Hlen. simpl in Hlen. lia.
Qed.

(** ** C4: clearing full rows *)

Lemma rowFull_emptyRow (cfg : Config) : 0 < width cfg -> rowFull (emptyRow cfg) = false.
Proof.
  intros Hw. unfold emptyRow.
  destruct (Z.to_nat (width cfg)) as [|n] eqn:Hn; [lia | reflexivity].
Qed.

(** C4.  When a lock has stamped the active piece into a grid of the
    configured size (a width of at least 0 and a height of at least 1), the
    lock returns, and the grid of the resulting state is the stamped grid with
    every full row (every cell [!== null]) filtered out, the rows that remain
    in their order at the bottom, and as many empty rows on top as rows were
    removed; it has the configured height and width again, and for a positive
    width none of its rows is full. *)
Theorem lockPiece_clears_full_rows (t : TetrominoType) (state : GameState)
    (cp : Tetromino) (newGrid : Grid) :
  currentPiece state = Some cp ->
  stampPiece cp (grid state) = Ok newGrid ->
  configured (config state) newGrid ->
  exists s',
    lockPiece t state = Ok s' /\
    grid s' = repeat (emptyRow (config state)) (length (filter rowFull newGrid))
              ++ filter (fun row => negb (rowFull row)) newGrid /\
    hasDims (Z.to_nat (width (config state))) (Z.to_nat (height (config state)))
            (grid s') /\
    (0 < width (config state) -> Forall (fun row => rowFull row = false) (grid s')).
Proof.
  intros Hcp Hstamp Hcfg.
  destruct (lockPiece_returns t state _ _ Hcp Hstamp Hcfg) as (s' & Hlock).
  exists s'. split; [exact Hlock|].
  destruct (lockPiece_inv t state _ _ Hcp Hlock)
    as (g1 & g2 & hit & Hs & Hr & _ & Hgrid & _).
  rewrite Hstamp in Hs. injection Hs as <-.
  rewrite (refill_configured _ _ Hcfg) in Hr. injection Hr as <-.
  unfold clearedLinesCount in Hgrid. rewrite Nat2Z.id in Hgrid.
  assert (Hdims : configured (config state) (grid s')).
  { rewrite Hgrid. pose proof (refilled_dims _ _ Hcfg) as H.
    unfold clearedLinesCount in H. now rewrite Nat2Z.id in H. }
  split; [exact Hgrid|]. split; [apply Hdims|].
  intros Hw. rewrite Hgrid. apply Forall_app. split.
  - apply Forall_forall. intros row Hin. apply repeat_spec in Hin. subst row.
    now apply rowFull_emptyRow.
  - apply Forall_forall. intros row Hin. apply filter_In in Hin.
    destruct Hin as [_ Hnf]. now apply negb_true_iff in Hnf.
Qed.

Lemma gapState_ready (lvl : Z) :
  currentPiece (gapState lvl)
  = Some (withPosition (getRandomPiece KO 10) {| x := 3; y := 18 |}) /\
  stampPiece (withPosition (getRandomPiece KO 10) {| x := 3; y := 18 |})
             (grid (gapState lvl)) = Ok gapStamped /\
  configured (config (gapState lvl)) gapStamped.
Proof.
  split; [reflexivity|]. split; [reflexivity|].
  split; [|vm_compute; split; [discriminate | reflexivity]].
  split; [reflexivity|]. repeat constructor.
Defined.

(** The gap filled by the O piece: the bottom row goes, the half-filled row
    above it becomes the bottom row, one empty row comes on top. *)
Lemma lockPiece_clears_full_rows_witness :
  (currentPiece (gapState 1)
   = Some (withPosition (getRandomPiece KO 10) {| x := 3; y := 18 |}) /\
   stampPiece (withPosition (getRandomPiece KO 10) {| x := 3; y := 18 |})
              (grid (gapState 1)) = Ok gapStamped /\
   configured (config (gapState 1)) gapStamped) /\
  exists s',
    lockPiece KS (gapState 1) = Ok s' /\
    grid s' = repeat (repeat CNull 10) 19
              ++ [[CNull; CNull; CNull; CTag (def_color (TETROMINOES KO));
                   CTag (def_color (TETROMINOES KO));
                   CNull; CNull; CNull; CNull; CNull]].
Proof.
  split; [exact (gapState_ready 1)|].
  destruct (gapState_ready 1) as (Hcp & Hstamp & Hcfg).
  destruct (lockPiece_clears_full_rows KS (gapState 1) _ _ Hcp Hstamp Hcfg) as (s' & Hlock & Hgrid & _).
  exists s'. split; [exact Hlock|]. rewrite Hgrid. reflexivity.
Defined.

(** ** C5: the score of a lock *)

(** C5.  A lock that clears [k] rows in its resolution (of a stamped grid of
    the configured size) returns a state whose score is the previous score
    plus the table value of [k] (0 for no row, 100, 300, 500, 800 for one to
    four rows) times the level of the state that was locked, the level before
    the new one is computed; so one row at level 1 adds 100, four rows at
    level 1 add 800 and two rows at level 3 add 900. *)
Theorem lockPiece_score (t : TetrominoType) (state : GameState)
    (cp : Tetromino) (newGrid : Grid) :
  currentPiece state = Some cp ->
  stampPiece cp (grid state) = Ok newGrid ->
  configured (config state) newGrid ->
  exists s',
    lockPiece t state = Ok s' /\
    let k := clearedLinesCount newGrid in
    (k = 0 -> score s' = score state) /\
    (k = 1 -> score s' = score state + 100 * level state) /\
    (k = 2 -> score s' = score state + 300 * level state) /\
    (k = 3 -> score s' = score state + 500 * level state) /\
    (k = 4 -> score s' = score state + 800 * level state) /\
    (k = 1 -> level state = 1 -> score s' = score state + 100) /\
    (k = 4 -> level state = 1 -> score s' = score state + 800) /\
    (k = 2 -> level state = 3 -> score s' = score state + 900).
Proof.
  intros Hcp Hstamp Hcfg.
  destruct (lockPiece_returns t state _ _ Hcp Hstamp Hcfg) as (s' & Hlock).
  exists s'. split; [exact Hlock|].
  destruct (lockPiece_inv t state _ _ Hcp Hlock)
    as (g1 & g2 & hit & Hs & _ & _ & _ & Hscore & _).
  rewrite Hstamp in Hs. injection Hs as <-.
  cbv zeta. rewrite Hscore.
  repeat split; intros Hk; try intros Hl; rewrite Hk; try rewrite Hl;
    cbn [Z.gtb Z.compare Pos.compare Pos.compare_cont]; unfold SCORING; simpl; lia.
Qed.

(** The gap filled at level 3: one row cleared, 300 points. *)
Lemma lockPiece_score_witness :
  (currentPiece (gapState 3)
   = Some (withPosition (getRandomPiece KO 10) {| x := 3; y := 18 |}) /\
   stampPiece (withPosition (getRandomPiece KO 10) {| x := 3; y := 18 |})
              (grid (gapState 3)) = Ok gapStamped /\
   configured (config (gapState 3)) gapStamped) /\
  exists s', lockPiece KS (gapState 3) = Ok s' /\ score s' = 300.
Proof.
  split; [exact (gapState_ready 3)|].
  destruct (gapState_ready 3) as (Hcp & Hstamp & Hcfg).
  destruct (lockPiece_score KS (gapState 3) _ _ Hcp Hstamp Hcfg) as (s' & Hlock & _ & H1 & _).
  exists s'. split; [exact Hlock|]. now rewrite H1.
Defined.

(** ** Sessions: what one intent can do *)

Lemma withCurrentPiece_same (s : GameState) : withCurrentPiece s (currentPiece s) = s.
Proof. destruct s; reflexivity. Qed.

Lemma run_reachable (intents : list Intent) :
  forall s s', reachable s -> run intents s = Ok s' -> reachable s'.
Proof.
  induction intents as [|i rest IH]; simpl; intros s s' Hs Hrun.
  - injection Hrun as <-. exact Hs.
  - apply bind_Ok in Hrun. destruct Hrun as (s1 & Hstep & Hrun).
    apply (IH s1); [|exact Hrun]. exact (reachable_step i Hs Hstep).
Qed.

(** The five ways in which an intent changes the state. *)
Lemma dispatch_cases (i : Intent) (s s' : GameState) :
  dispatch i s = Ok s' ->
  (exists t1 t2, i = Start t1 t2 /\ s' = startGame t1 t2 s) \/
  (exists t, i = Hold t /\ s' = holdPiece t s) \/
  (i = ToggleFreeze /\ s' = toggleFreeze s) \/
  (~ intentLocks i s /\ exists c, s' = withCurrentPiece s c) \/
  (intentLocks i s /\
   exists t cp, lockPiece t (withCurrentPiece s (Some cp)) = Ok s').
Proof.
  destruct i as [t1 t2|t dx dy|fuel dx|cw|fuel t|t|]; simpl; intros H.
  - left. injection H as <-. eauto.
  - right; right; right. unfold move in H.
    destruct (currentPiece s) as [cp|] eqn:Hcp.
    2:{ left. injection H as <-. split.
        - intros (cp & Hc & _). congruence.
        - exists None. rewrite <- Hcp. symmetry. apply withCurrentPiece_same. }
    destruct (isPlaying s) eqn:Hplay; cbn [negb] in H.
    2:{ left. injection H as <-. split.
        - intros (cp' & _ & Hp & _). congruence.
        - exists (Some cp). rewrite <- Hcp. symmetry. apply withCurrentPiece_same. }
    destruct (isFrozen s && negb (dy =? 0)) eqn:Hfr.
    { left. injection H as <-. split.
      - intros (cp' & _ & _ & Hf & _). congruence.
      - exists (Some cp). rewrite <- Hcp. symmetry. apply withCurrentPiece_same. }
    apply bind_Ok in H. destruct H as (hit & Hhit & H).
    destruct hit; cbn [negb] in H.
    + destruct (dy >? 0) eqn:Hdy.
      * right. split.
        -- exists cp. repeat split; auto. apply Z.gtb_lt in Hdy. lia.
        -- exists t, cp. rewrite <- Hcp, withCurrentPiece_same. exact H.
      * left. injection H as <-. split.
        -- intros (cp' & _ & _ & _ & _ & Hgt).
           assert ((dy >? 0) = true) by (apply Z.gtb_lt; lia). congruence.
        -- exists (Some cp). rewrite <- Hcp. symmetry. apply withCurrentPiece_same.
    + left. injection H as <-. split.
      * intros (cp' & Hc & _ & _ & Hcol & _). congruence.
      * eauto.
  - right; right; right; left. split; [intros []|]. unfold moveToEnd in H.
    destruct (currentPiece s) as [cp|] eqn:Hcp.
    2:{ injection H as <-. exists None. rewrite <- Hcp. symmetry.
        apply withCurrentPiece_same. }
    destruct (negb (isPlaying s) || isFrozen s).
    { injection H as <-. exists (Some cp). rewrite <- Hcp. symmetry.
      apply withCurrentPiece_same. }
    apply bind_Ok in H. destruct H as (d & _ & H). injection H as <-. eauto.
  - right; right; right; left. split; [intros []|]. unfold rotate in H.
    destruct (currentPiece s) as [cp|] eqn:Hcp.
    2:{ injection H as <-. exists None. rewrite <- Hcp. symmetry.
        apply withCurrentPiece_same. }
    destruct (negb (isPlaying s) || isFrozen s).
    { injection H as <-. exists (Some cp). rewrite <- Hcp. symmetry.
      apply withCurrentPiece_same. }
    apply bind_Ok in H. destruct H as (newShape & _ & H).
    apply bind_Ok in H. destruct H as (hit & _ & H).
    destruct hit; cbn [negb] in H; injection H as <-; [|eauto].
    exists (Some cp). rewrite <- Hcp. symmetry. apply withCurrentPiece_same.
  - right; right; right. unfold hardDrop in H.
    destruct (currentPiece s) as [cp|] eqn:Hcp.
    2:{ left. injection H as <-. split.
        - intros [Hc _]. congruence.
        - exists None. rewrite <- Hcp. symmetry. apply withCurrentPiece_same. }
    destruct (isPlaying s) eqn:Hplay; cbn [negb] in H.
    2:{ left. injection H as <-. split.
        - intros [_ Hp]. congruence.
        - exists (Some cp). rewrite <- Hcp. symmetry. apply withCurrentPiece_same. }
    apply bind_Ok in H. destruct H as (d & _ & H).
    right. split; [split; congruence|]. eauto.
  - right; left. injection H as <-. eauto.
  - right; right; left. injection H as <-. auto.
Qed.

Lemma holdPiece_counters (t : TetrominoType) (s : GameState) :
  score (holdPiece t s) = score s /\ lines (holdPiece t s) = lines s /\
  level (holdPiece t s) = level s /\ grid (holdPiece t s) = grid s /\
  status (holdPiece t s) = status s /\ config (holdPiece t s) = config s /\
  isFrozen (holdPiece t s) = isFrozen s.
Proof.
  unfold holdPiece. destruct (currentPiece s); [|repeat split].
  destruct (negb (canHold s) || negb (isPlaying s)); [repeat split|].
  destruct (heldPiece s); repeat split.
Qed.

Lemma toggleFreeze_counters (s : GameState) :
  score (toggleFreeze s) = score s /\ lines (toggleFreeze s) = lines s /\
  level (toggleFreeze s) = level s /\ grid (toggleFreeze s) = grid s /\
  status (toggleFreeze s) = status s /\ config (toggleFreeze s) = config s /\
  canHold (toggleFreeze s) = canHold s /\
  currentPiece (toggleFreeze s) = currentPiece s.
Proof. unfold toggleFreeze. destruct (negb (isPlaying s)); repeat split. Qed.

(** ** The level is a function of the lines counter *)

Lemma lockPiece_level (t : TetrominoType) (s s' : GameState) :
  level s = lines s / 10 + 1 -> lockPiece t s = Ok s' ->
  level s' = lines s' / 10 + 1.
Proof.
  intros Hinv Hlock. destruct (currentPiece s) as [cp|] eqn:Hcp.
  - destruct (lockPiece_inv t s _ _ Hcp Hlock)
      as (g1 & g2 & hit & _ & _ & _ & _ & _ & _ & _ & _ & Hover & Hon).
    destruct hit.
    + destruct (Hover eq_refl) as (_ & _ & Hl & Hv & _). congruence.
    + destruct (Hon eq_refl) as (_ & _ & Hl & Hv & _). congruence.
  - unfold lockPiece in Hlock. rewrite Hcp in Hlock. injection Hlock as <-. exact Hinv.
Qed.

Lemma dispatch_level (i : Intent) (s s' : GameState) :
  level s = lines s / 10 + 1 -> dispatch i s = Ok s' ->
  level s' = lines s' / 10 + 1.
Proof.
  intros Hinv Hstep.
  destruct (dispatch_cases i s _ Hstep)
    as [(t1 & t2 & _ & ->)|[(t & _ & ->)|[(_ & ->)|[(_ & c & ->)|(_ & t & cp & Hlock)]]]].
  - reflexivity.
  - destruct (holdPiece_counters t s) as (_ & -> & -> & _). exact Hinv.
  - destruct (toggleFreeze_counters s) as (_ & -> & -> & _). exact Hinv.
  - exact Hinv.
  - exact (lockPiece_level t (withCurrentPiece s (Some cp)) _ Hinv Hlock).
Qed.

(** X28.  In every state of a session the level is the lines counter of the
    state divided by 10, rounded down, plus 1: with 10 lines the level is 2
    and with 23 it is 3.  A lock applied to such a state returns a state in
    which this holds again, whether it installs the next piece or ends the
    game.  The lines counter is not the number of rows cleared in the
    session: the lock that ends the game leaves its rows out (C3, C6). *)
Theorem level_from_lines (s : GameState) :
  reachable s ->
  level s = lines s / 10 + 1 /\
  (lines s = 10 -> level s = 2) /\
  (lines s = 23 -> level s = 3) /\
  (forall t s', lockPiece t s = Ok s' -> level s' = lines s' / 10 + 1).
Proof.
  intros Hreach.
  assert (Hinv : level s = lines s / 10 + 1).
  { induction Hreach as [|i s s' _ IH Hstep]; [reflexivity|].
    exact (dispatch_level i s _ IH Hstep). }
  split; [exact Hinv|]. split; [|split].
  - intros H. rewrite Hinv, H. reflexivity.
  - intros H. rewrite Hinv, H. reflexivity.
  - intros t s' Hlock. exact (lockPiece_level t s _ Hinv Hlock).
Qed.

Lemma towerState_run : run towerIntents initialState = Ok towerState.
Proof. vm_compute. reflexivity. Qed.

Lemma restingState_run : run restingIntents towerState = Ok restingState.
Proof. vm_compute. reflexivity. Qed.

Lemma towerState_reachable : reachable towerState.
Proof. exact (run_reachable towerIntents _ _ reachable_initial towerState_run). Defined.

Lemma restingState_reachable : reachable restingState.
Proof. exact (run_reachable restingIntents _ _ towerState_reachable restingState_run). Defined.

Lemma clearedState_run : run clearIntents initialState = Ok clearedState.
Proof. vm_compute. reflexivity. Qed.

Lemma clearedState_reachable : reachable clearedState.
Proof. exact (run_reachable clearIntents _ _ reachable_initial clearedState_run). Defined.

(** The session [clearIntents] has cleared one row: 100 points, one line,
    level 1, and the T piece is active. *)
Lemma clearedState_counters :
  status clearedState = PLAYING /\ score clearedState = 100 /\
  lines clearedState = 1 /\ level clearedState = 1 /\
  currentPiece clearedState = Some (getRandomPiece KT 10).
Proof. vm_compute. splits; reflexivity. Qed.

(** The session that has cleared one row: one line, level 1. *)
Lemma level_from_lines_witness :
  reachable clearedState /\ level clearedState = lines clearedState / 10 + 1.
Proof.
  split; [exact clearedState_reachable|].
  exact (proj1 (level_from_lines clearedState clearedState_reachable)).
Defined.

(** ** C9: one hold per piece *)

Lemma holdPiece_refused (t : TetrominoType) (s : GameState) :
  canHold s = false -> holdPiece t s = s.
Proof.
  intros H. unfold holdPiece. rewrite H. cbn [negb orb].
  destruct (currentPiece s); reflexivity.
Qed.

Lemma holdPiece_accepted (t : TetrominoType) (s : GameState) (cp : Tetromino) :
  currentPiece s = Some cp -> status s = PLAYING -> canHold s = true ->
  canHold (holdPiece t s) = false.
Proof.
  intros Hcp Hst Hch. unfold holdPiece, isPlaying. rewrite Hcp, Hst, Hch.
  cbn [negb orb Status_eqb]. destruct (heldPiece s); reflexivity.
Qed.

(** Within a session, an intent turns [canHold] from [false] to [true]
    exactly when it locks and the lock installs the queued piece. *)
Lemma canHold_restored (i : Intent) (s s' : GameState) :
  dispatch i s = Ok s' -> (forall t1 t2, i <> Start t1 t2) ->
  canHold s = false ->
  (canHold s' = true <-> intentLocks i s /\ currentPiece s' = Some (spawned s)).
Proof.
  intros Hstep Hnostart Hch.
  destruct (dispatch_cases i s _ Hstep)
    as [(t1 & t2 & Hi & _)|[(t & Hi & ->)|[(Hi & ->)|[(Hno & c & ->)|(Hyes & t & cp & Hlock)]]]].
  - exfalso. exact (Hnostart t1 t2 Hi).
  - rewrite (holdPiece_refused t s Hch), Hch. subst i.
    split; [discriminate | intros [[] _]].
  - destruct (toggleFreeze_counters s) as (_ & _ & _ & _ & _ & _ & -> & _).
    rewrite Hch. subst i. split; [discriminate | intros [[] _]].
  - cbn [canHold withCurrentPiece]. rewrite Hch.
    split; [discriminate | intros [H _]; contradiction].
  - destruct (lockPiece_inv t (withCurrentPiece s (Some cp)) _ _ eq_refl Hlock)
      as (g1 & g2 & hit & _ & _ & _ & _ & _ & _ & _ & _ & Hover & Hon).
    destruct hit.
    + destruct (Hover eq_refl) as (_ & Hnone & _ & _ & Hsame & _).
      rewrite Hsame, Hnone. cbn [canHold withCurrentPiece]. rewrite Hch.
      split; [discriminate | intros [_ H]; discriminate].
    + destruct (Hon eq_refl) as (_ & Hsome & _ & _ & Htrue & _).
      rewrite Htrue, Hsome. split; [|reflexivity].
      intros _. split; [exact Hyes | reflexivity].
Qed.

Lemma quietRun_canHold (s s1 : GameState) :
  quietRun s s1 -> canHold s = false -> canHold s1 = false.
Proof.
  intros Hq Hch. induction Hq as [s|i s s' s'' _ IH Hstep Hno Hnostart].
  - exact Hch.
  - specialize (IH Hch).
    destruct (canHold s'') eqn:Hc; [|reflexivity].
    apply (canHold_restored i s' s'' Hstep Hnostart IH) in Hc.
    destruct Hc as [Hl _]. contradiction.
Qed.

(** C9.  In a playing state with an active piece and [canHold] set, a hold
    clears [canHold]; after any stretch of the session without a lock, a
    further hold returns the state unchanged; and an intent of the session
    sets [canHold] again exactly when it locks and the lock installs the
    queued piece as the active piece. *)
Theorem hold_once_per_piece (t : TetrominoType) (s : GameState) (cp : Tetromino) :
  currentPiece s = Some cp -> status s = PLAYING -> canHold s = true ->
  canHold (holdPiece t s) = false /\
  (forall s1 t', quietRun (holdPiece t s) s1 -> holdPiece t' s1 = s1) /\
  (forall s1 i s2,
     quietRun (holdPiece t s) s1 -> dispatch i s1 = Ok s2 ->
     (forall t1 t2, i <> Start t1 t2) ->
     (canHold s2 = true <->
      intentLocks i s1 /\ currentPiece s2 = Some (spawned s1))).
Proof.
  intros Hcp Hst Hch.
  pose proof (holdPiece_accepted t s cp Hcp Hst Hch) as Hheld.
  split; [exact Hheld|]. split.
  - intros s1 t' Hq. apply holdPiece_refused. exact (quietRun_canHold _ _ Hq Hheld).
  - intros s1 i s2 Hq Hstep Hnostart.
    exact (canHold_restored i s1 s2 Hstep Hnostart (quietRun_canHold _ _ Hq Hheld)).
Qed.

(** The O piece of [towerState] is held; a second hold changes nothing. *)
Lemma hold_once_per_piece_witness :
  (currentPiece towerState
   = Some (withPosition (getRandomPiece KO 10) {| x := 3; y := 0 |}) /\
   status towerState = PLAYING /\ canHold towerState = true) /\
  canHold (holdPiece KT towerState) = false /\
  holdPiece KS (holdPiece KT towerState) = holdPiece KT towerState.
Proof.
  assert (Hcp : currentPiece towerState
                = Some (withPosition (getRandomPiece KO 10) {| x := 3; y := 0 |}))
    by (vm_compute; reflexivity).
  assert (Hst : status towerState = PLAYING) by (vm_compute; reflexivity).
  assert (Hch : canHold towerState = true) by (vm_compute; reflexivity).
  split; [auto|].
  destruct (hold_once_per_piece KT towerState _ Hcp Hst Hch) as (H1 & H2 & _).
  split; [exact H1|]. apply H2. apply quiet_refl.
Defined.

(** ** C3: the lock that ends the game *)

(** What the game-over branch of [lockPiece] returns: the score of the
    resolution is folded in, the lines counter is the one of the locked
    state. *)
Lemma lockPiece_game_over (t : TetrominoType) (s s' : GameState) (cp : Tetromino) :
  currentPiece s = Some cp -> lockPiece t s = Ok s' ->
  checkCollision (spawned s) (grid s') 0 0 None = Ok true ->
  exists newGrid,
    stampPiece cp (grid s) = Ok newGrid /\
    status s' = GAME_OVER /\ currentPiece s' = None /\
    score s' = score s + (if clearedLinesCount newGrid >? 0
                          then SCORING (clearedLinesCount newGrid) * level s else 0) /\
    lines s' = lines s /\ level s' = level s.
Proof.
  intros Hcp Hlock Hhit.
  destruct (lockPiece_inv t s s' cp Hcp Hlock)
    as (g1 & g2 & hit & Hs & _ & Hc & Hg & Hscore & _ & _ & _ & Hover & _).
  rewrite Hg, Hc in Hhit. injection Hhit as ->.
  destruct (Hover eq_refl) as (H1 & H2 & H3 & H4 & _).
  exists g1. repeat split; assumption.
Qed.

(** C3.  The state [restingState] is a playing state of a session in which
    the gravity tick [move 0 1] locks the O piece; the lock completes the
    bottom row and clears it, and the queued I piece collides at its spawn
    position.  The returned state has status [GAME_OVER], no active piece and
    the 100 points of the cleared row, but its lines counter is still the one
    of the locked state: the cleared row is not counted. *)
Theorem lockPiece_game_over_keeps_lines :
  reachable restingState /\ status restingState = PLAYING /\
  exists cp newGrid s',
    currentPiece restingState = Some cp /\
    stampPiece cp (grid restingState) = Ok newGrid /\
    clearedLinesCount newGrid = 1 /\
    move KI 0 1 restingState = lockPiece KI restingState /\
    lockPiece KI restingState = Ok s' /\
    checkCollision (spawned restingState) (grid s') 0 0 None = Ok true /\
    status s' = GAME_OVER /\ currentPiece s' = None /\
    score s' = score restingState + 100 * level restingState /\
    lines s' = lines restingState /\
    lines s' <> lines restingState + clearedLinesCount newGrid.
Proof.
  split; [exact restingState_reachable|]. split; [vm_compute; reflexivity|].
  exists (withPosition (getRandomPiece KO 10) {| x := 4; y := 18 |}).
  exists (resultOr [] (stampPiece
            (withPosition (getRandomPiece KO 10) {| x := 4; y := 18 |})
            (grid restingState))).
  exists (resultOr initialState (lockPiece KI restingState)).
  splits; try (vm_compute; reflexivity).
  vm_compute. discriminate.
Qed.

(** ** C2: the placement of the active piece *)

(** C2.  The state that [holdPiece] returns on [towerState] is a state of a
    session in which the active piece, the queued I piece installed at the
    spawn position, is not legally placed: its occupied cell at row 1,
    column 6 is on a settled cell of the tower. *)
Theorem holdPiece_installs_overlapping_piece :
  reachable (holdPiece KT towerState) /\
  status (holdPiece KT towerState) = PLAYING /\
  exists p,
    currentPiece (holdPiece KT towerState) = Some p /\
    occupiedAt (shape p) 1 3 /\
    y (position p) + 1 = 1 /\ x (position p) + 3 = 6 /\
    truthyCell (cellAt (grid (holdPiece KT towerState)) 1 6) = true /\
    checkCollision p (grid (holdPiece KT towerState)) 0 0 None = Ok true /\
    ~ validPiece (grid (holdPiece KT towerState)) p.
Proof.
  split.
  { apply (reachable_step (Hold KT) towerState_reachable). reflexivity. }
  split; [vm_compute; reflexivity|].
  exists (withPosition (getRandomPiece KI 10) {| x := 3; y := 0 |}).
  assert (Hocc : occupiedAt
            (shape (withPosition (getRandomPiece KI 10) {| x := 3; y := 0 |})) 1 3).
  { exists [1; 1; 1; 1], 1. repeat split; try reflexivity. discriminate. }
  splits; try exact Hocc; try (vm_compute; reflexivity).
  intros Hvalid. destruct (Hvalid 1%nat 3%nat Hocc) as (_ & _ & Hfree).
  assert (Hrow : 0 <= y (position (withPosition (getRandomPiece KI 10)
                                     {| x := 3; y := 0 |})) + Z.of_nat 1)
    by (vm_compute; discriminate).
  specialize (Hfree Hrow). vm_compute in Hfree. discriminate.
Qed.

(** ** C7: the spawn position *)

(** The O piece generated for a field of width 10 is not at
    [floor(10/2) - floor(2/2) = 4]. *)
Lemma getRandomPiece_not_centred :
  x (position (getRandomPiece KO 10))
  <> 10 / 2 - shapeWidth (shape (getRandomPiece KO 10)) / 2.
Proof. vm_compute. discriminate. Qed.

(** C7.  Where [src/App.tsx] departs from the claimed spawn position.  For
    every field width and every kind, the generated piece has that kind, the
    shape and colour of the catalog entry of the kind, and the position
    [x = floor(width/2) - 2], [y = 0]; this is the claimed
    [floor(width/2) - floor(shapeWidth/2)] for the I kind and for no other
    kind.  The piece that a lock installs as active is the queued piece at
    [x = floor(config.width/2) - 2], [y = 0]; it has the catalog shape of its
    kind when the queued piece was generated.  (The [getRandomPiece] of the
    bundled revision computes the claimed column, see X21.) *)
Theorem getRandomPiece_spawn (w : Z) (t : TetrominoType) :
  type (getRandomPiece t w) = t /\
  shape (getRandomPiece t w) = def_shape (TETROMINOES t) /\
  color (getRandomPiece t w) = def_color (TETROMINOES t) /\
  position (getRandomPiece t w) = {| x := w / 2 - 2; y := 0 |} /\
  (x (position (getRandomPiece t w))
   = w / 2 - shapeWidth (shape (getRandomPiece t w)) / 2 <-> t = KI) /\
  (forall t' s s' cp q,
     nextPiece s = getRandomPiece t w ->
     currentPiece s = Some cp -> lockPiece t' s = Ok s' ->
     currentPiece s' = Some q ->
     type q = t /\ shape q = def_shape (TETROMINOES t) /\
     position q = {| x := width (config s) / 2 - 2; y := 0 |}).
Proof.
  repeat split.
  - destruct t; cbn; unfold shapeWidth; cbn; intros H; try reflexivity; lia.
  - intros ->. cbn. unfold shapeWidth. cbn. lia.
  - destruct (lockPiece_inv t' s s' cp H0 H1)
      as (g1 & g2 & hit & _ & _ & _ & _ & _ & _ & _ & _ & Hover & Hon).
    destruct hit.
    + destruct (Hover eq_refl) as (_ & Hnone & _). congruence.
    + destruct (Hon eq_refl) as (_ & Hsome & _).
      rewrite Hsome in H2. injection H2 as <-. unfold spawned. rewrite H. reflexivity.
  - destruct (lockPiece_inv t' s s' cp H0 H1)
      as (g1 & g2 & hit & _ & _ & _ & _ & _ & _ & _ & _ & Hover & Hon).
    destruct hit.
    + destruct (Hover eq_refl) as (_ & Hnone & _). congruence.
    + destruct (Hon eq_refl) as (_ & Hsome & _).
      rewrite Hsome in H2. injection H2 as <-. unfold spawned. rewrite H. reflexivity.
  - destruct (lockPiece_inv t' s s' cp H0 H1)
      as (g1 & g2 & hit & _ & _ & _ & _ & _ & _ & _ & _ & Hover & Hon).
    destruct hit.
    + destruct (Hover eq_refl) as (_ & Hnone & _). congruence.
    + destruct (Hon eq_refl) as (_ & Hsome & _).
      rewrite Hsome in H2. injection H2 as <-. reflexivity.
Qed.

(** The lock of [gapState] installs the queued T piece, generated for
    width 10, at column 3 of row 0. *)
Lemma getRandomPiece_spawn_witness :
  (nextPiece (gapState 1) = getRandomPiece KT 10 /\
   currentPiece (gapState 1)
   = Some (withPosition (getRandomPiece KO 10) {| x := 3; y := 18 |}) /\
   lockPiece KS (gapState 1)
   = Ok (resultOr initialState (lockPiece KS (gapState 1))) /\
   currentPiece (resultOr initialState (lockPiece KS (gapState 1)))
   = Some (spawned (gapState 1))) /\
  type (spawned (gapState 1)) = KT /\
  shape (spawned (gapState 1)) = def_shape (TETROMINOES KT) /\
  position (spawned (gapState 1)) = {| x := 3; y := 0 |}.
Proof.
  assert (Hnext : nextPiece (gapState 1) = getRandomPiece KT 10) by reflexivity.
  assert (Hcp : currentPiece (gapState 1)
                = Some (withPosition (getRandomPiece KO 10) {| x := 3; y := 18 |}))
    by reflexivity.
  assert (Hlock : lockPiece KS (gapState 1)
                  = Ok (resultOr initialState (lockPiece KS (gapState 1))))
    by (vm_compute; reflexivity).
  assert (Hq : currentPiece (resultOr initialState (lockPiece KS (gapState 1)))
               = Some (spawned (gapState 1)))
    by (vm_compute; reflexivity).
  split; [splits; assumption|].
  destruct (getRandomPiece_spawn 10 KT) as (_ & _ & _ & _ & _ & Hinstalled).
  exact (Hinstalled KS (gapState 1) _ _ _ Hnext Hcp Hlock Hq).
Defined.

(** The colours of the catalog are truthy strings: a cell that a lock has
    written is both [!== null] and truthy. *)
Lemma catalog_color_truthy (t : TetrominoType) :
  truthyCell (CTag (def_color (TETROMINOES t))) = true /\
  notNull (CTag (def_color (TETROMINOES t))) = true.
Proof. destruct t; split; reflexivity. Qed.

(** ** Stamping a piece that is inside the field *)

Lemma replace_length {A : Type} (l : list A) (a : A) :
  forall i, (i < length l)%nat ->
            length (firstn i l ++ a :: skipn (S i) l) = length l.
Proof.
  induction l as [|b l IH]; simpl; intros i Hi; [lia|].
  destruct i as [|i]; simpl; [reflexivity|].
  f_equal. apply IH. lia.
Qed.

Lemma replace_Forall {A : Type} (P : A -> Prop) (l : list A) (a : A) :
  Forall P l -> P a -> forall i, Forall P (firstn i l ++ a :: skipn (S i) l).
Proof.
  intros Hl Ha. induction Hl as [|b l Hb Hl IH]; intros i.
  - destruct i; simpl; constructor; auto.
  - destruct i as [|i]; simpl; constructor; auto.
Qed.

Lemma writeCell_dims (w h : nat) (g : Grid) (gridY gridX : Z) (c : Cell) :
  hasDims w h g -> 0 <= gridY < Z.of_nat h -> 0 <= gridX < Z.of_nat w ->
  exists g', writeCell g gridY gridX c = Ok g' /\ hasDims w h g'.
Proof.
  intros [Hlen Hrows] Hy Hx. unfold writeCell.
  destruct (nth_error g (Z.to_nat gridY)) as [row|] eqn:Hrow.
  2:{ apply nth_error_None in Hrow. lia. }
  eexists. split; [reflexivity|].
  assert (Hw : length row = w).
  { rewrite Forall_forall in Hrows. apply Hrows.
    exact (nth_error_In _ _ Hrow). }
  split.
  - rewrite replace_length; [exact Hlen | lia].
  - apply replace_Forall; [exact Hrows|].
    unfold setCell. destruct (gridX <? 0) eqn:Hneg; [apply Z.ltb_lt in Hneg; lia|].
    destruct (Z.to_nat gridX <? length row)%nat eqn:Hin.
    + apply Nat.ltb_lt in Hin. now rewrite replace_length.
    + apply Nat.ltb_ge in Hin. lia.
Qed.

(** A [forEachM] loop whose body keeps an invariant on the elements it
    meets returns, and keeps the invariant. *)
Lemma forEachM_invariant {A St : Type} (P : St -> Prop)
    (body : nat -> A -> St -> Result St) (l : list A) :
  forall i0 s,
    P s ->
    (forall k a s1, nth_error l k = Some a -> P s1 ->
                    exists s2, body (i0 + k)%nat a s1 = Ok s2 /\ P s2) ->
    exists s', forEachM body i0 l s = Ok s' /\ P s'.
Proof.
  induction l as [|a rest IH]; intros i0 s Hs Hbody; simpl.
  - eauto.
  - destruct (Hbody 0%nat a s eq_refl Hs) as (s1 & Hs1 & HP1).
    rewrite Nat.add_0_r in Hs1. rewrite Hs1. cbn [bind].
    apply IH; [exact HP1|].
    intros k b s2 Hk HP2. rewrite Nat.add_succ_comm. exact (Hbody (S k) b s2 Hk HP2).
Qed.

Lemma stampPiece_dims (w h : nat) (cp : Tetromino) (g : Grid) :
  hasDims w h g ->
  (forall iy ix, occupiedAt (shape cp) iy ix ->
     y (position cp) + Z.of_nat iy < 0 \/
     (y (position cp) + Z.of_nat iy < Z.of_nat h /\
      0 <= x (position cp) + Z.of_nat ix < Z.of_nat w)) ->
  exists newGrid, stampPiece cp g = Ok newGrid /\ hasDims w h newGrid.
Proof.
  intros Hg Hin. unfold stampPiece.
  apply forEachM_invariant; [exact Hg|].
  intros iy row g1 Hrow Hg1. cbn [Nat.add].
  apply forEachM_invariant; [exact Hg1|].
  intros ix v g2 Hv Hg2. cbn [Nat.add]. unfold stampCell.
  destruct (truthyNum v) eqn:Htr; [|eauto].
  destruct (_ >=? 0) eqn:Hge; [|eauto].
  apply Z.geb_le in Hge.
  assert (Hocc : occupiedAt (shape cp) iy ix).
  { exists row, v. repeat split; auto.
    unfold truthyNum in Htr. now apply negb_true_iff, Z.eqb_neq in Htr. }
  destruct (Hin iy ix Hocc) as [Hneg|[Hy Hx]]; [lia|].
  apply writeCell_dims; [exact Hg2 | lia | exact Hx].
Qed.

Lemma configured_width (cfg : Config) (g : Grid) :
  configured cfg g -> gridWidth g = width cfg /\ gridHeight g = height cfg /\ g <> [].
Proof.
  intros [[Hlen Hrows] [Hw Hh]]. unfold gridWidth, gridHeight.
  destruct g as [|row0 rest]; simpl in *; [lia|].
  apply Forall_inv in Hrows. rewrite Hrows. repeat split; try lia. discriminate.
Qed.

(** ** The drop loop *)

Lemma collides_below_floor (cp : Tetromino) (g : Grid) (moveX moveY : Z)
    (iy ix : nat) :
  occupiedAt (shape cp) iy ix ->
  gridHeight g <= y (position cp) + Z.of_nat iy + moveY ->
  collides cp g moveX moveY (shape cp) = true.
Proof.
  intros Hocc Hfloor. apply collides_true_iff. exists iy, ix.
  split; [exact Hocc|]. right; right; left. unfold landY. lia.
Qed.

(** If the piece collides [n + 1] rows below the offset [dropY], the loop
    started at [dropY] stops within [n + 1] iterations, at the last offset
    before the first colliding one. *)
Lemma dropLoop_finds (cp : Tetromino) (g : Grid) :
  g <> [] ->
  forall (n : nat) (dropY : Z),
    collides cp g 0 (dropY + 1 + Z.of_nat n) (shape cp) = true ->
    exists d,
      dropY <= d <= dropY + Z.of_nat n /\
      (forall k, dropY < k <= d -> collides cp g 0 k (shape cp) = false) /\
      collides cp g 0 (d + 1) (shape cp) = true /\
      forall fuel, (n < fuel)%nat -> dropLoop fuel cp g dropY = Ok d.
Proof.
  intros Hg. induction n as [|n IH]; intros dropY Hhit.
  - exists dropY. rewrite Z.add_0_r in Hhit. splits; [lia | lia | | exact Hhit |].
    + intros k Hk. lia.
    + intros fuel Hfuel. destruct fuel as [|fuel]; [lia|]. simpl.
      rewrite checkCollision_collides by exact Hg. cbn [bind activeShape].
      now rewrite Hhit.
  - destruct (collides cp g 0 (dropY + 1) (shape cp)) eqn:Hnow.
    + exists dropY. splits; [lia | lia | | exact Hnow |].
      * intros k Hk. lia.
      * intros fuel Hfuel. destruct fuel as [|fuel]; [lia|]. simpl.
        rewrite checkCollision_collides by exact Hg. cbn [bind activeShape].
        now rewrite Hnow.
    + destruct (IH (dropY + 1)) as (d & Hd & Hfree & Hstop & Hrun).
      { rewrite <- Hhit. f_equal. lia. }
      exists d. splits; [lia | lia | | exact Hstop |].
      * intros k Hk. destruct (Z.eq_dec k (dropY + 1)) as [->|Hne];
          [exact Hnow | apply Hfree; lia].
      * intros fuel Hfuel. destruct fuel as [|fuel]; [lia|]. simpl.
        rewrite checkCollision_collides by exact Hg. cbn [bind activeShape].
        rewrite Hnow. apply Hrun. lia.
Qed.

Lemma collides_false_inField (cp : Tetromino) (g : Grid) (moveY : Z) :
  collides cp g 0 moveY (shape cp) = false ->
  forall iy ix, occupiedAt (shape cp) iy ix ->
    0 <= x (position cp) + Z.of_nat ix < gridWidth g /\
    y (position cp) + Z.of_nat iy + moveY < gridHeight g.
Proof.
  intros Hfree iy ix Hocc.
  assert (Hnot : ~ blocked g (landY cp moveY iy) (landX cp 0 ix)).
  { intros Hb. assert (collides cp g 0 moveY (shape cp) = true)
      by (apply collides_true_iff; eauto). congruence. }
  unfold blocked, landX, landY in Hnot. lia.
Qed.

(** ** C10: a hard drop in a frozen state *)

(** C10.  In a playing state with the frozen flag set, an active piece that
    has an occupied cell and lies inside a field of the configured size,
    [hardDrop] is not suppressed (the descent [move 0 1] is): there is a
    distance [d >= 0] such that the piece collides at no offset from 1 to [d]
    and collides at [d + 1]; with enough fuel for the probing loop,
    [hardDrop] returns what [lockPiece] returns on the state with the piece
    moved down by [d]; and that state has the frozen flag reset, whether the
    lock installs the next piece or ends the game. *)
Theorem hardDrop_while_frozen (t : TetrominoType) (s : GameState) (cp : Tetromino) :
  currentPiece s = Some cp -> status s = PLAYING -> isFrozen s = true ->
  configured (config s) (grid s) -> inField (grid s) cp ->
  (exists iy ix, occupiedAt (shape cp) iy ix) ->
  exists d s',
    0 <= d /\
    (forall k, 1 <= k <= d -> checkCollision cp (grid s) 0 k None = Ok false) /\
    checkCollision cp (grid s) 0 (d + 1) None = Ok true /\
    (forall fuel,
       (Z.to_nat (height (config s) - y (position cp)) < fuel)%nat ->
       hardDrop fuel t s = Ok s') /\
    lockPiece t (withCurrentPiece s (Some (droppedPiece cp d))) = Ok s' /\
    isFrozen s' = false /\
    move t 0 1 s = Ok s.
Proof.
  intros Hcp Hst Hfr Hcfg Hin (iy & ix & Hocc).
  destruct (configured_width _ _ Hcfg) as (Hw & Hh & Hg).
  set (n := Z.to_nat (gridHeight (grid s) - y (position cp) - Z.of_nat iy)).
  destruct (dropLoop_finds cp (grid s) Hg n 0) as (d & Hd & Hfree & Hstop & Hrun).
  { apply (collides_below_floor cp (grid s) 0 _ iy ix Hocc). unfold n. lia. }
  (* the relocated piece is inside the field, so the stamp succeeds *)
  assert (Hstamp : exists newGrid,
             stampPiece (droppedPiece cp d) (grid s) = Ok newGrid /\
             hasDims (Z.to_nat (width (config s))) (Z.to_nat (height (config s)))
                     newGrid).
  { apply stampPiece_dims; [apply Hcfg|].
    intros jy jx Hj. right. cbn [droppedPiece withPosition position shape x y] in *.
    destruct Hcfg as [_ [Hw0 Hh0]]. rewrite !Z2Nat.id by lia.
    rewrite <- Hw, <- Hh.
    destruct (Z.eq_dec d 0) as [->|Hpos].
    - destruct (Hin jy jx Hj). lia.
    - assert (Hd' : collides cp (grid s) 0 d (shape cp) = false) by (apply Hfree; lia).
      destruct (collides_false_inField cp (grid s) d Hd' jy jx Hj). lia. }
  destruct Hstamp as (newGrid & Hstamp & Hdims).
  assert (Hcfg' : configured (config s) newGrid).
  { split; [exact Hdims | apply Hcfg]. }
  destruct (lockPiece_returns t (withCurrentPiece s (Some (droppedPiece cp d)))
              (droppedPiece cp d) newGrid eq_refl Hstamp Hcfg') as (s' & Hlock).
  exists d, s'. splits.
  - lia.
  - intros k Hk. rewrite checkCollision_collides by exact Hg.
    cbn [activeShape]. f_equal. apply Hfree. lia.
  - rewrite checkCollision_collides by exact Hg. cbn [activeShape]. now f_equal.
  - intros fuel Hfuel. unfold hardDrop, isPlaying. rewrite Hcp, Hst.
    cbn [Status_eqb negb]. rewrite Hrun.
    + exact Hlock.
    + unfold n. rewrite Hh. lia.
  - exact Hlock.
  - destruct (lockPiece_inv t (withCurrentPiece s (Some (droppedPiece cp d))) s'
                (droppedPiece cp d) eq_refl Hlock)
      as (g1 & g2 & hit & _ & _ & _ & _ & _ & Hfrozen & _).
    exact Hfrozen.
  - unfold move, isPlaying. rewrite Hcp, Hst, Hfr. reflexivity.
Qed.

Lemma frozenStart_inField :
  inField (grid frozenStart)
          (withPosition (getRandomPiece KO 10) {| x := 3; y := 0 |}).
Proof.
  intros iy ix (row & v & Hrow & Hv & _).
  destruct iy as [|[|[|iy]]]; cbn in Hrow; try discriminate;
    injection Hrow as <-;
    (destruct ix as [|[|[|ix]]]; cbn in Hv; try discriminate);
    vm_compute; repeat split; discriminate.
Defined.

(** The O piece frozen at its spawn position on the empty field drops 18
    rows, locks, and the state that comes back is not frozen. *)
Lemma hardDrop_while_frozen_witness :
  (currentPiece frozenStart
   = Some (withPosition (getRandomPiece KO 10) {| x := 3; y := 0 |}) /\
   status frozenStart = PLAYING /\ isFrozen frozenStart = true /\
   configured (config frozenStart) (grid frozenStart) /\
   inField (grid frozenStart)
           (withPosition (getRandomPiece KO 10) {| x := 3; y := 0 |}) /\
   exists iy ix,
     occupiedAt (shape (withPosition (getRandomPiece KO 10) {| x := 3; y := 0 |}))
                iy ix) /\
  exists s', hardDrop 32 KS frozenStart = Ok s' /\ isFrozen s' = false.
Proof.
  assert (Hcp : currentPiece frozenStart
                = Some (withPosition (getRandomPiece KO 10) {| x := 3; y := 0 |}))
    by reflexivity.
  assert (Hst : status frozenStart = PLAYING) by reflexivity.
  assert (Hfr : isFrozen frozenStart = true) by reflexivity.
  assert (Hcfg : configured (config frozenStart) (grid frozenStart)).
  { split; [|vm_compute; split; [discriminate | reflexivity]].
    split; [reflexivity|]. vm_compute. repeat constructor. }
  assert (Hocc : exists iy ix,
             occupiedAt (shape (withPosition (getRandomPiece KO 10)
                                  {| x := 3; y := 0 |})) iy ix).
  { exists 0%nat, 0%nat, [1; 1], 1. splits; try reflexivity. discriminate. }
  split; [splits; assumption || exact frozenStart_inField|].
  destruct (hardDrop_while_frozen KS frozenStart _ Hcp Hst Hfr Hcfg
              frozenStart_inField Hocc)
    as (d & s' & _ & _ & _ & Hdrop & _ & Hunfrozen & _).
  exists s'. split; [|exact Hunfrozen].
  apply Hdrop. vm_compute. lia.
Defined.

(** ** Placement of the active piece in sessions without a hold

    [move], [moveToEnd], [rotate] and [lockPiece] install a piece only after
    [checkCollision] has returned [false] for it; [startGame] installs its
    piece on the empty grid. *)

(** A piece [q] for which [checkCollision] has returned [false] (as the
    piece [p] under an offset and an override shape) is legally placed. *)
Lemma checked_valid (p q : Tetromino) (g : Grid) (moveX moveY : Z)
    (newShape : option Shape) :
  g <> [] ->
  checkCollision p g moveX moveY newShape = Ok false ->
  shape q = activeShape p newShape ->
  x (position q) = x (position p) + moveX ->
  y (position q) = y (position p) + moveY ->
  validPiece g q.
Proof.
  intros Hg Hcheck Hshape Hx Hy iy ix Hocc.
  rewrite checkCollision_collides in Hcheck by exact Hg.
  injection Hcheck as Hfree. rewrite Hshape in Hocc.
  assert (Hnot : ~ blocked g (landY p moveY iy) (landX p moveX ix)).
  { intros Hb.
    assert (collides p g moveX moveY (activeShape p newShape) = true)
      by (apply collides_true_iff; eauto).
    congruence. }
  unfold blocked, landX, landY in Hnot. cbv zeta. rewrite Hx, Hy.
  splits; try lia.
  intros Hrow.
  destruct (truthyCell (cellAt g (y (position p) + moveY + Z.of_nat iy)
                               (x (position p) + moveX + Z.of_nat ix))) eqn:Hcell;
    [|reflexivity].
  exfalso. apply Hnot. right; right; right.
  replace (y (position p) + Z.of_nat iy + moveY)
    with (y (position p) + moveY + Z.of_nat iy) by lia.
  replace (x (position p) + Z.of_nat ix + moveX)
    with (x (position p) + moveX + Z.of_nat ix) by lia.
  split; [lia | exact Hcell].
Qed.

Lemma validPiece_inField (g : Grid) (p : Tetromino) : validPiece g p -> inField g p.
Proof. intros H iy ix Hocc. destruct (H iy ix Hocc) as (Hc & Hr & _). auto. Qed.

(** Validity looks at the shape and the position only. *)
Lemma validPiece_same (g : Grid) (p q : Tetromino) :
  shape q = shape p -> x (position q) = x (position p) ->
  y (position q) = y (position p) -> validPiece g p -> validPiece g q.
Proof.
  intros Hs Hx Hy Hp iy ix Hocc. rewrite Hs in Hocc. cbv zeta.
  rewrite Hx, Hy. exact (Hp iy ix Hocc).
Qed.

Lemma dropLoop_checked (cp : Tetromino) (g : Grid) :
  forall fuel d0 d, dropLoop fuel cp g d0 = Ok d ->
                    d = d0 \/ checkCollision cp g 0 d None = Ok false.
Proof.
  induction fuel as [|fuel IH]; simpl; intros d0 d H; [discriminate|].
  apply bind_Ok in H. destruct H as (hit & Hhit & H). destruct hit.
  - left. now injection H.
  - right. destruct (IH _ _ H) as [->|Hd]; assumption.
Qed.

Lemma slideLoop_checked (cp : Tetromino) (g : Grid) (dx : Z) :
  forall fuel f0 f, slideLoop fuel cp g dx f0 = Ok f ->
                    f = f0 \/ checkCollision cp g f 0 None = Ok false.
Proof.
  induction fuel as [|fuel IH]; simpl; intros f0 f H; [discriminate|].
  apply bind_Ok in H. destruct H as (hit & Hhit & H). destruct hit.
  - left. now injection H.
  - right. destruct (IH _ _ H) as [->|Hf]; assumption.
Qed.

(** A lock of a piece that is inside the field leaves a well placed state. *)
Lemma lockPiece_wellPlaced (t : TetrominoType) (s s' : GameState) (cp : Tetromino) :
  config s = config initialState -> configured (config s) (grid s) ->
  currentPiece s = Some cp -> inField (grid s) cp ->
  lockPiece t s = Ok s' -> wellPlaced s'.
Proof.
  intros Hconf Hcfg Hcp Hin Hlock.
  destruct (configured_width _ _ Hcfg) as (Hw & Hh & _).
  destruct (stampPiece_dims (Z.to_nat (width (config s)))
              (Z.to_nat (height (config s))) cp (grid s) (proj1 Hcfg))
    as (newGrid & Hstamp & Hdims).
  { intros iy ix Hocc. right. destruct (Hin iy ix Hocc) as [Hc Hr].
    destruct Hcfg as [_ [Hw0 Hh0]]. rewrite !Z2Nat.id by lia. lia. }
  assert (Hcfg' : configured (config s) newGrid) by (split; [exact Hdims | apply Hcfg]).
  destruct (lockPiece_inv t s s' cp Hcp Hlock)
    as (g1 & g2 & hit & Hs & Hr & Hc & Hg & _ & _ & Hsame & _ & Hover & Hon).
  rewrite Hstamp in Hs. injection Hs as <-.
  rewrite (refill_configured _ _ Hcfg') in Hr. injection Hr as <-.
  pose proof (refilled_dims _ _ Hcfg') as Hcfg''.
  unfold wellPlaced. rewrite Hsame, Hg. splits; [exact Hconf | apply Hcfg'' ..|].
  intros p Hp. destruct hit.
  - destruct (Hover eq_refl) as (_ & Hnone & _). congruence.
  - destruct (Hon eq_refl) as (_ & Hsome & _).
    rewrite Hsome in Hp. injection Hp as <-.
    destruct (configured_width _ _ Hcfg'') as (_ & _ & Hne).
    exact (checked_valid (spawned s) (spawned s) _ 0 0 None Hne Hc eq_refl
             (eq_sym (Z.add_0_r _)) (eq_sym (Z.add_0_r _))).
Qed.

Lemma startGame_wellPlaced (t1 t2 : TetrominoType) (s : GameState) :
  config s = config initialState -> wellPlaced (startGame t1 t2 s).
Proof.
  intros Hconf. unfold wellPlaced. cbn [config grid currentPiece startGame].
  rewrite Hconf. splits.
  - reflexivity.
  - split; [split; [reflexivity | vm_compute; repeat constructor]|].
    vm_compute. split; [discriminate | reflexivity].
  - intros p Hp. injection Hp as <-.
    assert (Hne : emptyGrid INITIAL_WIDTH INITIAL_HEIGHT <> [])
      by (vm_compute; discriminate).
    apply (checked_valid
             (withPosition (getRandomPiece t1 INITIAL_WIDTH)
                {| x := INITIAL_WIDTH / 2 - 2; y := 0 |})
             _ _ 0 0 None Hne);
      [destruct t1; vm_compute; reflexivity | reflexivity
       | symmetry; apply Z.add_0_r | symmetry; apply Z.add_0_r].
Qed.

(** Closes the validity of a piece by the call of [checkCollision] that let
    it through. *)
Ltac checked_by cp H :=
  eapply (checked_valid cp);
  [eassumption | exact H | reflexivity | cbn; lia | cbn; lia].

Lemma dispatch_wellPlaced (i : Intent) (s s' : GameState) :
  wellPlaced s -> (forall t, i <> Hold t) -> dispatch i s = Ok s' -> wellPlaced s'.
Proof.
  intros (Hconf & Hcfg & Hvalid) Hnohold Hstep.
  destruct (configured_width _ _ Hcfg) as (_ & _ & Hne).
  assert (Hkeep : forall c,
             (forall p, c = Some p -> validPiece (grid s) p) ->
             wellPlaced (withCurrentPiece s c)).
  { intros c Hc. unfold wellPlaced. cbn [config grid currentPiece withCurrentPiece].
    auto. }
  assert (Hsame : wellPlaced s) by (unfold wellPlaced; auto).
  destruct i as [t1 t2|t dx dy|fuel dx|cw|fuel t|t|]; simpl in Hstep.
  - injection Hstep as <-. now apply startGame_wellPlaced.
  - unfold move in Hstep. destruct (currentPiece s) as [cp|] eqn:Hcp.
    2:{ now injection Hstep as <-. }
    destruct (negb (isPlaying s)); [now injection Hstep as <-|].
    destruct (isFrozen s && negb (dy =? 0)); [now injection Hstep as <-|].
    apply bind_Ok in Hstep. destruct Hstep as (hit & Hhit & Hstep).
    destruct hit; cbn [negb] in Hstep.
    + destruct (dy >? 0); [|now injection Hstep as <-].
      apply (lockPiece_wellPlaced t s s' cp Hconf Hcfg Hcp); [|exact Hstep].
      apply validPiece_inField. auto.
    + injection Hstep as <-. apply Hkeep. intros p Hp. injection Hp as <-.
      checked_by cp Hhit.
  - unfold moveToEnd in Hstep. destruct (currentPiece s) as [cp|] eqn:Hcp.
    2:{ now injection Hstep as <-. }
    destruct (negb (isPlaying s) || isFrozen s); [now injection Hstep as <-|].
    apply bind_Ok in Hstep. destruct Hstep as (f & Hf & Hstep).
    injection Hstep as <-. apply Hkeep. intros p Hp. injection Hp as <-.
    destruct (slideLoop_checked cp (grid s) dx fuel 0 f Hf) as [->|Hchk].
    + apply (validPiece_same (grid s) cp); [reflexivity | apply Z.add_0_r | reflexivity|].
      auto.
    + checked_by cp Hchk.
  - unfold rotate in Hstep. destruct (currentPiece s) as [cp|] eqn:Hcp.
    2:{ now injection Hstep as <-. }
    destruct (negb (isPlaying s) || isFrozen s); [now injection Hstep as <-|].
    apply bind_Ok in Hstep. destruct Hstep as (newShape & _ & Hstep).
    apply bind_Ok in Hstep. destruct Hstep as (hit & Hhit & Hstep).
    destruct hit; cbn [negb] in Hstep; injection Hstep as <-; [exact Hsame|].
    apply Hkeep. intros p Hp. injection Hp as <-.
    checked_by cp Hhit.
  - unfold hardDrop in Hstep. destruct (currentPiece s) as [cp|] eqn:Hcp.
    2:{ now injection Hstep as <-. }
    destruct (negb (isPlaying s)); [now injection Hstep as <-|].
    apply bind_Ok in Hstep. destruct Hstep as (d & Hd & Hstep).
    apply (lockPiece_wellPlaced t (withCurrentPiece s (Some (droppedPiece cp d))) s'
             (droppedPiece cp d) Hconf Hcfg eq_refl); [|exact Hstep].
    apply validPiece_inField.
    destruct (dropLoop_checked cp (grid s) fuel 0 d Hd) as [->|Hchk].
    + apply (validPiece_same (grid s) cp); [reflexivity | reflexivity | apply Z.add_0_r|].
      auto.
    + checked_by cp Hchk.
  - exfalso. exact (Hnohold t eq_refl).
  - injection Hstep as <-. unfold toggleFreeze.
    destruct (negb (isPlaying s)); [exact Hsame|].
    unfold wellPlaced. cbn [config grid currentPiece]. auto.
Qed.

(** In a session without a hold the active piece is always legally placed:
    the violation of C2 needs [holdPiece]. *)
Lemma placement_without_hold (s : GameState) :
  reachableWithoutHold s ->
  forall p, currentPiece s = Some p -> validPiece (grid s) p.
Proof.
  intros Hreach.
  assert (Hwell : wellPlaced s).
  { induction Hreach as [|i s s' _ IH Hnohold Hstep].
    - unfold wellPlaced. splits.
      + reflexivity.
      + split; [split; [reflexivity | vm_compute; repeat constructor]|].
        vm_compute. split; [discriminate | reflexivity].
      + intros p Hp. discriminate.
    - exact (dispatch_wellPlaced i s s' IH Hnohold Hstep). }
  apply Hwell.
Qed.

(** * Further properties of the engine *)

(** ** States that are not playing *)

Lemma dispatch_not_playing (i : Intent) (s : GameState) :
  status s <> PLAYING -> (forall t1 t2, i <> Start t1 t2) ->
  dispatch i s = Ok s.
Proof.
  intros Hst Hnostart.
  assert (Hplay : isPlaying s = false).
  { unfold isPlaying. destruct (status s); try reflexivity. congruence. }
  destruct i as [t1 t2|t dx dy|fuel dx|cw|fuel t|t|]; simpl.
  - exfalso. exact (Hnostart t1 t2 eq_refl).
  - unfold move. rewrite Hplay. destruct (currentPiece s); reflexivity.
  - unfold moveToEnd. rewrite Hplay. destruct (currentPiece s); reflexivity.
  - unfold rotate. rewrite Hplay. destruct (currentPiece s); reflexivity.
  - unfold hardDrop. rewrite Hplay. destruct (currentPiece s); reflexivity.
  - unfold holdPiece. rewrite Hplay. rewrite orb_true_r.
    destruct (currentPiece s); reflexivity.
  - unfold toggleFreeze. rewrite Hplay. reflexivity.
Qed.

(** X1.  In a state whose status is not [PLAYING] every updater except
    [startGame] returns the state unchanged, whatever the fuel of its loop:
    an idle or ended session reacts to nothing but a start. *)
Theorem non_playing_inert (i : Intent) (s : GameState) :
  status s <> PLAYING -> (forall t1 t2, i <> Start t1 t2) ->
  dispatch i s = Ok s.
Proof. exact (dispatch_not_playing i s). Qed.

(** The ended session of C3 ignores a hard drop. *)
Lemma non_playing_inert_witness :
  (status (resultOr initialState (lockPiece KI restingState)) <> PLAYING /\
   forall t1 t2, HardDrop 0 KT <> Start t1 t2) /\
  dispatch (HardDrop 0 KT) (resultOr initialState (lockPiece KI restingState))
  = Ok (resultOr initialState (lockPiece KI restingState)).
Proof.
  assert (Hst : status (resultOr initialState (lockPiece KI restingState)) <> PLAYING)
    by (vm_compute; discriminate).
  assert (Hno : forall t1 t2, HardDrop 0 KT <> Start t1 t2) by discriminate.
  split; [split; assumption|].
  exact (non_playing_inert (HardDrop 0 KT) _ Hst Hno).
Defined.

(** ** The freeze toggle *)

Lemma toggleFreeze_withCurrentPiece (s : GameState) (c : option Tetromino) :
  toggleFreeze (withCurrentPiece s c) = withCurrentPiece (toggleFreeze s) c.
Proof.
  unfold toggleFreeze, isPlaying. cbn [status withCurrentPiece].
  destruct (negb (Status_eqb (status s) PLAYING)); reflexivity.
Qed.

(** X2.  [toggleFreeze] is an involution, and a lateral move commutes with
    it: moving sideways in the toggled state gives the toggled result of
    moving sideways.  With the frozen flag set, [rotate], [moveToEnd] and
    every move with a vertical component return the state unchanged. *)
Theorem freeze_toggle (t : TetrominoType) (dx : Z) (s : GameState) :
  toggleFreeze (toggleFreeze s) = s /\
  move t dx 0 (toggleFreeze s)
  = (let* s' := move t dx 0 s in Ok (toggleFreeze s')) /\
  (isFrozen s = true ->
   (forall cw, rotate cw s = Ok s) /\
   (forall fuel, moveToEnd fuel dx s = Ok s) /\
   (forall dy, dy <> 0 -> move t dx dy s = Ok s)).
Proof.
  splits.
  - unfold toggleFreeze, isPlaying.
    destruct (Status_eqb (status s) PLAYING) eqn:Hp; cbn [negb status];
      rewrite Hp; cbn [negb]; [|reflexivity].
    destruct s; cbn. now rewrite negb_involutive.
  - unfold move.
    assert (Hc : currentPiece (toggleFreeze s) = currentPiece s)
      by apply toggleFreeze_counters.
    assert (Hg : grid (toggleFreeze s) = grid s) by apply toggleFreeze_counters.
    assert (Hp : isPlaying (toggleFreeze s) = isPlaying s).
    { unfold isPlaying. destruct (toggleFreeze_counters s) as (_ & _ & _ & _ & -> & _).
      reflexivity. }
    rewrite Hc, Hg, Hp. destruct (currentPiece s) as [cp|] eqn:Hcp; [|reflexivity].
    destruct (isPlaying s) eqn:Hplay; cbn [negb bind]; [|reflexivity].
    rewrite !andb_false_r.
    destruct (checkCollision cp (grid s) dx 0 None) as [hit| |]; cbn [bind];
      try reflexivity.
    destruct hit; cbn [negb bind]; [|now rewrite toggleFreeze_withCurrentPiece].
    destruct (0 >? 0) eqn:H0; [discriminate | reflexivity].
  - intros Hfr. splits.
    + intros cw. unfold rotate. rewrite Hfr, orb_true_r.
      destruct (currentPiece s); reflexivity.
    + intros fuel. unfold moveToEnd. rewrite Hfr, orb_true_r.
      destruct (currentPiece s); reflexivity.
    + intros dy Hdy. unfold move. rewrite Hfr.
      destruct (currentPiece s); [|reflexivity].
      destruct (negb (isPlaying s)); [reflexivity|].
      apply Z.eqb_neq in Hdy. rewrite Hdy. reflexivity.
Qed.

(** The frozen session of C10 does not rotate. *)
Lemma freeze_toggle_witness :
  isFrozen frozenStart = true /\ rotate true frozenStart = Ok frozenStart.
Proof.
  assert (Hfr : isFrozen frozenStart = true) by reflexivity.
  split; [exact Hfr|].
  destruct (freeze_toggle KI 0 frozenStart) as (_ & _ & Hsusp).
  exact (proj1 (Hsusp Hfr) true).
Defined.

(** ** Moving there and back *)

Lemma forUntil_ext {A : Type} (body body' : nat -> A -> Result bool) (l : list A) :
  (forall i a, body i a = body' i a) ->
  forall i, forUntil body i l = forUntil body' i l.
Proof.
  intros H. induction l as [|a rest IH]; intros i; simpl; [reflexivity|].
  rewrite H. destruct (body' i a) as [[|]| |]; simpl; auto.
Qed.

(** Testing the translated piece is testing the piece with the translation
    added to the offset. *)
Lemma checkCollision_moved (cp : Tetromino) (g : Grid) (dx dy moveX moveY : Z) :
  checkCollision (movedPiece cp dx dy) g moveX moveY None
  = checkCollision cp g (dx + moveX) (dy + moveY) None.
Proof.
  unfold checkCollision. cbn [movedPiece withPosition shape].
  apply forUntil_ext. intros iy row. apply forUntil_ext. intros ix v.
  unfold collidesAt. cbn [movedPiece withPosition position x y].
  replace (x (position cp) + dx + Z.of_nat ix + moveX)
    with (x (position cp) + Z.of_nat ix + (dx + moveX)) by lia.
  replace (y (position cp) + dy + Z.of_nat iy + moveY)
    with (y (position cp) + Z.of_nat iy + (dy + moveY)) by lia.
  reflexivity.
Qed.

Lemma movedPiece_back (cp : Tetromino) (dx dy : Z) :
  movedPiece (movedPiece cp dx dy) (- dx) (- dy) = cp.
Proof.
  destruct cp as [kind sh col [px py]]. unfold movedPiece, withPosition. cbn.
  f_equal. f_equal; lia.
Qed.

Lemma withCurrentPiece_twice (s : GameState) (c c' : option Tetromino) :
  withCurrentPiece (withCurrentPiece s c) c' = withCurrentPiece s c'.
Proof. reflexivity. Qed.

(** X3.  In a playing state whose active piece is legally placed
    ([checkCollision] at offset 0 returns [false]), a move that is let
    through (no frozen flag against it, no collision at the target) followed
    by the opposite move restores the state exactly; neither move locks. *)
Theorem move_there_and_back (t t' : TetrominoType) (dx dy : Z) (s : GameState)
    (cp : Tetromino) :
  currentPiece s = Some cp -> status s = PLAYING ->
  (isFrozen s = false \/ dy = 0) ->
  checkCollision cp (grid s) 0 0 None = Ok false ->
  checkCollision cp (grid s) dx dy None = Ok false ->
  move t dx dy s = Ok (withCurrentPiece s (Some (movedPiece cp dx dy))) /\
  move t' (- dx) (- dy) (withCurrentPiece s (Some (movedPiece cp dx dy))) = Ok s.
Proof.
  intros Hcp Hst Hfree Hhere Hthere.
  assert (Hgate : forall d, (isFrozen s = false \/ d = 0) ->
                            isFrozen s && negb (d =? 0) = false).
  { intros d [Hd | Hd]; rewrite Hd; [reflexivity | apply andb_false_r]. }
  split.
  - unfold move, isPlaying. rewrite Hcp, Hst. cbn [Status_eqb negb].
    rewrite (Hgate dy Hfree), Hthere. reflexivity.
  - unfold move, isPlaying. cbn [currentPiece status isFrozen grid withCurrentPiece].
    rewrite Hst. cbn [Status_eqb negb].
    rewrite (Hgate (- dy)) by (destruct Hfree as [H|H]; [left; exact H | right; lia]).
    fold (movedPiece (movedPiece cp dx dy) (- dx) (- dy)).
    rewrite checkCollision_moved.
    replace (dx + - dx) with 0 by lia. replace (dy + - dy) with 0 by lia.
    rewrite Hhere. cbn [bind negb].
    rewrite withCurrentPiece_twice, movedPiece_back, <- Hcp.
    now rewrite withCurrentPiece_same.
Qed.

(** The T piece of [clearedState] goes one column to the left and back. *)
Lemma move_there_and_back_witness :
  (currentPiece clearedState = Some (getRandomPiece KT 10) /\
   status clearedState = PLAYING /\
   (isFrozen clearedState = false \/ 0 = 0) /\
   checkCollision (getRandomPiece KT 10) (grid clearedState) 0 0 None = Ok false /\
   checkCollision (getRandomPiece KT 10) (grid clearedState) (-1) 0 None = Ok false) /\
  move KI 1 0
    (withCurrentPiece clearedState (Some (movedPiece (getRandomPiece KT 10) (-1) 0)))
  = Ok clearedState.
Proof.
  assert (Hcp : currentPiece clearedState = Some (getRandomPiece KT 10))
    by (vm_compute; reflexivity).
  assert (Hst : status clearedState = PLAYING) by (vm_compute; reflexivity).
  assert (Hfree : isFrozen clearedState = false \/ 0 = 0) by (right; reflexivity).
  assert (Hhere : checkCollision (getRandomPiece KT 10) (grid clearedState) 0 0 None
                  = Ok false) by (vm_compute; reflexivity).
  assert (Hthere : checkCollision (getRandomPiece KT 10) (grid clearedState) (-1) 0 None
                   = Ok false) by (vm_compute; reflexivity).
  split; [splits; assumption|].
  exact (proj2 (move_there_and_back KS KI (-1) 0 clearedState _
                  Hcp Hst Hfree Hhere Hthere)).
Defined.

(** ** Quarter turns that undo each other *)

Lemma rotateShape_ccw_square (n : nat) (m : Shape) :
  isSquare n m -> (0 < n)%nat -> rotateShape false m = Ok (rotatedCCW n m).
Proof.
  intros [Hlen Hrows] Hn. unfold rotateShape, transposeShape, rotatedCCW.
  destruct m as [|row0 rest]; simpl in Hlen; [lia|].
  apply Forall_inv in Hrows. rewrite Hrows. reflexivity.
Qed.

Lemma rotatedCCW_square (n : nat) (m : Shape) :
  isSquare n m -> isSquare n (rotatedCCW n m).
Proof.
  intros [Hlen _]. unfold rotatedCCW. split.
  - now rewrite length_rev, length_map, length_seq.
  - apply Forall_forall. intros row Hin. apply in_rev in Hin.
    apply in_map_iff in Hin. destruct Hin as (index & <- & _).
    now rewrite length_map.
Qed.

(** Entry [(i, j)] of the matrix turned counter-clockwise is entry
    [(j, n - 1 - i)] of the original. *)
Lemma rotatedCCW_entry (n : nat) (m : Shape) (i j : nat) :
  isSquare n m -> (i < n)%nat -> (j < n)%nat ->
  entry (rotatedCCW n m) i j = entry m j (n - 1 - i).
Proof.
  intros [Hlen Hrows] Hi Hj. unfold entry, rotatedCCW.
  set (col := fun index => map (fun row : list Z => nth index row 0) m).
  rewrite rev_nth by (rewrite length_map, length_seq; exact Hi).
  rewrite length_map, length_seq.
  replace (n - S i)%nat with (n - 1 - i)%nat by lia.
  assert (Hcol : nth (n - 1 - i) (map col (seq 0 n)) [] = col (n - 1 - i)%nat).
  { rewrite (nth_indep _ [] (col 0%nat)) by (rewrite length_map, length_seq; lia).
    rewrite map_nth, seq_nth by lia. reflexivity. }
  rewrite Hcol. unfold col.
  rewrite <- (nth_nil_Z (n - 1 - i)) at 1.
  exact (map_nth (fun row : list Z => nth (n - 1 - i) row 0) m [] j).
Qed.

Lemma rotatedCCW_CW (n : nat) (m : Shape) :
  isSquare n m -> rotatedCCW n (rotatedCW n m) = m.
Proof.
  intros Hsq. pose proof (rotatedCW_square n m Hsq) as H1.
  apply (square_ext n _ _ (rotatedCCW_square n _ H1) Hsq). intros i j Hi Hj.
  rewrite (rotatedCCW_entry n _ i j H1 Hi Hj).
  rewrite (rotatedCW_entry n m j (n - 1 - i) Hsq) by lia.
  f_equal; lia.
Qed.

Lemma rotatedCW_CCW (n : nat) (m : Shape) :
  isSquare n m -> rotatedCW n (rotatedCCW n m) = m.
Proof.
  intros Hsq. pose proof (rotatedCCW_square n m Hsq) as H1.
  apply (square_ext n _ _ (rotatedCW_square n _ H1) Hsq). intros i j Hi Hj.
  rewrite (rotatedCW_entry n _ i j H1 Hi Hj).
  rewrite (rotatedCCW_entry n m (n - 1 - j) i Hsq) by lia.
  f_equal; lia.
Qed.

(** X4.  On a square matrix of side at least 1 the two transforms of
    [rotate] are inverse to each other: a clockwise turn followed by a
    counter-clockwise turn, and a counter-clockwise turn followed by a
    clockwise turn, both return the original matrix. *)
Theorem rotateShape_inverse (n : nat) (m : Shape) :
  isSquare n m -> (0 < n)%nat ->
  (let* a := rotateShape true m in rotateShape false a) = Ok m /\
  (let* a := rotateShape false m in rotateShape true a) = Ok m.
Proof.
  intros Hsq Hn. split.
  - rewrite (rotateShape_square n m Hsq Hn). cbn [bind].
    rewrite (rotateShape_ccw_square n _ (rotatedCW_square n m Hsq) Hn).
    now rewrite rotatedCCW_CW.
  - rewrite (rotateShape_ccw_square n m Hsq Hn). cbn [bind].
    rewrite (rotateShape_square n _ (rotatedCCW_square n m Hsq) Hn).
    now rewrite rotatedCW_CCW.
Qed.

(** The S piece of the catalog, turned one way and back. *)
Lemma rotateShape_inverse_witness :
  (isSquare 3 (def_shape (TETROMINOES KS)) /\ (0 < 3)%nat) /\
  (let* a := rotateShape true (def_shape (TETROMINOES KS)) in rotateShape false a)
  = Ok (def_shape (TETROMINOES KS)).
Proof.
  assert (Hsq : isSquare 3 (def_shape (TETROMINOES KS))).
  { split; [reflexivity|]. repeat constructor. }
  assert (Hn : (0 < 3)%nat) by lia.
  split; [split; assumption|].
  exact (proj1 (rotateShape_inverse 3 _ Hsq Hn)).
Defined.

Lemma withShape_back (cp : Tetromino) (s1 : Shape) :
  withShape (withShape cp s1) (shape cp) = cp.
Proof. destruct cp; reflexivity. Qed.

(** X5.  In a playing, unfrozen state whose active piece is legally placed
    and has a square shape, a clockwise rotation that is accepted followed
    by a counter-clockwise rotation restores the state exactly. *)
Theorem rotate_there_and_back (n : nat) (s : GameState) (cp : Tetromino) :
  currentPiece s = Some cp -> status s = PLAYING -> isFrozen s = false ->
  isSquare n (shape cp) -> (0 < n)%nat ->
  checkCollision cp (grid s) 0 0 None = Ok false ->
  checkCollision cp (grid s) 0 0 (Some (rotatedCW n (shape cp))) = Ok false ->
  rotate true s
  = Ok (withCurrentPiece s (Some (withShape cp (rotatedCW n (shape cp))))) /\
  rotate false (withCurrentPiece s (Some (withShape cp (rotatedCW n (shape cp)))))
  = Ok s.
Proof.
  intros Hcp Hst Hfr Hsq Hn Hhere Hturned. split.
  - unfold rotate, isPlaying. rewrite Hcp, Hst, Hfr. cbn [Status_eqb negb orb].
    rewrite (rotateShape_square n _ Hsq Hn). cbn [bind].
    rewrite Hturned. reflexivity.
  - unfold rotate, isPlaying.
    cbn [currentPiece status isFrozen grid withCurrentPiece].
    rewrite Hst, Hfr. cbn [Status_eqb negb orb shape withShape].
    rewrite (rotateShape_ccw_square n _ (rotatedCW_square n _ Hsq) Hn).
    cbn [bind]. rewrite (rotatedCCW_CW n _ Hsq).
    change (checkCollision (withShape cp (rotatedCW n (shape cp))) (grid s) 0 0
              (Some (shape cp)))
      with (checkCollision cp (grid s) 0 0 None).
    rewrite Hhere. cbn [bind negb].
    rewrite withCurrentPiece_twice, withShape_back, <- Hcp.
    now rewrite withCurrentPiece_same.
Qed.

(** The T piece of [clearedState] is turned and turned back. *)
Lemma rotate_there_and_back_witness :
  (currentPiece clearedState = Some (getRandomPiece KT 10) /\
   status clearedState = PLAYING /\ isFrozen clearedState = false /\
   isSquare 3 (shape (getRandomPiece KT 10)) /\ (0 < 3)%nat /\
   checkCollision (getRandomPiece KT 10) (grid clearedState) 0 0 None = Ok false /\
   checkCollision (getRandomPiece KT 10) (grid clearedState) 0 0
     (Some (rotatedCW 3 (shape (getRandomPiece KT 10)))) = Ok false) /\
  rotate false
    (withCurrentPiece clearedState
       (Some (withShape (getRandomPiece KT 10)
                (rotatedCW 3 (shape (getRandomPiece KT 10))))))
  = Ok clearedState.
Proof.
  assert (Hcp : currentPiece clearedState = Some (getRandomPiece KT 10))
    by (vm_compute; reflexivity).
  assert (Hst : status clearedState = PLAYING) by (vm_compute; reflexivity).
  assert (Hfr : isFrozen clearedState = false) by (vm_compute; reflexivity).
  assert (Hsq : isSquare 3 (shape (getRandomPiece KT 10))).
  { split; [reflexivity|]. repeat constructor. }
  assert (Hn : (0 < 3)%nat) by lia.
  assert (Hhere : checkCollision (getRandomPiece KT 10) (grid clearedState) 0 0 None
                  = Ok false) by (vm_compute; reflexivity).
  assert (Hturned : checkCollision (getRandomPiece KT 10) (grid clearedState) 0 0
                      (Some (rotatedCW 3 (shape (getRandomPiece KT 10)))) = Ok false)
    by (vm_compute; reflexivity).
  split; [splits; assumption|].
  exact (proj2 (rotate_there_and_back 3 clearedState _
                  Hcp Hst Hfr Hsq Hn Hhere Hturned)).
Defined.

(** ** The ghost position *)

(** The collision test looks at the shape and the position of the piece
    only. *)
Lemma checkCollision_at (cp q : Tetromino) (g : Grid) (dx dy moveX moveY : Z) :
  shape q = shape cp ->
  x (position q) = x (position cp) + dx ->
  y (position q) = y (position cp) + dy ->
  checkCollision q g moveX moveY None
  = checkCollision cp g (dx + moveX) (dy + moveY) None.
Proof.
  intros Hs Hx Hy. unfold checkCollision. rewrite Hs.
  apply forUntil_ext. intros iy row. apply forUntil_ext. intros ix v.
  unfold collidesAt. rewrite Hx, Hy.
  replace (x (position cp) + dx + Z.of_nat ix + moveX)
    with (x (position cp) + Z.of_nat ix + (dx + moveX)) by lia.
  replace (y (position cp) + dy + Z.of_nat iy + moveY)
    with (y (position cp) + Z.of_nat iy + (dy + moveY)) by lia.
  reflexivity.
Qed.

(** The loop run on the piece moved one row down is the loop run on the
    piece from one row further, counted from the new row. *)
Lemma dropLoop_moved_down (cp : Tetromino) (g : Grid) :
  forall fuel d0,
    dropLoop fuel (movedPiece cp 0 1) g d0
    = (let* d := dropLoop fuel cp g (d0 + 1) in Ok (d - 1)).
Proof.
  induction fuel as [|fuel IH]; intros d0; simpl; [reflexivity|].
  rewrite checkCollision_moved.
  replace (0 + 0) with 0 by lia.
  replace (1 + (d0 + 1)) with (d0 + 1 + 1) by lia.
  destruct (checkCollision cp g 0 (d0 + 1 + 1) None) as [hit| |]; cbn [bind];
    try reflexivity.
  destruct hit; cbn [bind].
  - f_equal. lia.
  - apply IH.
Qed.

Lemma getGhostPosition_lands (fuel : nat) (t : TetrominoType) (s : GameState)
    (cp : Tetromino) :
  currentPiece s = Some cp -> grid s <> [] ->
  (exists iy ix, occupiedAt (shape cp) iy ix) ->
  checkCollision cp (grid s) 0 0 None = Ok false ->
  (Z.to_nat (gridHeight (grid s) - y (position cp)) < fuel)%nat ->
  exists pos,
    getGhostPosition fuel s = Ok (Some pos) /\
    x pos = x (position cp) /\ y (position cp) <= y pos /\
    validPiece (grid s) (withPosition cp pos) /\
    checkCollision (withPosition cp pos) (grid s) 0 1 None = Ok true /\
    (status s = PLAYING ->
     hardDrop fuel t s = lockPiece t (withCurrentPiece s (Some (withPosition cp pos)))).
Proof.
  intros Hcp Hg (iy & ix & Hocc) Hhere Hfuel.
  set (n := Z.to_nat (gridHeight (grid s) - y (position cp) - Z.of_nat iy)).
  destruct (dropLoop_finds cp (grid s) Hg n 0) as (d & Hd & Hfree & Hstop & Hrun).
  { apply (collides_below_floor cp (grid s) 0 _ iy ix Hocc). unfold n. lia. }
  assert (Hloop : dropLoop fuel cp (grid s) 0 = Ok d) by (apply Hrun; unfold n; lia).
  assert (Hat : checkCollision cp (grid s) 0 d None = Ok false).
  { destruct (Z.eq_dec d 0) as [->|Hpos]; [exact Hhere|].
    rewrite checkCollision_collides by exact Hg. cbn [activeShape].
    f_equal. apply Hfree. lia. }
  exists {| x := x (position cp); y := y (position cp) + d |}. splits.
  - unfold getGhostPosition. rewrite Hcp, Hloop. reflexivity.
  - reflexivity.
  - cbn. lia.
  - eapply (checked_valid cp); [exact Hg | exact Hat | reflexivity | cbn; lia | cbn; lia].
  - rewrite (checkCollision_at cp _ (grid s) 0 d 0 1) by (cbn; lia || reflexivity).
    rewrite checkCollision_collides by exact Hg. cbn [activeShape].
    f_equal. rewrite <- Hstop. f_equal; lia.
  - intros Hst. unfold hardDrop, isPlaying. rewrite Hcp, Hst, Hloop. reflexivity.
Qed.

(** X6.  For an active piece that has an occupied cell and is legally placed
    on a grid with at least one row, [getGhostPosition] returns (with fuel
    beyond the distance to the floor) a position in the column of the piece,
    at or below it, where the piece is legally placed and rests: one row
    further down it collides.  In a playing state it is the position at which
    [hardDrop] locks the piece. *)
Theorem getGhostPosition_landing (fuel : nat) (t : TetrominoType) (s : GameState)
    (cp : Tetromino) :
  currentPiece s = Some cp -> grid s <> [] ->
  (exists iy ix, occupiedAt (shape cp) iy ix) ->
  checkCollision cp (grid s) 0 0 None = Ok false ->
  (Z.to_nat (gridHeight (grid s) - y (position cp)) < fuel)%nat ->
  exists pos,
    getGhostPosition fuel s = Ok (Some pos) /\
    x pos = x (position cp) /\ y (position cp) <= y pos /\
    validPiece (grid s) (withPosition cp pos) /\
    checkCollision (withPosition cp pos) (grid s) 0 1 None = Ok true /\
    (status s = PLAYING ->
     hardDrop fuel t s = lockPiece t (withCurrentPiece s (Some (withPosition cp pos)))).
Proof. exact (getGhostPosition_lands fuel t s cp). Qed.

(** The O piece at its spawn position on the empty field: the ghost is on the
    floor, at row 18. *)
Lemma getGhostPosition_landing_witness :
  (currentPiece (startGame KO KT initialState)
   = Some (withPosition (getRandomPiece KO 10) {| x := 3; y := 0 |}) /\
   grid (startGame KO KT initialState) <> [] /\
   (exists iy ix,
      occupiedAt (shape (withPosition (getRandomPiece KO 10) {| x := 3; y := 0 |}))
                 iy ix) /\
   checkCollision (withPosition (getRandomPiece KO 10) {| x := 3; y := 0 |})
                  (grid (startGame KO KT initialState)) 0 0 None = Ok false /\
   (Z.to_nat (gridHeight (grid (startGame KO KT initialState))
              - y (position (withPosition (getRandomPiece KO 10)
                               {| x := 3; y := 0 |}))) < 32)%nat) /\
  exists pos, getGhostPosition 32 (startGame KO KT initialState) = Ok (Some pos).
Proof.
  assert (Hcp : currentPiece (startGame KO KT initialState)
                = Some (withPosition (getRandomPiece KO 10) {| x := 3; y := 0 |}))
    by reflexivity.
  assert (Hg : grid (startGame KO KT initialState) <> []) by (vm_compute; discriminate).
  assert (Hocc : exists iy ix,
             occupiedAt (shape (withPosition (getRandomPiece KO 10)
                                  {| x := 3; y := 0 |})) iy ix).
  { exists 0%nat, 0%nat, [1; 1], 1. splits; try reflexivity. discriminate. }
  assert (Hhere : checkCollision
                    (withPosition (getRandomPiece KO 10) {| x := 3; y := 0 |})
                    (grid (startGame KO KT initialState)) 0 0 None = Ok false)
    by (vm_compute; reflexivity).
  assert (Hfuel : (Z.to_nat (gridHeight (grid (startGame KO KT initialState))
                             - y (position (withPosition (getRandomPiece KO 10)
                                              {| x := 3; y := 0 |}))) < 32)%nat)
    by (vm_compute; lia).
  split; [splits; assumption|].
  destruct (getGhostPosition_landing 32 KI (startGame KO KT initialState) _
              Hcp Hg Hocc Hhere Hfuel) as (pos & Hpos & _).
  exists pos. exact Hpos.
Defined.

(** X7.  A descent by one row that is let through does not move the ghost:
    the ghost position of the state after the move, computed with some fuel,
    is the ghost position of the state before it, computed with one more
    unit of fuel. *)
Theorem getGhostPosition_soft_drop (fuel : nat) (t : TetrominoType) (s s' : GameState)
    (cp : Tetromino) :
  currentPiece s = Some cp -> status s = PLAYING -> isFrozen s = false ->
  checkCollision cp (grid s) 0 1 None = Ok false ->
  move t 0 1 s = Ok s' ->
  getGhostPosition fuel s' = getGhostPosition (S fuel) s.
Proof.
  intros Hcp Hst Hfr Hfree Hmove.
  unfold move, isPlaying in Hmove. rewrite Hcp, Hst, Hfr, Hfree in Hmove.
  cbn in Hmove. injection Hmove as <-.
  unfold getGhostPosition. cbn [currentPiece grid withCurrentPiece]. rewrite Hcp.
  fold (movedPiece cp 0 1). rewrite dropLoop_moved_down.
  cbn [dropLoop]. change (0 + 1) with 1. rewrite Hfree. cbn [bind].
  destruct (dropLoop fuel cp (grid s) 1) as [d| |]; cbn [bind]; try reflexivity.
  cbn [movedPiece withPosition position x y]. do 3 f_equal; lia.
Qed.

(** The O piece on the empty field, one row down: the ghost stays at
    row 18. *)
Lemma getGhostPosition_soft_drop_witness :
  (currentPiece (startGame KO KT initialState)
   = Some (withPosition (getRandomPiece KO 10) {| x := 3; y := 0 |}) /\
   status (startGame KO KT initialState) = PLAYING /\
   isFrozen (startGame KO KT initialState) = false /\
   checkCollision (withPosition (getRandomPiece KO 10) {| x := 3; y := 0 |})
                  (grid (startGame KO KT initialState)) 0 1 None = Ok false /\
   move KI 0 1 (startGame KO KT initialState)
   = Ok (resultOr initialState (move KI 0 1 (startGame KO KT initialState)))) /\
  getGhostPosition 31 (resultOr initialState (move KI 0 1 (startGame KO KT initialState)))
  = Ok (Some {| x := 3; y := 18 |}).
Proof.
  assert (Hcp : currentPiece (startGame KO KT initialState)
                = Some (withPosition (getRandomPiece KO 10) {| x := 3; y := 0 |}))
    by reflexivity.
  assert (Hst : status (startGame KO KT initialState) = PLAYING) by reflexivity.
  assert (Hfr : isFrozen (startGame KO KT initialState) = false) by reflexivity.
  assert (Hfree : checkCollision
                    (withPosition (getRandomPiece KO 10) {| x := 3; y := 0 |})
                    (grid (startGame KO KT initialState)) 0 1 None = Ok false)
    by (vm_compute; reflexivity).
  assert (Hmove : move KI 0 1 (startGame KO KT initialState)
                  = Ok (resultOr initialState
                          (move KI 0 1 (startGame KO KT initialState))))
    by (vm_compute; reflexivity).
  split; [splits; assumption|].
  rewrite (getGhostPosition_soft_drop 31 KI _ _ _ Hcp Hst Hfr Hfree Hmove).
  vm_compute. reflexivity.
Defined.

(** ** Rows that a stamp touches *)

Lemma app_cons_same_length {A : Type} (l1 l1' l2 l2' : list A) (a a' : A) :
  length l1 = length l1' -> l1 ++ a :: l2 = l1' ++ a' :: l2' ->
  l1 = l1' /\ a = a' /\ l2 = l2'.
Proof.
  revert l1'. induction l1 as [|b l1 IH]; intros [|b' l1'] Hlen Heq;
    simpl in *; try discriminate.
  - injection Heq as -> ->. auto.
  - injection Heq as -> Heq. destruct (IH l1' ltac:(lia) Heq) as (-> & -> & ->). auto.
Qed.

Lemma touchesRow_trans (i : nat) (g1 g2 g3 : Grid) :
  touchesRow i g1 g2 -> touchesRow i g2 g3 -> touchesRow i g1 g3.
Proof.
  intros [->|(l1 & a & a' & l2 & Hi & -> & ->)] H23; [exact H23|].
  destruct H23 as [->|(m1 & b & b' & m2 & Hj & Heq & ->)].
  - right. exists l1, a, a', l2. auto.
  - destruct (app_cons_same_length l1 m1 l2 m2 a' b ltac:(lia) Heq) as (<- & _ & <-).
    right. exists l1, a, b', l2. auto.
Qed.

Lemma touchesRow_count (f : list Cell -> bool) (i : nat) (g g' : Grid) :
  touchesRow i g g' ->
  (length (filter f g') <= length (filter f g) + 1)%nat.
Proof.
  intros [->|(l1 & a & a' & l2 & _ & -> & ->)]; [lia|].
  rewrite !filter_app, !length_app. simpl.
  destruct (f a), (f a'); simpl; lia.
Qed.

Lemma firstn_middle {A : Type} (l1 l2 : list A) (a : A) :
  firstn (length l1) (l1 ++ a :: l2) = l1.
Proof. induction l1 as [|b l1 IH]; simpl; [reflexivity | now rewrite IH]. Qed.

Lemma skipn_middle {A : Type} (l1 l2 : list A) (a : A) :
  skipn (S (length l1)) (l1 ++ a :: l2) = l2.
Proof. induction l1 as [|b l1 IH]; simpl; [reflexivity | exact IH]. Qed.

Lemma writeCell_touchesRow (g g' : Grid) (gridY gridX : Z) (c : Cell) :
  writeCell g gridY gridX c = Ok g' -> touchesRow (Z.to_nat gridY) g g'.
Proof.
  unfold writeCell. destruct (nth_error g (Z.to_nat gridY)) as [row|] eqn:Hrow;
    [|discriminate].
  intros H. injection H as <-.
  destruct (nth_error_split g (Z.to_nat gridY) Hrow) as (l1 & l2 & -> & Hlen).
  right. exists l1, row, (setCell row gridX c), l2. splits; auto.
  rewrite <- Hlen. rewrite firstn_middle. do 2 f_equal.
  exact (skipn_middle l1 l2 row).
Qed.

(** A [forEachM] loop whose body relates its input to its output by a
    reflexive and transitive relation relates its input to its output. *)
Lemma forEachM_related {A St : Type} (R : St -> St -> Prop)
    (body : nat -> A -> St -> Result St) (l : list A) :
  (forall s, R s s) -> (forall s1 s2 s3, R s1 s2 -> R s2 s3 -> R s1 s3) ->
  (forall i a s s', body i a s = Ok s' -> R s s') ->
  forall i0 s s', forEachM body i0 l s = Ok s' -> R s s'.
Proof.
  intros Hrefl Htrans Hbody. induction l as [|a rest IH]; intros i0 s s' H; simpl in H.
  - injection H as <-. apply Hrefl.
  - apply bind_Ok in H. destruct H as (s1 & H1 & H2).
    exact (Htrans _ _ _ (Hbody _ _ _ _ H1) (IH _ _ _ H2)).
Qed.

(** A [forEachM] loop whose body raises a measure by at most 1 raises it by
    at most the number of elements. *)
Lemma forEachM_measure {A St : Type} (m : St -> nat)
    (body : nat -> A -> St -> Result St) (l : list A) :
  (forall i a s s', body i a s = Ok s' -> (m s' <= m s + 1)%nat) ->
  forall i0 s s', forEachM body i0 l s = Ok s' -> (m s' <= m s + length l)%nat.
Proof.
  intros Hbody. induction l as [|a rest IH]; intros i0 s s' H; simpl in H.
  - injection H as <-. simpl. lia.
  - apply bind_Ok in H. destruct H as (s1 & H1 & H2).
    specialize (Hbody _ _ _ _ H1). specialize (IH _ _ _ H2). simpl. lia.
Qed.

Lemma stampRow_touchesRow (cp : Tetromino) (iy : nat) (row : list Z) (g g' : Grid) :
  forEachM (stampCell cp iy) 0 row g = Ok g' ->
  touchesRow (Z.to_nat (y (position cp) + Z.of_nat iy)) g g'.
Proof.
  apply forEachM_related.
  - intros s. now left.
  - apply touchesRow_trans.
  - intros ix v s s' H. unfold stampCell in H.
    destruct (truthyNum v); [|injection H as <-; now left].
    destruct (_ >=? 0); [|injection H as <-; now left].
    exact (writeCell_touchesRow _ _ _ _ _ H).
Qed.

Lemma no_full_rows_filter (g : Grid) :
  Forall (fun row => rowFull row = false) g -> filter rowFull g = [].
Proof.
  induction 1 as [|row g0 Hrow _ IH]; simpl; [reflexivity|]. now rewrite Hrow.
Qed.

Lemma stampPiece_count (cp : Tetromino) (g newGrid : Grid) :
  stampPiece cp g = Ok newGrid ->
  (length (filter rowFull newGrid)
   <= length (filter rowFull g) + length (shape cp))%nat.
Proof.
  intros Hstamp. unfold stampPiece in Hstamp.
  apply (forEachM_measure (fun g0 => length (filter rowFull g0)) _ _) in Hstamp;
    [exact Hstamp|].
  intros iy row g1 g2 H.
  exact (touchesRow_count rowFull _ _ _ (stampRow_touchesRow _ _ _ _ _ H)).
Qed.

(** X8.  Stamping a piece completes at most one row per row of its shape
    matrix: the stamped grid has at most as many full rows as the grid had
    before plus the number of rows of the shape.  So a lock on a grid without
    full rows clears at most as many rows as the shape has (4 for the pieces
    of the catalog). *)
Theorem stampPiece_full_rows (cp : Tetromino) (g newGrid : Grid) :
  stampPiece cp g = Ok newGrid ->
  (length (filter rowFull newGrid)
   <= length (filter rowFull g) + length (shape cp))%nat /\
  (Forall (fun row => rowFull row = false) g ->
   clearedLinesCount newGrid <= Z.of_nat (length (shape cp))).
Proof.
  intros Hstamp. pose proof (stampPiece_count cp g newGrid Hstamp) as Hcount.
  split; [exact Hcount|].
  intros Hnone. unfold clearedLinesCount.
  rewrite (no_full_rows_filter g Hnone) in Hcount. simpl in Hcount. lia.
Qed.

(** The O piece stamped into the gap of [gapState]: one full row, for a shape
    of two rows. *)
Lemma stampPiece_full_rows_witness :
  stampPiece (withPosition (getRandomPiece KO 10) {| x := 3; y := 18 |})
             (grid (gapState 1)) = Ok gapStamped /\
  (length (filter rowFull gapStamped)
   <= length (filter rowFull (grid (gapState 1))) + 2)%nat.
Proof.
  assert (Hstamp : stampPiece
                     (withPosition (getRandomPiece KO 10) {| x := 3; y := 18 |})
                     (grid (gapState 1)) = Ok gapStamped) by reflexivity.
  split; [exact Hstamp|].
  exact (proj1 (stampPiece_full_rows _ _ _ Hstamp)).
Defined.

(** ** What every state of a session satisfies *)

Lemma occupiedAt_entry (n : nat) (m : Shape) (iy ix : nat) :
  isSquare n m ->
  (occupiedAt m iy ix <-> (iy < n)%nat /\ (ix < n)%nat /\ entry m iy ix <> 0).
Proof.
  intros [Hlen Hrows]. rewrite Forall_forall in Hrows. unfold entry. split.
  - intros (row & v & Hrow & Hv & Hne).
    assert (Hiy : (iy < length m)%nat) by (apply nth_error_Some; congruence).
    assert (Hw : length row = n) by (apply Hrows; exact (nth_error_In _ _ Hrow)).
    assert (Hix : (ix < length row)%nat) by (apply nth_error_Some; congruence).
    rewrite (nth_error_nth _ _ [] Hrow), (nth_error_nth _ _ 0 Hv).
    splits; lia || exact Hne.
  - intros (Hiy & Hix & Hne).
    exists (nth iy m []), (nth ix (nth iy m []) 0). splits.
    + apply nth_error_nth'. lia.
    + apply nth_error_nth'. rewrite (Hrows (nth iy m [])); [exact Hix|].
      apply nth_In. lia.
    + exact Hne.
Qed.

(** A quarter turn keeps a shape square and keeps an occupied cell. *)
Lemma rotateShape_sound (clockwise : bool) (p : Tetromino) (newShape : Shape) :
  soundPiece p -> rotateShape clockwise (shape p) = Ok newShape ->
  soundPiece (withShape p newShape).
Proof.
  intros ((n & Hn & Hsq) & (iy & ix & Hocc) & Hcol) Hrot.
  apply (occupiedAt_entry n _ _ _ Hsq) in Hocc. destruct Hocc as (Hiy & Hix & Hne).
  destruct clockwise.
  - rewrite (rotateShape_square n _ Hsq) in Hrot by lia. injection Hrot as <-.
    pose proof (rotatedCW_square n _ Hsq) as Hsq'.
    unfold soundPiece. splits; [exists n; auto | | exact Hcol].
    exists ix, (n - 1 - iy)%nat. cbn [shape withShape].
    apply (occupiedAt_entry n _ _ _ Hsq'). splits; try lia.
    rewrite (rotatedCW_entry n _ _ _ Hsq) by lia.
    replace (n - 1 - (n - 1 - iy))%nat with iy by lia. exact Hne.
  - rewrite (rotateShape_ccw_square n _ Hsq) in Hrot by lia. injection Hrot as <-.
    pose proof (rotatedCCW_square n _ Hsq) as Hsq'.
    unfold soundPiece. splits; [exists n; auto | | exact Hcol].
    exists (n - 1 - ix)%nat, iy. cbn [shape withShape].
    apply (occupiedAt_entry n _ _ _ Hsq'). splits; try lia.
    rewrite (rotatedCCW_entry n _ _ _ Hsq) by lia.
    replace (n - 1 - (n - 1 - ix))%nat with ix by lia. exact Hne.
Qed.

Lemma catalog_soundPiece (p : Tetromino) : catalogPiece p -> soundPiece p.
Proof.
  intros [Hs Hc]. unfold soundPiece. rewrite Hs. splits; [| |exact Hc].
  - destruct (type p);
      [exists 4%nat | exists 3%nat | exists 3%nat | exists 2%nat
       | exists 3%nat | exists 3%nat | exists 3%nat];
      (split; [lia | split; [reflexivity | repeat constructor]]).
  - destruct (type p);
      [exists 1%nat, 0%nat, [1; 1; 1; 1], 1
      | exists 0%nat, 0%nat, [1; 0; 0], 1
      | exists 1%nat, 0%nat, [1; 1; 1], 1
      | exists 0%nat, 0%nat, [1; 1], 1
      | exists 1%nat, 0%nat, [1; 1; 0], 1
      | exists 1%nat, 0%nat, [1; 1; 1], 1
      | exists 0%nat, 0%nat, [1; 1; 0], 1];
      (splits; [reflexivity | reflexivity | discriminate]).
Qed.

Lemma getRandomPiece_catalog (t : TetrominoType) (w : Z) :
  catalogPiece (getRandomPiece t w).
Proof. split; reflexivity. Qed.

(** A piece with a sound shape at the spawn position of the 10 by 20 field
    is inside the field. *)
Lemma spawn_inField (g : Grid) (p : Tetromino) :
  gridWidth g = 10 -> gridHeight g = 20 -> soundPiece p ->
  position p = {| x := 3; y := 0 |} -> inField g p.
Proof.
  intros Hw Hh ((n & Hn & Hsq) & _) Hpos iy ix Hocc.
  apply (occupiedAt_entry n _ _ _ Hsq) in Hocc. destruct Hocc as (Hiy & Hix & _).
  rewrite Hpos, Hw, Hh. cbn [x y]. lia.
Qed.

Lemma writeCell_cells (Q : Cell -> Prop) (w h : nat) (g : Grid) (gridY gridX : Z)
    (c : Cell) :
  hasDims w h g -> Forall (Forall Q) g -> Q c ->
  0 <= gridY < Z.of_nat h -> 0 <= gridX < Z.of_nat w ->
  exists g', writeCell g gridY gridX c = Ok g' /\ hasDims w h g' /\
             Forall (Forall Q) g'.
Proof.
  intros Hdims Hcells Hc Hy Hx.
  destruct (writeCell_dims w h g gridY gridX c Hdims Hy Hx) as (g' & Hw & Hdims').
  exists g'. splits; auto.
  unfold writeCell in Hw.
  destruct (nth_error g (Z.to_nat gridY)) as [row|] eqn:Hrow; [|discriminate].
  injection Hw as <-. apply replace_Forall; [exact Hcells|].
  assert (Hrowq : Forall Q row).
  { rewrite Forall_forall in Hcells. apply Hcells. exact (nth_error_In _ _ Hrow). }
  assert (Hlen : length row = w).
  { destruct Hdims as [_ Hrows]. rewrite Forall_forall in Hrows. apply Hrows.
    exact (nth_error_In _ _ Hrow). }
  unfold setCell. destruct (gridX <? 0) eqn:Hneg; [exact Hrowq|].
  destruct (Z.to_nat gridX <? length row)%nat eqn:Hin.
  - now apply replace_Forall.
  - apply Nat.ltb_ge in Hin. lia.
Qed.

Lemma stampPiece_cells (Q : Cell -> Prop) (w h : nat) (cp : Tetromino) (g : Grid) :
  hasDims w h g -> Forall (Forall Q) g -> Q (CTag (color cp)) ->
  (forall iy ix, occupiedAt (shape cp) iy ix ->
     y (position cp) + Z.of_nat iy < 0 \/
     (y (position cp) + Z.of_nat iy < Z.of_nat h /\
      0 <= x (position cp) + Z.of_nat ix < Z.of_nat w)) ->
  exists newGrid, stampPiece cp g = Ok newGrid /\ hasDims w h newGrid /\
                  Forall (Forall Q) newGrid.
Proof.
  intros Hg Hcells Hc Hin. unfold stampPiece.
  destruct (forEachM_invariant
              (fun g0 => hasDims w h g0 /\ Forall (Forall Q) g0)
              (fun iy row newGrid => forEachM (stampCell cp iy) 0 row newGrid)
              (shape cp) 0 g (conj Hg Hcells)) as (g' & Hg' & Hd' & Hc'); [|eauto].
  intros iy row g1 Hrow Hg1. cbn [Nat.add].
  apply forEachM_invariant; [exact Hg1|].
  intros ix v g2 Hv [Hd2 Hc2]. cbn [Nat.add]. unfold stampCell.
  destruct (truthyNum v) eqn:Htr; [|eauto].
  destruct (_ >=? 0) eqn:Hge; [|eauto].
  apply Z.geb_le in Hge.
  assert (Hocc : occupiedAt (shape cp) iy ix).
  { exists row, v. repeat split; auto.
    unfold truthyNum in Htr. now apply negb_true_iff, Z.eqb_neq in Htr. }
  destruct (Hin iy ix Hocc) as [Hneg|[Hy Hx]]; [lia|].
  destruct (writeCell_cells Q w h g2 (y (position cp) + Z.of_nat iy)
              (x (position cp) + Z.of_nat ix) (CTag (color cp)) Hd2 Hc2 Hc)
    as (g3 & H3 & Hd3 & Hc3); [lia | exact Hx | eauto].
Qed.

Lemma SCORING_nonneg (k : Z) : 0 <= SCORING k.
Proof.
  unfold SCORING.
  destruct (k =? 1); [lia|]. destruct (k =? 2); [lia|].
  destruct (k =? 3); [lia|]. destruct (k =? 4); lia.
Qed.

Lemma catalogCell_emptyRow (cfg : Config) : Forall catalogCell (emptyRow cfg).
Proof.
  unfold emptyRow. apply Forall_forall. intros c Hin.
  apply repeat_spec in Hin. subst c. now left.
Qed.

Lemma lockPiece_sound (t : TetrominoType) (s s' : GameState) (cp : Tetromino) :
  config s = config initialState -> configured (config s) (grid s) ->
  Forall (Forall catalogCell) (grid s) -> catalogPiece (nextPiece s) ->
  0 <= score s -> 0 <= lines s -> level s = lines s / 10 + 1 ->
  currentPiece s = Some cp -> inField (grid s) cp ->
  color cp = def_color (TETROMINOES (type cp)) ->
  lockPiece t s = Ok s' -> sound s'.
Proof.
  intros Hconf Hcfg Hcells Hnext Hscore0 Hlines0 Hlevel Hcp Hin Hcolor Hlock.
  destruct (configured_width _ _ Hcfg) as (Hw & Hh & _).
  destruct (stampPiece_cells catalogCell (Z.to_nat (width (config s)))
              (Z.to_nat (height (config s))) cp (grid s) (proj1 Hcfg) Hcells)
    as (newGrid & Hstamp & Hdims & Hcells').
  { right. exists (type cp). now rewrite Hcolor. }
  { intros iy ix Hocc. right. destruct (Hin iy ix Hocc) as [Hc Hr].
    destruct Hcfg as [_ [Hw0 Hh0]]. rewrite !Z2Nat.id by lia. lia. }
  assert (Hcfg' : configured (config s) newGrid) by (split; [exact Hdims | apply Hcfg]).
  destruct (lockPiece_inv t s s' cp Hcp Hlock)
    as (g1 & g2 & hit & Hs & Hr & Hc & Hg & Hscore & _ & Hsame & _ & Hover & Hon).
  rewrite Hstamp in Hs. injection Hs as <-.
  rewrite (refill_configured _ _ Hcfg') in Hr. injection Hr as <-.
  pose proof (refilled_dims _ _ Hcfg') as Hcfg''.
  destruct (configured_width _ _ Hcfg'') as (_ & _ & Hne).
  assert (Hwidth : 0 < width (config s)) by (rewrite Hconf; reflexivity).
  assert (Hlvl : 1 <= level s).
  { rewrite Hlevel. pose proof (Z.div_pos (lines s) 10 Hlines0 ltac:(lia)). lia. }
  assert (Hk : 0 <= clearedLinesCount newGrid) by (unfold clearedLinesCount; lia).
  unfold sound. rewrite Hsame, Hg. splits.
  - exact Hconf.
  - exact Hcfg''.
  - apply Forall_app. split.
    + apply Forall_forall. intros row Hrow. apply repeat_spec in Hrow. subst row.
      apply catalogCell_emptyRow.
    + unfold keptRows. rewrite Forall_forall in *. intros row Hrow.
      apply filter_In in Hrow. apply Hcells', Hrow.
  - apply Forall_app. split.
    + apply Forall_forall. intros row Hrow. apply repeat_spec in Hrow. subst row.
      now apply rowFull_emptyRow.
    + apply Forall_forall. intros row Hrow. apply filter_In in Hrow.
      destruct Hrow as [_ Hnf]. now apply negb_true_iff in Hnf.
  - destruct hit.
    + destruct (Hover eq_refl) as (_ & _ & _ & _ & _ & ->). exact Hnext.
    + destruct (Hon eq_refl) as (_ & _ & _ & _ & _ & ->). apply getRandomPiece_catalog.
  - intros p Hp. destruct hit.
    + destruct (Hover eq_refl) as (_ & Hnone & _). congruence.
    + destruct (Hon eq_refl) as (_ & Hsome & _).
      rewrite Hsome in Hp. injection Hp as <-. split.
      * apply validPiece_inField.
        eapply (checked_valid (spawned s));
          [exact Hne | exact Hc | reflexivity | cbn; lia | cbn; lia].
      * apply catalog_soundPiece. exact Hnext.
  - rewrite Hscore. destruct (clearedLinesCount newGrid >? 0); [|lia].
    pose proof (SCORING_nonneg (clearedLinesCount newGrid)). nia.
  - destruct hit.
    + destruct (Hover eq_refl) as (_ & _ & -> & _). exact Hlines0.
    + destruct (Hon eq_refl) as (_ & _ & -> & _). lia.
  - destruct hit.
    + destruct (Hover eq_refl) as (_ & _ & -> & -> & _). exact Hlevel.
    + destruct (Hon eq_refl) as (_ & _ & -> & -> & _). reflexivity.
Qed.

Lemma sound_grid_size (s : GameState) :
  sound s -> gridWidth (grid s) = 10 /\ gridHeight (grid s) = 20 /\ grid s <> [].
Proof.
  intros (Hconf & Hcfg & _).
  destruct (configured_width _ _ Hcfg) as (Hw & Hh & Hne).
  rewrite Hw, Hh, Hconf. splits; auto.
Qed.

(** Replacing the active piece of a sound state by a piece that is inside
    the field and sound. *)
Lemma sound_withCurrentPiece (s : GameState) (c : option Tetromino) :
  sound s ->
  (forall p, c = Some p -> inField (grid s) p /\ soundPiece p) ->
  sound (withCurrentPiece s c).
Proof.
  intros (H1 & H2 & H3 & H4 & H5 & _ & H7) Hc. unfold sound.
  cbn [config grid nextPiece currentPiece score lines level withCurrentPiece].
  splits; auto; apply H7.
Qed.

Lemma inField_same (g : Grid) (p q : Tetromino) :
  shape q = shape p -> x (position q) = x (position p) ->
  y (position q) = y (position p) -> inField g p -> inField g q.
Proof.
  intros Hs Hx Hy Hp iy ix Hocc. rewrite Hs in Hocc. rewrite Hx, Hy.
  exact (Hp iy ix Hocc).
Qed.

Lemma soundPiece_same (p q : Tetromino) :
  shape q = shape p -> color q = color p -> type q = type p ->
  soundPiece p -> soundPiece q.
Proof. intros Hs Hc Ht Hp. unfold soundPiece. rewrite Hs, Hc, Ht. exact Hp. Qed.

(** Closes the placement inside the field of a piece by the call of
    [checkCollision] that let it through. *)
Ltac inField_by cp H :=
  apply validPiece_inField; eapply (checked_valid cp);
  [eassumption | exact H | reflexivity | cbn; lia | cbn; lia].

Lemma dispatch_sound (i : Intent) (s s' : GameState) :
  sound s -> dispatch i s = Ok s' -> sound s'.
Proof.
  intros Hsound Hstep.
  destruct (sound_grid_size s Hsound) as (Hw & Hh & Hne).
  pose proof Hsound as (Hconf & Hcfg & Hcells & Hnofull & Hnext & Hcur & Hsc & Hli & Hlv).
  destruct i as [t1 t2|t dx dy|fuel dx|cw|fuel t|t|]; simpl in Hstep.
  - (* startGame *)
    injection Hstep as <-. unfold sound.
    cbn [config grid nextPiece currentPiece score lines level startGame].
    rewrite Hconf. splits; try reflexivity; try lia.
    + split; [split; [reflexivity | vm_compute; repeat constructor]|].
      vm_compute. split; [discriminate | reflexivity].
    + vm_compute. repeat constructor; now left.
    + vm_compute. repeat constructor.
    + split; reflexivity.
    + intros p Hp. injection Hp as <-. split.
      * apply spawn_inField; [reflexivity | reflexivity | | reflexivity].
        apply catalog_soundPiece. split; reflexivity.
      * apply catalog_soundPiece. split; reflexivity.
  - (* move *)
    unfold move in Hstep. destruct (currentPiece s) as [cp|] eqn:Hcp.
    2:{ now injection Hstep as <-. }
    destruct (Hcur cp eq_refl) as [Hin Hsp].
    destruct (negb (isPlaying s)); [now injection Hstep as <-|].
    destruct (isFrozen s && negb (dy =? 0)); [now injection Hstep as <-|].
    apply bind_Ok in Hstep. destruct Hstep as (hit & Hhit & Hstep).
    destruct hit; cbn [negb] in Hstep.
    + destruct (dy >? 0); [|now injection Hstep as <-].
      apply (lockPiece_sound t s s' cp); auto. apply Hsp.
    + injection Hstep as <-. apply sound_withCurrentPiece; [exact Hsound|].
      intros p Hp. injection Hp as <-. split; [inField_by cp Hhit|].
      now apply (soundPiece_same cp).
  - (* moveToEnd *)
    unfold moveToEnd in Hstep. destruct (currentPiece s) as [cp|] eqn:Hcp.
    2:{ now injection Hstep as <-. }
    destruct (Hcur cp eq_refl) as [Hin Hsp].
    destruct (negb (isPlaying s) || isFrozen s); [now injection Hstep as <-|].
    apply bind_Ok in Hstep. destruct Hstep as (f & Hf & Hstep).
    injection Hstep as <-. apply sound_withCurrentPiece; [exact Hsound|].
    intros p Hp. injection Hp as <-. split; [|now apply (soundPiece_same cp)].
    destruct (slideLoop_checked cp (grid s) dx fuel 0 f Hf) as [->|Hchk].
    + apply (inField_same (grid s) cp); [reflexivity | apply Z.add_0_r | reflexivity|].
      exact Hin.
    + inField_by cp Hchk.
  - (* rotate *)
    unfold rotate in Hstep. destruct (currentPiece s) as [cp|] eqn:Hcp.
    2:{ now injection Hstep as <-. }
    destruct (Hcur cp eq_refl) as [Hin Hsp].
    destruct (negb (isPlaying s) || isFrozen s); [now injection Hstep as <-|].
    apply bind_Ok in Hstep. destruct Hstep as (newShape & Hrot & Hstep).
    apply bind_Ok in Hstep. destruct Hstep as (hit & Hhit & Hstep).
    destruct hit; cbn [negb] in Hstep; injection Hstep as <-; [exact Hsound|].
    apply sound_withCurrentPiece; [exact Hsound|].
    intros p Hp. injection Hp as <-. split; [inField_by cp Hhit|].
    exact (rotateShape_sound cw cp newShape Hsp Hrot).
  - (* hardDrop *)
    unfold hardDrop in Hstep. destruct (currentPiece s) as [cp|] eqn:Hcp.
    2:{ now injection Hstep as <-. }
    destruct (Hcur cp eq_refl) as [Hin Hsp].
    destruct (negb (isPlaying s)); [now injection Hstep as <-|].
    apply bind_Ok in Hstep. destruct Hstep as (d & Hd & Hstep).
    apply (lockPiece_sound t (withCurrentPiece s (Some (droppedPiece cp d))) s'
             (droppedPiece cp d)); auto; [|apply Hsp].
    cbn [grid withCurrentPiece].
    destruct (dropLoop_checked cp (grid s) fuel 0 d Hd) as [->|Hchk].
    + apply (inField_same (grid s) cp); [reflexivity | reflexivity | apply Z.add_0_r|].
      exact Hin.
    + inField_by cp Hchk.
  - (* holdPiece *)
    injection Hstep as <-. unfold holdPiece.
    destruct (currentPiece s) as [cp|] eqn:Hcp; [|exact Hsound].
    destruct (negb (canHold s) || negb (isPlaying s)); [exact Hsound|].
    assert (Hspawn : width (config s) / 2 - 2 = 3) by (rewrite Hconf; reflexivity).
    destruct (heldPiece s) as [held|]; unfold sound;
      cbn [config grid nextPiece currentPiece score lines level];
      splits; auto; try apply getRandomPiece_catalog;
      intros p Hp; injection Hp as <-.
    + assert (Hsp : soundPiece
                      {| type := type held; shape := def_shape (TETROMINOES (type held));
                         color := def_color (TETROMINOES (type held));
                         position := {| x := width (config s) / 2 - 2; y := 0 |} |})
        by (apply catalog_soundPiece; split; reflexivity).
      split; [|exact Hsp].
      apply spawn_inField; auto. cbn [position]. now rewrite Hspawn.
    + assert (Hsp : soundPiece
                      (withPosition (nextPiece s)
                         {| x := width (config s) / 2 - 2; y := 0 |}))
        by (apply catalog_soundPiece; exact Hnext).
      split; [|exact Hsp].
      apply spawn_inField; auto. cbn [position withPosition]. now rewrite Hspawn.
  - (* toggleFreeze *)
    injection Hstep as <-. unfold toggleFreeze.
    destruct (negb (isPlaying s)); [exact Hsound|]. exact Hsound.
Qed.

Lemma reachable_sound (s : GameState) : reachable s -> sound s.
Proof.
  induction 1 as [|i s s' _ IH Hstep].
  - unfold sound. splits; try reflexivity; try (cbn; lia).
    + split; [split; [reflexivity | vm_compute; repeat constructor]|].
      vm_compute. split; [discriminate | reflexivity].
    + vm_compute. repeat constructor; now left.
    + vm_compute. repeat constructor.
    + split; reflexivity.
    + intros p Hp. discriminate.
  - exact (dispatch_sound i s s' IH Hstep).
Qed.

(** ** Invariants of a session *)

Lemma catalogCell_truthy (c : Cell) : catalogCell c -> truthyCell c = notNull c.
Proof.
  intros [->|(t & ->)]; [reflexivity|].
  destruct (catalog_color_truthy t) as [-> ->]. reflexivity.
Qed.

(** X9.  In every state of a session, with or without holds, the grid has 20
    rows of 10 cells; every cell is [null] or a colour of the catalog, so no
    cell is a hole and a cell is truthy exactly when it is not [null]; and no
    row is full. *)
Theorem session_grid (s : GameState) :
  reachable s ->
  hasDims 10 20 (grid s) /\
  (forall row c, In row (grid s) -> In c row ->
                 catalogCell c /\ truthyCell c = notNull c) /\
  Forall (fun row => rowFull row = false) (grid s).
Proof.
  intros Hreach.
  destruct (reachable_sound s Hreach) as (Hconf & Hcfg & Hcells & Hnofull & _).
  splits.
  - destruct Hcfg as [Hdims _]. rewrite Hconf in Hdims. exact Hdims.
  - intros row c Hrow Hc. rewrite Forall_forall in Hcells.
    specialize (Hcells row Hrow). rewrite Forall_forall in Hcells.
    split; [auto | apply catalogCell_truthy; auto].
  - exact Hnofull.
Qed.

(** The session that has cleared a row. *)
Lemma session_grid_witness :
  reachable clearedState /\ hasDims 10 20 (grid clearedState).
Proof.
  split; [exact clearedState_reachable|].
  exact (proj1 (session_grid clearedState clearedState_reachable)).
Defined.

(** X10.  In every state of a session the active piece, if there is one, is
    between the side walls and above the floor (also the piece that a hold
    has installed), its shape is a square matrix of side 1 to 4 with an
    occupied cell and its colour is the one of its kind; the queued piece
    carries the shape and the colour of the catalog. *)
Theorem session_pieces (s : GameState) :
  reachable s ->
  catalogPiece (nextPiece s) /\
  forall p, currentPiece s = Some p ->
    inField (grid s) p /\
    (exists n, (0 < n <= 4)%nat /\ isSquare n (shape p)) /\
    (exists iy ix, occupiedAt (shape p) iy ix) /\
    color p = def_color (TETROMINOES (type p)).
Proof.
  intros Hreach.
  destruct (reachable_sound s Hreach) as (_ & _ & _ & _ & Hnext & Hcur & _).
  split; [exact Hnext|]. intros p Hp. destruct (Hcur p Hp) as [Hin Hsp].
  split; [exact Hin | exact Hsp].
Qed.

(** The state in which the hold of C2 has installed the I piece over the
    tower: the piece overlaps a settled cell, and is inside the field. *)
Lemma session_pieces_witness :
  reachable (holdPiece KT towerState) /\
  inField (grid (holdPiece KT towerState))
          (withPosition (getRandomPiece KI 10) {| x := 3; y := 0 |}).
Proof.
  assert (Hreach : reachable (holdPiece KT towerState)).
  { apply (reachable_step (Hold KT) towerState_reachable). reflexivity. }
  split; [exact Hreach|].
  destruct (session_pieces _ Hreach) as (_ & Hcur).
  apply Hcur. vm_compute. reflexivity.
Defined.

(** ** No updater raises in a session *)

Lemma collides_beyond_wall (cp : Tetromino) (g : Grid) (moveX moveY : Z)
    (iy ix : nat) :
  occupiedAt (shape cp) iy ix ->
  (x (position cp) + Z.of_nat ix + moveX < 0 \/
   gridWidth g <= x (position cp) + Z.of_nat ix + moveX) ->
  collides cp g moveX moveY (shape cp) = true.
Proof.
  intros Hocc Hwall. apply collides_true_iff. exists iy, ix.
  split; [exact Hocc|]. unfold blocked, landX. lia.
Qed.

(** If the piece collides [n + 1] steps of [dx] beyond the offset
    [finalDx], the sliding loop returns within [n + 1] iterations. *)
Lemma slideLoop_returns (cp : Tetromino) (g : Grid) (dx : Z) :
  g <> [] ->
  forall (n : nat) (finalDx : Z),
    collides cp g (finalDx + dx * (Z.of_nat n + 1)) 0 (shape cp) = true ->
    forall fuel, (n < fuel)%nat -> exists f, slideLoop fuel cp g dx finalDx = Ok f.
Proof.
  intros Hg. induction n as [|n IH]; intros finalDx Hhit fuel Hfuel;
    (destruct fuel as [|fuel]; [lia|]); simpl;
    rewrite checkCollision_collides by exact Hg; cbn [bind activeShape].
  - replace (finalDx + dx * (Z.of_nat 0 + 1)) with (finalDx + dx) in Hhit by lia.
    rewrite Hhit. eauto.
  - destruct (collides cp g (finalDx + dx) 0 (shape cp)); [eauto|].
    apply IH; [|lia]. rewrite <- Hhit. f_equal. lia.
Qed.

(** [lockPiece] returns on a state of the configured size whose piece is
    inside the field. *)
Lemma lockPiece_returns_inField (t : TetrominoType) (s : GameState) (cp : Tetromino) :
  configured (config s) (grid s) -> currentPiece s = Some cp ->
  inField (grid s) cp -> exists s', lockPiece t s = Ok s'.
Proof.
  intros Hcfg Hcp Hin.
  destruct (configured_width _ _ Hcfg) as (Hw & Hh & _).
  destruct (stampPiece_dims (Z.to_nat (width (config s)))
              (Z.to_nat (height (config s))) cp (grid s) (proj1 Hcfg))
    as (newGrid & Hstamp & Hdims).
  { intros iy ix Hocc. right. destruct (Hin iy ix Hocc) as [Hc Hr].
    destruct Hcfg as [_ [Hw0 Hh0]]. rewrite !Z2Nat.id by lia. lia. }
  apply (lockPiece_returns t s cp newGrid Hcp Hstamp).
  split; [exact Hdims | apply Hcfg].
Qed.

Lemma dispatch_returns (i : Intent) (s : GameState) :
  sound s -> enoughFuel i s -> exists s', dispatch i s = Ok s'.
Proof.
  intros Hsound Hfuel.
  destruct (sound_grid_size s Hsound) as (Hw & Hh & Hne).
  pose proof Hsound as (Hconf & Hcfg & _ & _ & _ & Hcur & _).
  destruct i as [t1 t2|t dx dy|fuel dx|cw|fuel t|t|]; simpl; eauto.
  - (* move *)
    unfold move. destruct (currentPiece s) as [cp|] eqn:Hcp; [|eauto].
    destruct (Hcur cp eq_refl) as [Hin Hsp].
    destruct (negb (isPlaying s)); [eauto|].
    destruct (isFrozen s && negb (dy =? 0)); [eauto|].
    rewrite checkCollision_collides by exact Hne. cbn [bind].
    destruct (collides cp (grid s) dx dy _); cbn [negb]; [|eauto].
    destruct (dy >? 0); [|eauto].
    exact (lockPiece_returns_inField t s cp Hcfg Hcp Hin).
  - (* moveToEnd *)
    destruct Hfuel as [Hdx Hfuel].
    unfold moveToEnd. destruct (currentPiece s) as [cp|] eqn:Hcp; [|eauto].
    destruct (Hcur cp eq_refl) as [Hin (_ & (iy & ix & Hocc) & _)].
    destruct (negb (isPlaying s) || isFrozen s); [eauto|].
    destruct (slideLoop_returns cp (grid s) dx Hne 9 0) with (fuel := fuel)
      as (f & Hf).
    + apply (collides_beyond_wall cp (grid s) _ 0 iy ix Hocc).
      destruct (Hin iy ix Hocc) as [Hc _]. rewrite Hw in *. lia.
    + unfold INITIAL_WIDTH in Hfuel. lia.
    + rewrite Hf. cbn [bind]. eauto.
  - (* rotate *)
    unfold rotate. destruct (currentPiece s) as [cp|] eqn:Hcp; [|eauto].
    destruct (Hcur cp eq_refl) as [Hin ((n & Hn & Hsq) & _)].
    destruct (negb (isPlaying s) || isFrozen s); [eauto|].
    assert (Hrot : exists newShape, rotateShape cw (shape cp) = Ok newShape).
    { destruct cw;
        [rewrite (rotateShape_square n _ Hsq) by lia
        | rewrite (rotateShape_ccw_square n _ Hsq) by lia]; eauto. }
    destruct Hrot as (newShape & ->). cbn [bind].
    rewrite checkCollision_collides by exact Hne. cbn [bind].
    destruct (collides cp (grid s) 0 0 _); cbn [negb]; eauto.
  - (* hardDrop *)
    unfold hardDrop. destruct (currentPiece s) as [cp|] eqn:Hcp; [|eauto].
    destruct (Hcur cp eq_refl) as [Hin (_ & (iy & ix & Hocc) & _)].
    destruct (negb (isPlaying s)); [eauto|].
    specialize (Hfuel cp Hcp). unfold INITIAL_HEIGHT in Hfuel.
    set (n := Z.to_nat (gridHeight (grid s) - y (position cp) - Z.of_nat iy)).
    destruct (dropLoop_finds cp (grid s) Hne n 0) as (d & Hd & Hfree & Hstop & Hrun).
    { apply (collides_below_floor cp (grid s) 0 _ iy ix Hocc). unfold n. lia. }
    rewrite Hrun by (unfold n; rewrite Hh; lia). cbn [bind].
    apply (lockPiece_returns_inField t _ (droppedPiece cp d)); [exact Hcfg | reflexivity|].
    cbn [grid withCurrentPiece].
    destruct (Z.eq_dec d 0) as [->|Hpos].
    + apply (inField_same (grid s) cp); [reflexivity | reflexivity | apply Z.add_0_r|].
      exact Hin.
    + intros jy jx Hj. cbn [droppedPiece withPosition position shape x y] in *.
      assert (Hd' : collides cp (grid s) 0 d (shape cp) = false) by (apply Hfree; lia).
      destruct (collides_false_inField cp (grid s) d Hd' jy jx Hj). lia.
Qed.

(** X11.  In every state of a session, with or without holds, no updater
    raises: every intent returns a state, given fuel for its loop (more than
    the distance from the piece to row 20 for a hard drop, at least 10 for a
    slide, which must have a direction). *)
Theorem session_never_raises (i : Intent) (s : GameState) :
  reachable s -> enoughFuel i s -> exists s', dispatch i s = Ok s'.
Proof.
  intros Hreach Hfuel. exact (dispatch_returns i s (reachable_sound s Hreach) Hfuel).
Qed.

(** The state in which the hold of C2 has installed an overlapping piece: a
    hard drop returns. *)
Lemma session_never_raises_witness :
  (reachable (holdPiece KT towerState) /\
   enoughFuel (HardDrop 32 KS) (holdPiece KT towerState)) /\
  exists s', dispatch (HardDrop 32 KS) (holdPiece KT towerState) = Ok s'.
Proof.
  assert (Hreach : reachable (holdPiece KT towerState)).
  { apply (reachable_step (Hold KT) towerState_reachable). reflexivity. }
  assert (Hfuel : enoughFuel (HardDrop 32 KS) (holdPiece KT towerState)).
  { intros cp Hcp. vm_compute in Hcp. injection Hcp as <-. vm_compute. lia. }
  split; [split; assumption|].
  exact (session_never_raises _ _ Hreach Hfuel).
Defined.

(** ** The counters of a session *)

Lemma lockPiece_step (t : TetrominoType) (s s' : GameState) (cp : Tetromino) :
  Forall (fun row => rowFull row = false) (grid s) ->
  (length (shape cp) <= 4)%nat ->
  currentPiece s = Some cp -> lockPiece t s = Ok s' ->
  exists k, 0 <= k <= 4 /\
            score s' = score s + SCORING k * level s /\
            (lines s' = lines s \/ lines s' = lines s + k).
Proof.
  intros Hnofull Hrows Hcp Hlock.
  destruct (lockPiece_inv t s s' cp Hcp Hlock)
    as (newGrid & g2 & hit & Hs & _ & _ & _ & Hscore & _ & _ & _ & Hover & Hon).
  pose proof (stampPiece_count cp (grid s) newGrid Hs) as Hcount.
  rewrite (no_full_rows_filter _ Hnofull) in Hcount. simpl in Hcount.
  exists (clearedLinesCount newGrid). unfold clearedLinesCount in *. splits; try lia.
  - rewrite Hscore.
    destruct (Z.of_nat (length (filter rowFull newGrid)) >? 0) eqn:Hk; [reflexivity|].
    assert (Hzero : Z.of_nat (length (filter rowFull newGrid)) = 0).
    { destruct (Z.gtb_spec (Z.of_nat (length (filter rowFull newGrid))) 0);
        [discriminate | lia]. }
    rewrite Hzero. reflexivity.
  - destruct hit.
    + left. apply (Hover eq_refl).
    + right. apply (Hon eq_refl).
Qed.

Lemma dispatch_step (i : Intent) (s s' : GameState) :
  sound s -> dispatch i s = Ok s' -> (forall t1 t2, i <> Start t1 t2) ->
  exists k, 0 <= k <= 4 /\
            score s' = score s + SCORING k * level s /\
            (lines s' = lines s \/ lines s' = lines s + k).
Proof.
  intros Hsound Hstep Hnostart.
  pose proof Hsound as (_ & _ & _ & Hnofull & _ & Hcur & _).
  assert (Hquiet : forall s1, score s1 = score s -> lines s1 = lines s ->
                              exists k, 0 <= k <= 4 /\
                                        score s1 = score s + SCORING k * level s /\
                                        (lines s1 = lines s \/ lines s1 = lines s + k)).
  { intros s1 Hs Hl. exists 0. splits; try lia.
    rewrite Hs. cbn. lia. }
  assert (Hrows : forall cp, soundPiece cp -> (length (shape cp) <= 4)%nat).
  { intros cp ((n & Hn & [Hlen _]) & _). lia. }
  destruct i as [t1 t2|t dx dy|fuel dx|cw|fuel t|t|]; simpl in Hstep.
  - exfalso. exact (Hnostart t1 t2 eq_refl).
  - unfold move in Hstep. destruct (currentPiece s) as [cp|] eqn:Hcp.
    2:{ injection Hstep as <-. now apply Hquiet. }
    destruct (Hcur cp eq_refl) as [_ Hsp].
    destruct (negb (isPlaying s)); [injection Hstep as <-; now apply Hquiet|].
    destruct (isFrozen s && negb (dy =? 0)); [injection Hstep as <-; now apply Hquiet|].
    apply bind_Ok in Hstep. destruct Hstep as (hit & _ & Hstep).
    destruct hit; cbn [negb] in Hstep; [|injection Hstep as <-; now apply Hquiet].
    destruct (dy >? 0); [|injection Hstep as <-; now apply Hquiet].
    exact (lockPiece_step t s s' cp Hnofull (Hrows cp Hsp) Hcp Hstep).
  - unfold moveToEnd in Hstep. destruct (currentPiece s) as [cp|].
    2:{ injection Hstep as <-. now apply Hquiet. }
    destruct (negb (isPlaying s) || isFrozen s); [injection Hstep as <-; now apply Hquiet|].
    apply bind_Ok in Hstep. destruct Hstep as (f & _ & Hstep).
    injection Hstep as <-. now apply Hquiet.
  - unfold rotate in Hstep. destruct (currentPiece s) as [cp|].
    2:{ injection Hstep as <-. now apply Hquiet. }
    destruct (negb (isPlaying s) || isFrozen s); [injection Hstep as <-; now apply Hquiet|].
    apply bind_Ok in Hstep. destruct Hstep as (newShape & _ & Hstep).
    apply bind_Ok in Hstep. destruct Hstep as (hit & _ & Hstep).
    destruct hit; cbn [negb] in Hstep; injection Hstep as <-; now apply Hquiet.
  - unfold hardDrop in Hstep. destruct (currentPiece s) as [cp|] eqn:Hcp.
    2:{ injection Hstep as <-. now apply Hquiet. }
    destruct (Hcur cp eq_refl) as [_ Hsp].
    destruct (negb (isPlaying s)); [injection Hstep as <-; now apply Hquiet|].
    apply bind_Ok in Hstep. destruct Hstep as (d & _ & Hstep).
    exact (lockPiece_step t (withCurrentPiece s (Some (droppedPiece cp d))) s'
             (droppedPiece cp d) Hnofull (Hrows cp Hsp) eq_refl Hstep).
  - injection Hstep as <-. destruct (holdPiece_counters t s) as (Hs & Hl & _).
    now apply Hquiet.
  - injection Hstep as <-. destruct (toggleFreeze_counters s) as (Hs & Hl & _).
    now apply Hquiet.
Qed.

(** X12.  In every state of a session the score and the lines counter are
    at least 0 and the level is at least 1; and an intent other than a start
    never lowers the score, the lines counter or the level. *)
Theorem session_counters (i : Intent) (s s' : GameState) :
  reachable s -> dispatch i s = Ok s' ->
  0 <= score s /\ 0 <= lines s /\ 1 <= level s /\
  ((forall t1 t2, i <> Start t1 t2) ->
   score s <= score s' /\ lines s <= lines s' /\ level s <= level s').
Proof.
  intros Hreach Hstep.
  pose proof (reachable_sound s Hreach) as Hsound.
  pose proof (dispatch_sound i s s' Hsound Hstep) as Hsound'.
  destruct Hsound as (_ & _ & _ & _ & _ & _ & Hsc & Hli & Hlv).
  destruct Hsound' as (_ & _ & _ & _ & _ & _ & _ & _ & Hlv').
  assert (Hlevel : 1 <= level s).
  { rewrite Hlv. pose proof (Z.div_pos (lines s) 10 Hli ltac:(lia)). lia. }
  splits; try assumption.
  intros Hnostart.
  destruct (dispatch_step i s s' (reachable_sound s Hreach) Hstep Hnostart)
    as (k & Hk & Hscore & Hlines).
  pose proof (SCORING_nonneg k) as Hsk.
  assert (Hmono : lines s <= lines s') by (destruct Hlines; lia).
  splits; [nia | exact Hmono|].
  rewrite Hlv, Hlv'. pose proof (Z.div_le_mono (lines s) (lines s') 10 ltac:(lia) Hmono).
  lia.
Qed.

(** The hard drop that clears a row in the session [clearIntents]. *)
Lemma session_counters_witness :
  (reachable (resultOr initialState (run (removelast clearIntents) initialState)) /\
   dispatch (HardDrop 32 KS)
     (resultOr initialState (run (removelast clearIntents) initialState))
   = Ok clearedState) /\
  0 <= score (resultOr initialState (run (removelast clearIntents) initialState)).
Proof.
  assert (Hrun : run (removelast clearIntents) initialState
                 = Ok (resultOr initialState
                         (run (removelast clearIntents) initialState)))
    by (vm_compute; reflexivity).
  assert (Hreach : reachable (resultOr initialState
                                (run (removelast clearIntents) initialState)))
    by exact (run_reachable _ _ _ reachable_initial Hrun).
  assert (Hstep : dispatch (HardDrop 32 KS)
                    (resultOr initialState (run (removelast clearIntents) initialState))
                  = Ok clearedState) by (vm_compute; reflexivity).
  split; [split; assumption|].
  exact (proj1 (session_counters _ _ _ Hreach Hstep)).
Defined.

(** X13.  In a session an intent other than a start changes the score by the
    table value of some number [k] of rows between 0 and 4, times the level
    before the intent, and the lines counter by [k] or not at all: a lock
    never clears more than four rows, so the fallback [|| 0] of the table
    lookup is never taken for a positive count. *)
Theorem session_score_step (i : Intent) (s s' : GameState) :
  reachable s -> dispatch i s = Ok s' -> (forall t1 t2, i <> Start t1 t2) ->
  exists k, 0 <= k <= 4 /\
            score s' = score s + SCORING k * level s /\
            (lines s' = lines s \/ lines s' = lines s + k).
Proof.
  intros Hreach Hstep Hnostart.
  exact (dispatch_step i s s' (reachable_sound s Hreach) Hstep Hnostart).
Qed.

(** The gravity tick that ends the session of C3: one row, 100 points, and
    the lines counter not changed. *)
Lemma session_score_step_witness :
  (reachable restingState /\
   dispatch (Move KI 0 1) restingState
   = Ok (resultOr initialState (lockPiece KI restingState)) /\
   forall t1 t2, Move KI 0 1 <> Start t1 t2) /\
  exists k, 0 <= k <= 4 /\
            score (resultOr initialState (lockPiece KI restingState))
            = score restingState + SCORING k * level restingState.
Proof.
  assert (Hstep : dispatch (Move KI 0 1) restingState
                  = Ok (resultOr initialState (lockPiece KI restingState)))
    by (vm_compute; reflexivity).
  assert (Hno : forall t1 t2, Move KI 0 1 <> Start t1 t2) by discriminate.
  split; [splits; auto; exact restingState_reachable|].
  destruct (session_score_step _ _ _ restingState_reachable Hstep Hno)
    as (k & Hk & Hscore & _).
  exists k. split; assumption.
Defined.

(** ** The cells that a stamp writes *)

Lemma replace_nth {A : Type} (l : list A) (a d : A) :
  forall i k, (i < length l)%nat ->
    nth k (firstn i l ++ a :: skipn (S i) l) d
    = if (k =? i)%nat then a else nth k l d.
Proof.
  induction l as [|b l IH]; simpl; intros i k Hi; [lia|].
  destruct i as [|i]; simpl.
  - destruct k; reflexivity.
  - destruct k as [|k]; [reflexivity|]. simpl. apply IH. lia.
Qed.

Lemma writeCell_cellAt (w h : nat) (g g' : Grid) (gridY gridX : Z) (tag : Cell) :
  hasDims w h g -> 0 <= gridY < Z.of_nat h -> 0 <= gridX < Z.of_nat w ->
  writeCell g gridY gridX tag = Ok g' ->
  forall r c, 0 <= r -> 0 <= c ->
    cellAt g' r c = if (r =? gridY) && (c =? gridX) then tag else cellAt g r c.
Proof.
  intros [Hlen Hrows] Hy Hx Hw r c Hr Hc. unfold writeCell in Hw.
  destruct (nth_error g (Z.to_nat gridY)) as [row|] eqn:Hrow; [|discriminate].
  injection Hw as <-.
  assert (Hroww : length row = w).
  { rewrite Forall_forall in Hrows. apply Hrows. exact (nth_error_In _ _ Hrow). }
  unfold cellAt.
  destruct (r <? 0) eqn:Hr0; [apply Z.ltb_lt in Hr0; lia|].
  destruct (c <? 0) eqn:Hc0; [apply Z.ltb_lt in Hc0; lia|]. cbn [orb].
  change (match g with [] => [] | _ :: l => skipn (Z.to_nat gridY) l end)
    with (skipn (S (Z.to_nat gridY)) g).
  rewrite replace_nth by lia.
  destruct (Nat.eqb_spec (Z.to_nat r) (Z.to_nat gridY)) as [Heq|Hne].
  - assert (r = gridY) by lia. subst r. rewrite Z.eqb_refl. cbn [andb].
    rewrite (nth_error_nth _ _ [] Hrow).
    unfold setCell. destruct (gridX <? 0) eqn:Hneg; [apply Z.ltb_lt in Hneg; lia|].
    destruct (Z.to_nat gridX <? length row)%nat eqn:Hin;
      [|apply Nat.ltb_ge in Hin; lia].
    rewrite replace_nth by (apply Nat.ltb_lt; exact Hin).
    destruct (Nat.eqb_spec (Z.to_nat c) (Z.to_nat gridX)) as [Hceq|Hcne].
    + assert (c = gridX) by lia. subst c. now rewrite Z.eqb_refl.
    + destruct (Z.eqb_spec c gridX); [subst; lia | reflexivity].
  - destruct (Z.eqb_spec r gridY); [subst; lia | reflexivity].
Qed.

(** A [forEachM] loop whose body takes the invariant of step [k] to the
    invariant of step [k + 1] returns, with the invariant of the last
    step. *)
Lemma forEachM_indexed {A St : Type} (P : nat -> St -> Prop)
    (body : nat -> A -> St -> Result St) (l : list A) :
  forall i0 k0 s,
    P k0 s ->
    (forall k a s1, nth_error l k = Some a -> P (k0 + k)%nat s1 ->
                    exists s2, body (i0 + k)%nat a s1 = Ok s2 /\ P (S (k0 + k)) s2) ->
    exists s', forEachM body i0 l s = Ok s' /\ P (k0 + length l)%nat s'.
Proof.
  induction l as [|a rest IH]; intros i0 k0 s Hs Hbody; simpl.
  - rewrite Nat.add_0_r. eauto.
  - destruct (Hbody 0%nat a s eq_refl) as (s1 & Hs1 & HP1);
      [now rewrite Nat.add_0_r|].
    rewrite Nat.add_0_r in Hs1, HP1. rewrite Hs1. cbn [bind].
    destruct (IH (S i0) (S k0) s1 HP1) as (s' & Hs' & HP').
    + intros k b s2 Hk HP2.
      destruct (Hbody (S k) b s2 Hk) as (s3 & Hs3 & HP3).
      * now rewrite Nat.add_succ_r.
      * exists s3. rewrite Nat.add_succ_r in Hs3, HP3. auto.
    + exists s'. split; [exact Hs'|]. now rewrite Nat.add_succ_r.
Qed.

Lemma stampedOn_weaken (W W' : Z -> Z -> Prop) (tag : Cell) (g0 g : Grid) :
  (forall r c, 0 <= r -> 0 <= c -> (W r c <-> W' r c)) ->
  stampedOn W tag g0 g -> stampedOn W' tag g0 g.
Proof.
  intros Hiff H r c Hr Hc. destruct (H r c Hr Hc) as [H1 H2].
  pose proof (Hiff r c Hr Hc) as Hrc. split; intros Hw; [apply H1 | apply H2]; tauto.
Qed.

Lemma coveredBefore_next_cell (cp : Tetromino) (ky kx : nat) (r c : Z) :
  coveredBefore cp ky (S kx) r c <->
  coveredBefore cp ky kx r c \/
  (occupiedAt (shape cp) ky kx /\ r = y (position cp) + Z.of_nat ky /\
   c = x (position cp) + Z.of_nat kx).
Proof.
  split.
  - intros (iy & ix & Hocc & Hr & Hc & [Hlt|[-> Hlt]]).
    + left. exists iy, ix. auto.
    + destruct (Nat.eq_dec ix kx) as [->|Hne]; [right; auto|].
      left. exists ky, ix. splits; auto. right. split; [reflexivity | lia].
  - intros [(iy & ix & Hocc & Hr & Hc & [Hlt|[-> Hlt]])|(Hocc & Hr & Hc)].
    + exists iy, ix. auto.
    + exists ky, ix. splits; auto.
    + exists ky, kx. splits; auto.
Qed.

(** The inner loop of the stamp on the shape row [ky]. *)
Lemma stampRow_content (w h : nat) (cp : Tetromino) (g0 : Grid) (ky : nat)
    (row : list Z) (g1 : Grid) :
  nth_error (shape cp) ky = Some row ->
  (forall iy ix, occupiedAt (shape cp) iy ix ->
     y (position cp) + Z.of_nat iy < 0 \/
     (y (position cp) + Z.of_nat iy < Z.of_nat h /\
      0 <= x (position cp) + Z.of_nat ix < Z.of_nat w)) ->
  hasDims w h g1 /\ stampedOn (coveredBefore cp ky 0) (CTag (color cp)) g0 g1 ->
  exists g2, forEachM (stampCell cp ky) 0 row g1 = Ok g2 /\
             hasDims w h g2 /\
             stampedOn (coveredBefore cp ky (length row)) (CTag (color cp)) g0 g2.
Proof.
  intros Hrow Hin Hg1.
  apply (forEachM_indexed
           (fun kx g => hasDims w h g /\
                        stampedOn (coveredBefore cp ky kx) (CTag (color cp)) g0 g)
           (stampCell cp ky) row 0 0 g1 Hg1).
  intros kx v g Hv [Hd Hst]. cbn [Nat.add] in *. unfold stampCell.
  assert (Hnot : ~ occupiedAt (shape cp) ky kx \/
                 y (position cp) + Z.of_nat ky < 0 ->
                 hasDims w h g /\
                 stampedOn (coveredBefore cp ky (S kx)) (CTag (color cp)) g0 g).
  { intros Hno. split; [exact Hd|]. revert Hst. apply stampedOn_weaken.
    intros r c Hr Hc. rewrite coveredBefore_next_cell. split; [tauto|].
    intros [H|(Hocc & Hr' & _)]; [exact H|]. destruct Hno; [tauto | lia]. }
  destruct (truthyNum v) eqn:Htr.
  2:{ exists g. split; [reflexivity|]. apply Hnot. left.
      intros (row' & v' & Hrow' & Hv' & Hne). rewrite Hrow in Hrow'.
      injection Hrow' as <-. rewrite Hv in Hv'. injection Hv' as <-.
      unfold truthyNum in Htr. apply negb_false_iff, Z.eqb_eq in Htr. contradiction. }
  assert (Hocc : occupiedAt (shape cp) ky kx).
  { exists row, v. splits; auto.
    unfold truthyNum in Htr. now apply negb_true_iff, Z.eqb_neq in Htr. }
  destruct (_ >=? 0) eqn:Hge.
  2:{ exists g. split; [reflexivity|]. apply Hnot. right.
      destruct (Z.geb_spec (y (position cp) + Z.of_nat ky) 0); [discriminate | lia]. }
  apply Z.geb_le in Hge.
  destruct (Hin ky kx Hocc) as [Hneg|[Hy Hx]]; [lia|].
  destruct (writeCell_dims w h g _ _ (CTag (color cp)) Hd (conj Hge Hy) Hx)
    as (g2 & Hw & Hd2).
  exists g2. splits; [exact Hw | exact Hd2|].
  intros r c Hr Hc.
  rewrite (writeCell_cellAt w h g g2 _ _ _ Hd (conj Hge Hy) Hx Hw r c Hr Hc).
  destruct (Hst r c Hr Hc) as [Hin1 Hout1].
  rewrite coveredBefore_next_cell.
  destruct (Z.eqb_spec r (y (position cp) + Z.of_nat ky)) as [Heqr|Hner];
    destruct (Z.eqb_spec c (x (position cp) + Z.of_nat kx)) as [Heqc|Hnec];
    cbn [andb]; split; intros Hw'; try reflexivity; try tauto;
    try (apply Hin1; destruct Hw' as [H|(_ & H1 & H2)]; [exact H | lia]);
    try (apply Hout1; tauto).
Qed.

Lemma occupiedAt_bounds (s : Shape) (iy ix : nat) (row : list Z) :
  occupiedAt s iy ix -> nth_error s iy = Some row ->
  (iy < length s)%nat /\ (ix < length row)%nat.
Proof.
  intros (row' & v & Hrow' & Hv & _) Hrow. rewrite Hrow in Hrow'.
  injection Hrow' as <-. split; apply nth_error_Some; congruence.
Qed.

(** X14.  Stamping a piece whose occupied cells at rows [>= 0] are inside a
    grid of [h] rows of [w] cells returns a grid of the same size in which
    every cell under an occupied cell of the piece holds the colour of the
    piece and every other cell is as it was. *)
Theorem stampPiece_content (w h : nat) (cp : Tetromino) (g : Grid) :
  hasDims w h g ->
  (forall iy ix, occupiedAt (shape cp) iy ix ->
     y (position cp) + Z.of_nat iy < 0 \/
     (y (position cp) + Z.of_nat iy < Z.of_nat h /\
      0 <= x (position cp) + Z.of_nat ix < Z.of_nat w)) ->
  exists newGrid,
    stampPiece cp g = Ok newGrid /\ hasDims w h newGrid /\
    forall r c, 0 <= r -> 0 <= c ->
      (covered cp r c -> cellAt newGrid r c = CTag (color cp)) /\
      (~ covered cp r c -> cellAt newGrid r c = cellAt g r c).
Proof.
  intros Hg Hin. unfold stampPiece.
  destruct (forEachM_indexed
              (fun ky g1 => hasDims w h g1 /\
                            stampedOn (coveredBefore cp ky 0) (CTag (color cp)) g g1)
              (fun iy row newGrid => forEachM (stampCell cp iy) 0 row newGrid)
              (shape cp) 0 0 g) as (newGrid & Hstamp & Hd & Hst).
  - split; [exact Hg|]. intros r c Hr Hc. split; [|reflexivity].
    intros (iy & ix & _ & _ & _ & [H|[_ H]]); lia.
  - intros ky row g1 Hrow Hg1. cbn [Nat.add] in *.
    destruct (stampRow_content w h cp g ky row g1 Hrow Hin Hg1) as (g2 & H2 & Hd2 & Hst2).
    exists g2. splits; [exact H2 | exact Hd2|].
    revert Hst2. apply stampedOn_weaken. intros r c Hr Hc. split.
    + intros (iy & ix & Hocc & Hr' & Hc' & [Hlt|[-> Hlt]]);
        exists iy, ix || exists ky, ix; splits; auto; left; lia.
    + intros (iy & ix & Hocc & Hr' & Hc' & [Hlt|[_ Hlt]]); [|lia].
      exists iy, ix. splits; auto.
      destruct (Nat.eq_dec iy ky) as [->|Hne]; [|left; lia].
      right. split; [reflexivity|].
      exact (proj2 (occupiedAt_bounds _ _ _ _ Hocc Hrow)).
  - exists newGrid. splits; [exact Hstamp | exact Hd|].
    cbn [Nat.add] in Hst. revert Hst. apply stampedOn_weaken.
    intros r c Hr Hc. split.
    + intros (iy & ix & Hocc & Hr' & Hc' & _). exists iy, ix. auto.
    + intros (iy & ix & Hocc & Hr' & Hc'). exists iy, ix. splits; auto. left.
      destruct Hocc as (row & v & Hrow & _).
      apply nth_error_Some. congruence.
Qed.

(** The O piece stamped into the gap of [gapState]: the cell at row 19,
    column 3 takes the colour of the piece. *)
Lemma stampPiece_content_witness :
  (hasDims 10 20 (grid (gapState 1)) /\
   forall iy ix,
     occupiedAt (shape (withPosition (getRandomPiece KO 10) {| x := 3; y := 18 |}))
                iy ix ->
     y (position (withPosition (getRandomPiece KO 10) {| x := 3; y := 18 |}))
     + Z.of_nat iy < 0 \/
     (y (position (withPosition (getRandomPiece KO 10) {| x := 3; y := 18 |}))
      + Z.of_nat iy < Z.of_nat 20 /\
      0 <= x (position (withPosition (getRandomPiece KO 10) {| x := 3; y := 18 |}))
           + Z.of_nat ix < Z.of_nat 10)) /\
  cellAt gapStamped 19 3 = CTag (def_color (TETROMINOES KO)).
Proof.
  assert (Hd : hasDims 10 20 (grid (gapState 1))).
  { split; [reflexivity|]. vm_compute. repeat constructor. }
  assert (Hin : forall iy ix,
             occupiedAt (shape (withPosition (getRandomPiece KO 10)
                                  {| x := 3; y := 18 |})) iy ix ->
             y (position (withPosition (getRandomPiece KO 10) {| x := 3; y := 18 |}))
             + Z.of_nat iy < 0 \/
             (y (position (withPosition (getRandomPiece KO 10) {| x := 3; y := 18 |}))
              + Z.of_nat iy < Z.of_nat 20 /\
              0 <= x (position (withPosition (getRandomPiece KO 10)
                                  {| x := 3; y := 18 |}))
                   + Z.of_nat ix < Z.of_nat 10)).
  { intros iy ix (row & v & Hrow & Hv & _). right.
    destruct iy as [|[|[|iy]]]; cbn in Hrow; try discriminate;
      injection Hrow as <-;
      (destruct ix as [|[|[|ix]]]; cbn in Hv; try discriminate);
      vm_compute; repeat split; discriminate. }
  split; [split; assumption|].
  destruct (stampPiece_content 10 20 _ _ Hd Hin) as (newGrid & Hstamp & _ & Hcells).
  assert (Hsame : newGrid = gapStamped).
  { assert (H : stampPiece
                  (withPosition (getRandomPiece KO 10) {| x := 3; y := 18 |})
                  (grid (gapState 1)) = Ok gapStamped) by reflexivity.
    rewrite H in Hstamp. now injection Hstamp. }
  rewrite <- Hsame. apply Hcells; [lia | lia|].
  exists 1%nat, 0%nat. splits; try reflexivity.
  exists [1; 1], 1. splits; try reflexivity. discriminate.
Defined.

(** ** A lock that completes no row *)

Lemma keptRows_all (g : Grid) : clearedLinesCount g = 0 -> keptRows g = g.
Proof.
  unfold clearedLinesCount, keptRows. intros H.
  induction g as [|row g IH]; simpl in *; [reflexivity|].
  destruct (rowFull row); simpl in *; [lia|]. f_equal. apply IH. lia.
Qed.

(** X15.  A lock whose stamped grid (of the configured size) has no full row
    returns a state whose grid is the stamped grid, with the score and the
    lines counter unchanged, and the level unchanged when it was the one
    that belongs to the lines counter. *)
Theorem lockPiece_no_clear (t : TetrominoType) (state : GameState) (cp : Tetromino)
    (newGrid : Grid) :
  currentPiece state = Some cp ->
  stampPiece cp (grid state) = Ok newGrid ->
  configured (config state) newGrid ->
  clearedLinesCount newGrid = 0 ->
  exists s',
    lockPiece t state = Ok s' /\ grid s' = newGrid /\
    score s' = score state /\ lines s' = lines state /\
    (level state = lines state / 10 + 1 -> level s' = level state).
Proof.
  intros Hcp Hstamp Hcfg Hzero.
  destruct (lockPiece_returns t state cp newGrid Hcp Hstamp Hcfg) as (s' & Hlock).
  exists s'. split; [exact Hlock|].
  destruct (lockPiece_inv t state s' cp Hcp Hlock)
    as (g1 & g2 & hit & Hs & Hr & _ & Hgrid & Hscore & _ & _ & _ & Hover & Hon).
  rewrite Hstamp in Hs. injection Hs as <-.
  rewrite (refill_configured _ _ Hcfg), Hzero, (keptRows_all _ Hzero) in Hr.
  injection Hr as <-. rewrite Hzero in Hscore. cbn in Hscore.
  splits.
  - exact Hgrid.
  - rewrite Hscore. lia.
  - destruct hit; [apply (Hover eq_refl)|].
    destruct (Hon eq_refl) as (_ & _ & -> & _). rewrite Hzero. lia.
  - intros Hlevel. destruct hit; [apply (Hover eq_refl)|].
    destruct (Hon eq_refl) as (_ & _ & _ & -> & _). rewrite Hzero, Hlevel.
    f_equal. f_equal. lia.
Qed.

(** The O piece of a fresh session, on the floor of the empty field: the
    lock completes no row. *)
Lemma lockPiece_no_clear_witness :
  (currentPiece (withCurrentPiece (startGame KO KT initialState)
                   (Some (withPosition (getRandomPiece KO 10) {| x := 3; y := 18 |})))
   = Some (withPosition (getRandomPiece KO 10) {| x := 3; y := 18 |}) /\
   stampPiece (withPosition (getRandomPiece KO 10) {| x := 3; y := 18 |})
              (emptyGrid 10 20)
   = Ok (resultOr []
           (stampPiece (withPosition (getRandomPiece KO 10) {| x := 3; y := 18 |})
                       (emptyGrid 10 20))) /\
   configured (config initialState)
     (resultOr []
        (stampPiece (withPosition (getRandomPiece KO 10) {| x := 3; y := 18 |})
                    (emptyGrid 10 20))) /\
   clearedLinesCount
     (resultOr []
        (stampPiece (withPosition (getRandomPiece KO 10) {| x := 3; y := 18 |})
                    (emptyGrid 10 20))) = 0) /\
  exists s',
    lockPiece KS
      (withCurrentPiece (startGame KO KT initialState)
         (Some (withPosition (getRandomPiece KO 10) {| x := 3; y := 18 |})))
    = Ok s' /\ score s' = 0.
Proof.
  assert (Hcp : currentPiece
                  (withCurrentPiece (startGame KO KT initialState)
                     (Some (withPosition (getRandomPiece KO 10) {| x := 3; y := 18 |})))
                = Some (withPosition (getRandomPiece KO 10) {| x := 3; y := 18 |}))
    by reflexivity.
  assert (Hstamp : stampPiece
                     (withPosition (getRandomPiece KO 10) {| x := 3; y := 18 |})
                     (emptyGrid 10 20)
                   = Ok (resultOr []
                           (stampPiece
                              (withPosition (getRandomPiece KO 10) {| x := 3; y := 18 |})
                              (emptyGrid 10 20)))) by (vm_compute; reflexivity).
  assert (Hcfg : configured (config initialState)
                   (resultOr []
                      (stampPiece
                         (withPosition (getRandomPiece KO 10) {| x := 3; y := 18 |})
                         (emptyGrid 10 20)))).
  { split; [split; [reflexivity | vm_compute; repeat constructor]|].
    vm_compute. split; [discriminate | reflexivity]. }
  assert (Hzero : clearedLinesCount
                    (resultOr []
                       (stampPiece
                          (withPosition (getRandomPiece KO 10) {| x := 3; y := 18 |})
                          (emptyGrid 10 20))) = 0) by (vm_compute; reflexivity).
  split; [splits; assumption|].
  destruct (lockPiece_no_clear KS _ _ _ Hcp Hstamp Hcfg Hzero)
    as (s' & Hlock & _ & Hscore & _).
  exists s'. split; [exact Hlock | exact Hscore].
Defined.

(** ** Sliding to the wall *)

Lemma slideLoop_stops (cp : Tetromino) (g : Grid) (dx : Z) :
  forall fuel f0 f, slideLoop fuel cp g dx f0 = Ok f ->
                    checkCollision cp g (f + dx) 0 None = Ok true.
Proof.
  induction fuel as [|fuel IH]; simpl; intros f0 f H; [discriminate|].
  apply bind_Ok in H. destruct H as (hit & Hhit & H). destruct hit.
  - injection H as <-. exact Hhit.
  - exact (IH _ _ H).
Qed.

Lemma withPosition_same (cp : Tetromino) :
  withPosition cp {| x := x (position cp) + 0; y := y (position cp) |} = cp.
Proof. destruct cp as [kind sh col [px py]]. unfold withPosition. cbn. now rewrite Z.add_0_r. Qed.

(** X16.  When [moveToEnd] returns in a playing, unfrozen state whose active
    piece is legally placed, the piece has slid along its row to a position
    where it is legally placed and where one more step of [dx] collides; a
    second [moveToEnd] in the same direction changes nothing. *)
Theorem moveToEnd_rests (fuel fuel' : nat) (dx : Z) (s s' : GameState)
    (cp : Tetromino) :
  currentPiece s = Some cp -> status s = PLAYING -> isFrozen s = false ->
  grid s <> [] -> checkCollision cp (grid s) 0 0 None = Ok false ->
  moveToEnd fuel dx s = Ok s' ->
  exists f,
    s' = withCurrentPiece s (Some (movedPiece cp f 0)) /\
    validPiece (grid s) (movedPiece cp f 0) /\
    checkCollision (movedPiece cp f 0) (grid s) dx 0 None = Ok true /\
    moveToEnd (S fuel') dx s' = Ok s'.
Proof.
  intros Hcp Hst Hfr Hg Hhere Hslide.
  unfold moveToEnd, isPlaying in Hslide. rewrite Hcp, Hst, Hfr in Hslide.
  cbn [Status_eqb negb orb] in Hslide.
  apply bind_Ok in Hslide. destruct Hslide as (f & Hf & Hslide).
  injection Hslide as <-.
  assert (Hpiece : withPosition cp {| x := x (position cp) + f; y := y (position cp) |}
                   = movedPiece cp f 0).
  { unfold movedPiece. now rewrite Z.add_0_r. }
  rewrite Hpiece.
  assert (Hstop : checkCollision (movedPiece cp f 0) (grid s) dx 0 None = Ok true).
  { rewrite checkCollision_moved. rewrite Z.add_0_l.
    exact (slideLoop_stops cp (grid s) dx fuel 0 f Hf). }
  exists f. splits.
  - reflexivity.
  - destruct (slideLoop_checked cp (grid s) dx fuel 0 f Hf) as [->|Hchk];
      eapply (checked_valid cp);
      [exact Hg | exact Hhere | reflexivity | cbn; lia | cbn; lia
       | exact Hg | exact Hchk | reflexivity | cbn; lia | cbn; lia].
  - exact Hstop.
  - unfold moveToEnd, isPlaying.
    cbn [currentPiece status isFrozen grid withCurrentPiece].
    rewrite Hst, Hfr. cbn [Status_eqb negb orb slideLoop].
    rewrite Z.add_0_l, Hstop. cbn [bind].
    rewrite withCurrentPiece_twice. now rewrite withPosition_same.
Qed.

(** The T piece of [clearedState] slid to the left wall. *)
Lemma moveToEnd_rests_witness :
  (currentPiece clearedState = Some (getRandomPiece KT 10) /\
   status clearedState = PLAYING /\ isFrozen clearedState = false /\
   grid clearedState <> [] /\
   checkCollision (getRandomPiece KT 10) (grid clearedState) 0 0 None = Ok false /\
   moveToEnd 10 (-1) clearedState
   = Ok (resultOr initialState (moveToEnd 10 (-1) clearedState))) /\
  moveToEnd 1 (-1) (resultOr initialState (moveToEnd 10 (-1) clearedState))
  = Ok (resultOr initialState (moveToEnd 10 (-1) clearedState)).
Proof.
  assert (Hcp : currentPiece clearedState = Some (getRandomPiece KT 10))
    by (vm_compute; reflexivity).
  assert (Hst : status clearedState = PLAYING) by (vm_compute; reflexivity).
  assert (Hfr : isFrozen clearedState = false) by (vm_compute; reflexivity).
  assert (Hg : grid clearedState <> []) by (vm_compute; discriminate).
  assert (Hhere : checkCollision (getRandomPiece KT 10) (grid clearedState) 0 0 None
                  = Ok false) by (vm_compute; reflexivity).
  assert (Hslide : moveToEnd 10 (-1) clearedState
                   = Ok (resultOr initialState (moveToEnd 10 (-1) clearedState)))
    by (vm_compute; reflexivity).
  split; [splits; assumption|].
  destruct (moveToEnd_rests 10 0 (-1) clearedState _ _ Hcp Hst Hfr Hg Hhere Hslide)
    as (f & _ & _ & _ & Hagain).
  exact Hagain.
Defined.

(** ** Sessions without a hold *)

(** X17.  In a session in which [holdPiece] is never called, the active
    piece is legally placed in every state: inside the walls, above the
    floor, and on no settled cell at a row [>= 0].  [move], [moveToEnd],
    [rotate] and [lockPiece] install a piece only after [checkCollision] has
    returned [false] for it; [startGame] calls no test and installs its piece
    on the empty grid, where the test returns [false] as well. *)
Theorem session_without_hold (s : GameState) (p : Tetromino) :
  reachableWithoutHold s -> currentPiece s = Some p ->
  validPiece (grid s) p /\ checkCollision p (grid s) 0 0 None = Ok false.
Proof.
  intros Hreach.
  assert (Hwell : wellPlaced s).
  { induction Hreach as [|i s s' _ IH Hnohold Hstep].
    - unfold wellPlaced. splits.
      + reflexivity.
      + split; [split; [reflexivity | vm_compute; repeat constructor]|].
        vm_compute. split; [discriminate | reflexivity].
      + intros q Hq. discriminate.
    - exact (dispatch_wellPlaced i s s' IH Hnohold Hstep). }
  intros Hp. destruct Hwell as (_ & Hcfg & Hvalid).
  specialize (Hvalid p Hp). split; [exact Hvalid|].
  destruct (configured_width _ _ Hcfg) as (_ & _ & Hne).
  rewrite checkCollision_collides by exact Hne. f_equal. cbn [activeShape].
  destruct (collides p (grid s) 0 0 (shape p)) eqn:Hcol; [|reflexivity].
  exfalso. apply collides_true_iff in Hcol.
  destruct Hcol as (iy & ix & Hocc & Hb).
  destruct (Hvalid iy ix Hocc) as (Hc & Hr & Hfree).
  unfold blocked, landX, landY in Hb. rewrite !Z.add_0_r in Hb.
  destruct Hb as [H|[H|[H|[H1 H2]]]]; try lia.
  rewrite Hfree in H2 by lia. discriminate.
Qed.

(** The start of a session. *)
Lemma session_without_hold_witness :
  (reachableWithoutHold (startGame KS KT initialState) /\
   currentPiece (startGame KS KT initialState)
   = Some (withPosition (getRandomPiece KS 10) {| x := 3; y := 0 |})) /\
  validPiece (grid (startGame KS KT initialState))
             (withPosition (getRandomPiece KS 10) {| x := 3; y := 0 |}).
Proof.
  assert (Hreach : reachableWithoutHold (startGame KS KT initialState)).
  { apply (@withoutHold_step (Start KS KT) initialState _ withoutHold_initial);
      [discriminate | reflexivity]. }
  assert (Hp : currentPiece (startGame KS KT initialState)
               = Some (withPosition (getRandomPiece KS 10) {| x := 3; y := 0 |}))
    by reflexivity.
  split; [split; assumption|].
  exact (proj1 (session_without_hold _ _ Hreach Hp)).
Defined.

(** ** The status of a session *)

Lemma lockPiece_status (t : TetrominoType) (state s' : GameState) (cp : Tetromino) :
  currentPiece state = Some cp -> status state = PLAYING ->
  lockPiece t state = Ok s' ->
  (status s' = PLAYING /\ currentPiece s' <> None) \/
  (status s' = GAME_OVER /\ currentPiece s' = None /\ isFrozen s' = false).
Proof.
  intros Hcp Hst Hlock.
  destruct (lockPiece_inv t state s' cp Hcp Hlock)
    as (newGrid & filteredGrid & hit & _ & _ & _ & _ & _ & Hfr & _ & _ & Hover & Hgo).
  destruct hit.
  - right. destruct (Hover eq_refl) as (H1 & H2 & _). auto.
  - left. destruct (Hgo eq_refl) as (H1 & H2 & _). split; congruence.
Qed.

Lemma dispatch_status (i : Intent) (s s' : GameState) :
  status s = PLAYING -> currentPiece s <> None ->
  dispatch i s = Ok s' ->
  (status s' = PLAYING /\ currentPiece s' <> None) \/
  (status s' = GAME_OVER /\ currentPiece s' = None /\ isFrozen s' = false).
Proof.
  intros Hst Hpiece H.
  destruct (currentPiece s) as [cp|] eqn:Hcp; [clear Hpiece|congruence].
  assert (Hplay : isPlaying s = true) by (unfold isPlaying; rewrite Hst; reflexivity).
  assert (Hsame : status s = PLAYING /\ currentPiece s <> None)
    by (split; congruence).
  destruct i as [t1 t2|t dx dy|fuel dx|cw|fuel t|t|]; simpl in H.
  - injection H as <-. left. simpl. split; congruence.
  - unfold move in H. rewrite Hcp, Hplay in H. simpl in H.
    destruct (isFrozen s && negb (dy =? 0)).
    { injection H as <-. left. exact Hsame. }
    destruct (checkCollision cp (grid s) dx dy None) as [hit| |]; try discriminate.
    simpl in H. destruct hit; simpl in H.
    + destruct (dy >? 0).
      * exact (lockPiece_status t s s' cp Hcp Hst H).
      * injection H as <-. left. exact Hsame.
    + injection H as <-. left. simpl. split; congruence.
  - unfold moveToEnd in H. rewrite Hcp, Hplay in H. simpl in H.
    destruct (isFrozen s).
    { injection H as <-. left. exact Hsame. }
    destruct (slideLoop fuel cp (grid s) dx 0) as [d| |]; try discriminate.
    simpl in H. injection H as <-. left. simpl. split; congruence.
  - unfold rotate in H. rewrite Hcp, Hplay in H. simpl in H.
    destruct (isFrozen s).
    { injection H as <-. left. exact Hsame. }
    destruct (rotateShape cw (shape cp)) as [sh| |]; try discriminate.
    simpl in H.
    destruct (checkCollision cp (grid s) 0 0 (Some sh)) as [hit| |]; try discriminate.
    simpl in H. destruct hit; simpl in H; injection H as <-; left.
    + exact Hsame.
    + simpl. split; congruence.
  - unfold hardDrop in H. rewrite Hcp, Hplay in H. simpl in H.
    destruct (dropLoop fuel cp (grid s) 0) as [d| |]; try discriminate.
    simpl in H.
    exact (lockPiece_status t (withCurrentPiece s (Some (droppedPiece cp d))) s'
             (droppedPiece cp d) eq_refl Hst H).
  - injection H as <-. left. unfold holdPiece. rewrite Hcp, Hplay.
    destruct (canHold s); simpl; [|exact Hsame].
    destruct (heldPiece s); simpl; split; congruence.
  - injection H as <-. left. unfold toggleFreeze. rewrite Hplay. simpl.
    split; congruence.
Qed.

(** X18.  In every state of a session the status is [IDLE], [GAME_OVER] or
    [PLAYING], never [PAUSED]; a playing state has an active piece, and a
    state that is not playing has none and is not frozen. *)
Theorem session_status (s : GameState) :
  reachable s ->
  ((status s = IDLE \/ status s = GAME_OVER) /\
   currentPiece s = None /\ isFrozen s = false) \/
  (status s = PLAYING /\ currentPiece s <> None).
Proof.
  intros Hs. induction Hs as [|i s s' Hs IH Hstep].
  - left. simpl. auto.
  - destruct IH as [(Hst & Hnone & Hfr)|(Hst & Hpiece)].
    + destruct i as [t1 t2|t dx dy|fuel dx|cw|fuel t|t|];
        try (rewrite dispatch_not_playing in Hstep;
             [injection Hstep as <-; left; auto
             |destruct Hst as [Hst|Hst]; rewrite Hst; discriminate
             |intros; discriminate]).
      simpl in Hstep. injection Hstep as <-. right. simpl. split; congruence.
    + destruct (dispatch_status i s s' Hst Hpiece Hstep) as [H|(H1 & H2 & H3)].
      * right. exact H.
      * left. auto.
Qed.

(** The session of C4 is in the second case. *)
Lemma session_status_witness :
  reachable clearedState /\
  (((status clearedState = IDLE \/ status clearedState = GAME_OVER) /\
    currentPiece clearedState = None /\ isFrozen clearedState = false) \/
   (status clearedState = PLAYING /\ currentPiece clearedState <> None)).
Proof.
  split.
  - exact clearedState_reachable.
  - exact (session_status clearedState clearedState_reachable).
Defined.

(** ** The layers of a rendered cell *)

(** On a square shape the bounds test of the renderer decides [covered]. *)
Lemma shapeCovers_covered (cp : Tetromino) (n : nat) (r c : Z) :
  (0 < n)%nat -> isSquare n (shape cp) ->
  exists b,
    shapeCovers (shape cp) (c - x (position cp)) (r - y (position cp)) = Ok b /\
    (b = true <-> covered cp r c).
Proof.
  intros Hn Hsq.
  assert (Hcov : covered cp r c <->
                 0 <= c - x (position cp) < Z.of_nat n /\
                 0 <= r - y (position cp) < Z.of_nat n /\
                 entry (shape cp) (Z.to_nat (r - y (position cp)))
                       (Z.to_nat (c - x (position cp))) <> 0).
  { split.
    - intros (iy & ix & Hocc & Hr & Hc).
      apply (occupiedAt_entry n (shape cp) iy ix Hsq) in Hocc.
      destruct Hocc as (Hiy & Hix & He).
      replace (r - y (position cp)) with (Z.of_nat iy) by lia.
      replace (c - x (position cp)) with (Z.of_nat ix) by lia.
      rewrite !Nat2Z.id. splits; lia || exact He.
    - intros (Hc & Hr & He).
      exists (Z.to_nat (r - y (position cp))), (Z.to_nat (c - x (position cp))).
      splits; try lia.
      apply (occupiedAt_entry n (shape cp) _ _ Hsq). splits; lia || exact He. }
  unfold shapeCovers.
  destruct Hsq as (Hlen & Hrows).
  destruct (shape cp) as [|row0 rest] eqn:Hshape; [simpl in Hlen; lia|].
  assert (H0 : length row0 = n) by (inversion Hrows; assumption).
  rewrite H0, Hlen.
  destruct (c - x (position cp) >=? 0) eqn:E1.
  2:{ exists false. split; [reflexivity|]. rewrite Hcov. split; [discriminate|lia]. }
  destruct (c - x (position cp) <? Z.of_nat n) eqn:E2.
  2:{ exists false. split; [reflexivity|]. rewrite Hcov. split; [discriminate|lia]. }
  destruct ((r - y (position cp) >=? 0) && (r - y (position cp) <? Z.of_nat n)) eqn:E3.
  2:{ exists false. split; [reflexivity|]. rewrite Hcov. split; [discriminate|].
      apply andb_false_iff in E3. lia. }
  apply andb_true_iff in E3.
  eexists. split; [reflexivity|]. rewrite Hcov. unfold entry, truthyNum.
  rewrite negb_true_iff, Z.eqb_neq. split.
  - intros He. splits; lia || exact He.
  - intros (_ & _ & He). exact He.
Qed.

Lemma renderCell_cases (s : GameState) (cp : Tetromino) (gp : Position)
    (n iy ix : nat) (cell : Cell) :
  currentPiece s = Some cp -> (0 < n)%nat -> isSquare n (shape cp) ->
  exists blockColor isGhost,
    renderCell s (Some gp) iy ix cell = Ok (blockColor, isGhost) /\
    (covered cp (Z.of_nat iy) (Z.of_nat ix) ->
     blockColor = CTag (if isFrozen s then FROZEN_COLOR else color cp) /\
     isGhost = false) /\
    (~ covered cp (Z.of_nat iy) (Z.of_nat ix) -> truthyCell cell = true ->
     blockColor = cell /\ isGhost = false) /\
    (~ covered cp (Z.of_nat iy) (Z.of_nat ix) -> truthyCell cell = false ->
     covered (withPosition cp gp) (Z.of_nat iy) (Z.of_nat ix) ->
     blockColor = CTag (color cp) /\ isGhost = true) /\
    (~ covered cp (Z.of_nat iy) (Z.of_nat ix) ->
     ~ covered (withPosition cp gp) (Z.of_nat iy) (Z.of_nat ix) ->
     blockColor = cell /\ isGhost = false).
Proof.
  intros Hcp Hn Hsq.
  destruct (shapeCovers_covered cp n (Z.of_nat iy) (Z.of_nat ix) Hn Hsq)
    as (b & Hb & Hbcov).
  destruct (shapeCovers_covered (withPosition cp gp) n (Z.of_nat iy) (Z.of_nat ix)
              Hn Hsq) as (bg & Hbg & Hgcov).
  cbn [withPosition shape position] in Hbg.
  unfold renderCell. rewrite Hcp, Hb.
  destruct (truthyCell cell) eqn:Hcell; cbn [negb bind].
  - destruct b; do 2 eexists; (split; [reflexivity|]); splits;
      try (intros; split; reflexivity);
      try (intros; discriminate);
      try (intros H; exfalso; apply H; apply Hbcov; reflexivity);
      try (intros H; apply Hbcov in H; discriminate).
  - rewrite Hbg. cbn [bind].
    destruct b, bg; cbn [bind]; do 2 eexists; (split; [reflexivity|]); splits;
      try (intros; split; reflexivity);
      try (intros; discriminate);
      try (intros H; exfalso; apply H; apply Hbcov; reflexivity);
      try (intros H; apply Hbcov in H; discriminate);
      try (intros _ H; exfalso; apply H; apply Hgcov; reflexivity);
      try (intros _ _ H; apply Hgcov in H; discriminate).
Qed.

(** X19.  The renderer draws in layers.  With an active piece of square
    shape and a ghost position, the cell at row [iy] and column [ix] gets:
    the colour of the active piece (the freeze colour in a frozen state),
    not as a ghost, when the piece covers it; else the settled cell itself
    when that is truthy; else the colour of the piece as a ghost when the
    piece at the ghost position covers it; else the cell itself. *)
Theorem renderCell_layers (s : GameState) (cp : Tetromino) (gp : Position)
    (n iy ix : nat) (cell : Cell) :
  currentPiece s = Some cp -> (0 < n)%nat -> isSquare n (shape cp) ->
  exists blockColor isGhost,
    renderCell s (Some gp) iy ix cell = Ok (blockColor, isGhost) /\
    (covered cp (Z.of_nat iy) (Z.of_nat ix) ->
     blockColor = CTag (if isFrozen s then FROZEN_COLOR else color cp) /\
     isGhost = false) /\
    (~ covered cp (Z.of_nat iy) (Z.of_nat ix) -> truthyCell cell = true ->
     blockColor = cell /\ isGhost = false) /\
    (~ covered cp (Z.of_nat iy) (Z.of_nat ix) -> truthyCell cell = false ->
     covered (withPosition cp gp) (Z.of_nat iy) (Z.of_nat ix) ->
     blockColor = CTag (color cp) /\ isGhost = true) /\
    (~ covered cp (Z.of_nat iy) (Z.of_nat ix) ->
     ~ covered (withPosition cp gp) (Z.of_nat iy) (Z.of_nat ix) ->
     blockColor = cell /\ isGhost = false).
Proof. exact (renderCell_cases s cp gp n iy ix cell). Qed.

(** The O piece at its spawn position on the empty field, frozen, with the
    ghost on the floor: the cell at row 18, column 3 is drawn as a ghost. *)
Lemma renderCell_layers_witness :
  (currentPiece frozenStart
   = Some (withPosition (getRandomPiece KO 10) {| x := 3; y := 0 |}) /\
   (0 < 2)%nat /\
   isSquare 2 (shape (withPosition (getRandomPiece KO 10) {| x := 3; y := 0 |}))) /\
  renderCell frozenStart (Some {| x := 3; y := 18 |}) 18 3 CNull
  = Ok (CTag (def_color (TETROMINOES KO)), true).
Proof.
  assert (Hcp : currentPiece frozenStart
                = Some (withPosition (getRandomPiece KO 10) {| x := 3; y := 0 |}))
    by reflexivity.
  assert (Hn : (0 < 2)%nat) by lia.
  assert (Hsq : isSquare 2 (shape (withPosition (getRandomPiece KO 10)
                                     {| x := 3; y := 0 |}))).
  { split; [reflexivity|]. repeat constructor. }
  split; [splits; assumption|].
  destruct (renderCell_layers frozenStart _ {| x := 3; y := 18 |} 2 18 3 CNull
              Hcp Hn Hsq) as (blockColor & isGhost & Hr & _).
  vm_compute. reflexivity.
Defined.

(** X20.  The ghost is drawn whole.  For an active piece of a session shape
    that is legally placed, with the ghost position that [getGhostPosition]
    returns, every grid cell that the piece at the ghost position covers is
    drawn (its [blockColor] is truthy), and it is drawn as a ghost exactly
    when the active piece itself does not cover it: no settled cell hides a
    part of the ghost. *)
Theorem ghost_drawn_whole (fuel : nat) (s : GameState) (cp : Tetromino) :
  currentPiece s = Some cp -> grid s <> [] -> soundPiece cp ->
  checkCollision cp (grid s) 0 0 None = Ok false ->
  (Z.to_nat (gridHeight (grid s) - y (position cp)) < fuel)%nat ->
  exists gp,
    getGhostPosition fuel s = Ok (Some gp) /\
    forall iy ix,
      covered (withPosition cp gp) (Z.of_nat iy) (Z.of_nat ix) ->
      exists blockColor isGhost,
        renderCell s (Some gp) iy ix (cellAt (grid s) (Z.of_nat iy) (Z.of_nat ix))
        = Ok (blockColor, isGhost) /\
        truthyCell blockColor = true /\
        (isGhost = true <-> ~ covered cp (Z.of_nat iy) (Z.of_nat ix)).
Proof.
  intros Hcp Hg Hsound Hhere Hfuel.
  destruct Hsound as ((n & Hn & Hsq) & Hocc & Hcol).
  destruct (getGhostPosition_lands fuel KI s cp Hcp Hg Hocc Hhere Hfuel)
    as (gp & Hghost & _ & _ & Hvalid & _).
  exists gp. split; [exact Hghost|]. intros iy ix Hcov.
  assert (Hfree : truthyCell (cellAt (grid s) (Z.of_nat iy) (Z.of_nat ix)) = false).
  { destruct Hcov as (ky & kx & Hk & Hr & Hc).
    destruct (Hvalid ky kx Hk) as (_ & _ & Hcell).
    cbn [withPosition position] in Hr, Hc, Hcell.
    rewrite Hr, Hc. apply Hcell. lia. }
  assert (Hcolour : truthyCell (CTag (color cp)) = true)
    by (rewrite Hcol; apply catalog_color_truthy).
  assert (Hfrozen : truthyCell (CTag FROZEN_COLOR) = true) by reflexivity.
  destruct (renderCell_cases s cp gp n iy ix
              (cellAt (grid s) (Z.of_nat iy) (Z.of_nat ix)) Hcp
              ltac:(lia) Hsq)
    as (blockColor & isGhost & Hr & Hactive & _ & Hgh & _).
  exists blockColor, isGhost. split; [exact Hr|].
  destruct (shapeCovers_covered cp n (Z.of_nat iy) (Z.of_nat ix) ltac:(lia) Hsq)
    as (b & _ & Hb).
  destruct b.
  - destruct (Hactive (proj1 Hb eq_refl)) as (-> & ->). split.
    + destruct (isFrozen s); assumption.
    + split; [discriminate|]. intros H. exfalso. apply H. apply Hb. reflexivity.
  - assert (Hnot : ~ covered cp (Z.of_nat iy) (Z.of_nat ix)).
    { intros H. apply Hb in H. discriminate. }
    destruct (Hgh Hnot Hfree Hcov) as (-> & ->). split; [exact Hcolour|].
    split; auto.
Qed.

(** The O piece at its spawn position on the empty field: the ghost cell at
    row 18, column 3. *)
Lemma ghost_drawn_whole_witness :
  (currentPiece (startGame KO KT initialState)
   = Some (withPosition (getRandomPiece KO 10) {| x := 3; y := 0 |}) /\
   grid (startGame KO KT initialState) <> [] /\
   soundPiece (withPosition (getRandomPiece KO 10) {| x := 3; y := 0 |}) /\
   checkCollision (withPosition (getRandomPiece KO 10) {| x := 3; y := 0 |})
                  (grid (startGame KO KT initialState)) 0 0 None = Ok false /\
   (Z.to_nat (gridHeight (grid (startGame KO KT initialState))
              - y (position (withPosition (getRandomPiece KO 10)
                               {| x := 3; y := 0 |}))) < 32)%nat) /\
  exists gp, getGhostPosition 32 (startGame KO KT initialState) = Ok (Some gp).
Proof.
  assert (Hcp : currentPiece (startGame KO KT initialState)
                = Some (withPosition (getRandomPiece KO 10) {| x := 3; y := 0 |}))
    by reflexivity.
  assert (Hg : grid (startGame KO KT initialState) <> []) by (vm_compute; discriminate).
  assert (Hsound : soundPiece (withPosition (getRandomPiece KO 10)
                                 {| x := 3; y := 0 |})).
  { apply catalog_soundPiece. split; reflexivity. }
  assert (Hhere : checkCollision
                    (withPosition (getRandomPiece KO 10) {| x := 3; y := 0 |})
                    (grid (startGame KO KT initialState)) 0 0 None = Ok false)
    by (vm_compute; reflexivity).
  assert (Hfuel : (Z.to_nat (gridHeight (grid (startGame KO KT initialState))
                             - y (position (withPosition (getRandomPiece KO 10)
                                              {| x := 3; y := 0 |}))) < 32)%nat)
    by (vm_compute; lia).
  split; [splits; assumption|].
  destruct (ghost_drawn_whole 32 (startGame KO KT initialState) _
              Hcp Hg Hsound Hhere Hfuel) as (gp & Hgp & _).
  exists gp. exact Hgp.
Defined.

(** * Properties of the bundled revision *)

(** ** The spawn position and the start *)

Lemma firstRowLength_catalog (t : TetrominoType) :
  Bundled.firstRowLength (def_shape (TETROMINOES t))
  = Ok (shapeWidth (def_shape (TETROMINOES t))).
Proof. destruct t; reflexivity. Qed.

Lemma bundled_getRandomPiece_returns (t : TetrominoType) (w : Z) :
  Bundled.getRandomPiece t w
  = Ok {| type := t; shape := def_shape (TETROMINOES t);
          color := def_color (TETROMINOES t);
          position := {| x := w / 2 - shapeWidth (def_shape (TETROMINOES t)) / 2;
                         y := 0 |} |}.
Proof.
  unfold Bundled.getRandomPiece. rewrite firstRowLength_catalog. reflexivity.
Qed.

(** The catalog shapes occupy their rows 0 and 1 only, and are 2 to 4
    columns wide. *)
Lemma catalog_occupied (t : TetrominoType) (iy ix : nat) :
  occupiedAt (def_shape (TETROMINOES t)) iy ix ->
  (iy < 2)%nat /\ Z.of_nat ix < shapeWidth (def_shape (TETROMINOES t)) <= 4.
Proof.
  intros (row & v & Hr & Hv & Hnz).
  destruct t; unfold shapeWidth; cbn in *;
    repeat (destruct iy as [|iy]; cbn in Hr; try discriminate);
    injection Hr as <-;
    repeat (destruct ix as [|ix]; cbn in Hv; try discriminate);
    injection Hv as <-; try congruence; lia.
Qed.

Lemma emptyGrid_dims (w h : Z) : hasDims (Z.to_nat w) (Z.to_nat h) (emptyGrid w h).
Proof.
  split; [apply repeat_length|]. apply Forall_forall. intros row Hin.
  apply repeat_spec in Hin. subst. apply repeat_length.
Qed.

Lemma emptyGrid_free (w h r c : Z) : truthyCell (cellAt (emptyGrid w h) r c) = false.
Proof.
  unfold cellAt. destruct ((r <? 0) || (c <? 0)); [reflexivity|].
  destruct (nth_in_or_default (Z.to_nat r) (emptyGrid w h) []) as [Hin|Hd].
  - apply repeat_spec in Hin. rewrite Hin.
    destruct (nth_in_or_default (Z.to_nat c) (repeat CNull (Z.to_nat w)) CUndefined)
      as [Hc|Hc].
    + apply repeat_spec in Hc. rewrite Hc. reflexivity.
    + rewrite Hc. reflexivity.
  - rewrite Hd. destruct (Z.to_nat c); reflexivity.
Qed.

Lemma emptyGrid_size (w h : Z) :
  0 <= w -> 0 < h ->
  gridWidth (emptyGrid w h) = w /\ gridHeight (emptyGrid w h) = h.
Proof.
  intros Hw Hh. unfold gridWidth, gridHeight, emptyGrid.
  rewrite repeat_length.
  destruct (Z.to_nat h) as [|k] eqn:Hk; [lia|].
  cbn [repeat hd]. rewrite repeat_length. lia.
Qed.

(** X21.  The bundled [getRandomPiece] returns for every kind and width, with
    the catalog shape and colour of the kind, at row 0, and centres the shape
    matrix: the free columns to its right and to its left differ by one at
    most. *)
Theorem bundled_spawn_centred (t : TetrominoType) (w : Z) :
  exists p,
    Bundled.getRandomPiece t w = Ok p /\
    type p = t /\ catalogPiece p /\ y (position p) = 0 /\
    -1 <= (w - (x (position p) + shapeWidth (shape p))) - x (position p) <= 1.
Proof.
  rewrite bundled_getRandomPiece_returns. eexists. split; [reflexivity|].
  cbn [type shape color position x y]. splits; try reflexivity.
  - split; reflexivity.
  - destruct t; unfold shapeWidth; simpl (Z.of_nat _);
      Z.div_mod_to_equations; lia.
  - destruct t; unfold shapeWidth; simpl (Z.of_nat _);
      Z.div_mod_to_equations; lia.
Qed.

Lemma makeGrid_returns (w h : Z) :
  0 <= w <= Bundled.MAX_ARRAY_LENGTH -> 0 < h <= Bundled.MAX_ARRAY_LENGTH ->
  Bundled.makeGrid w h = Ok (emptyGrid w h).
Proof.
  intros Hw Hh. unfold Bundled.makeGrid.
  destruct (h <=? 0) eqn:E1; [lia|].
  destruct (h >? Bundled.MAX_ARRAY_LENGTH) eqn:E2; [lia|].
  destruct (w <? 0) eqn:E3; [lia|].
  destruct (w >? Bundled.MAX_ARRAY_LENGTH) eqn:E4; [lia|].
  reflexivity.
Qed.

(** A catalog piece at the centred spawn position is legally placed on the
    empty field of at least 4 columns and 2 rows. *)
Lemma centred_spawn_valid (t : TetrominoType) (w h : Z) (p : Tetromino) :
  4 <= w -> 2 <= h ->
  shape p = def_shape (TETROMINOES t) ->
  position p = {| x := w / 2 - shapeWidth (def_shape (TETROMINOES t)) / 2; y := 0 |} ->
  validPiece (emptyGrid w h) p.
Proof.
  intros Hw Hh Hshape Hpos iy ix Hocc. rewrite Hshape in Hocc.
  destruct (catalog_occupied t iy ix Hocc) as (Hiy & Hix).
  destruct (emptyGrid_size w h ltac:(lia) ltac:(lia)) as (Hgw & Hgh).
  rewrite Hgw, Hgh, Hpos. cbn [x y].
  assert (Hocc' := Hocc). destruct Hocc' as (row & v & _).
  splits.
  - assert (shapeWidth (def_shape (TETROMINOES t)) / 2 <= 2).
    { apply Z.div_le_upper_bound; lia. }
    assert (2 <= w / 2) by (apply Z.div_le_lower_bound; lia).
    assert (0 <= shapeWidth (def_shape (TETROMINOES t)) / 2).
    { apply Z.div_pos; lia. }
    lia.
  - pose proof (Z.div_mod w 2 ltac:(lia)).
    pose proof (Z.mod_pos_bound w 2 ltac:(lia)).
    pose proof (Z.div_mod (shapeWidth (def_shape (TETROMINOES t))) 2 ltac:(lia)).
    pose proof (Z.mod_pos_bound (shapeWidth (def_shape (TETROMINOES t))) 2 ltac:(lia)).
    lia.
  - lia.
  - intros _. apply emptyGrid_free.
Qed.

Lemma bundled_startGame_returns (t1 t2 : TetrominoType) (gameState prev : GameState) :
  0 <= width (config gameState) <= Bundled.MAX_ARRAY_LENGTH ->
  0 < height (config gameState) <= Bundled.MAX_ARRAY_LENGTH ->
  Bundled.startGame t1 t2 gameState prev
  = Ok {| grid := emptyGrid (width (config gameState)) (height (config gameState));
          currentPiece :=
            Some {| type := t1; shape := def_shape (TETROMINOES t1);
                    color := def_color (TETROMINOES t1);
                    position :=
                      {| x := width (config gameState) / 2
                              - shapeWidth (def_shape (TETROMINOES t1)) / 2;
                         y := 0 |} |};
          nextPiece :=
            {| type := t2; shape := def_shape (TETROMINOES t2);
               color := def_color (TETROMINOES t2);
               position :=
                 {| x := width (config gameState) / 2
                         - shapeWidth (def_shape (TETROMINOES t2)) / 2;
                    y := 0 |} |};
          heldPiece := None; canHold := true; isFrozen := false;
          score := 0; lines := 0; level := 1; status := PLAYING;
          config := config prev |}.
Proof.
  intros Hw Hh. unfold Bundled.startGame.
  rewrite !bundled_getRandomPiece_returns. cbn [bind].
  rewrite (makeGrid_returns _ _ Hw Hh). cbn [bind shape].
  rewrite firstRowLength_catalog. reflexivity.
Qed.

(** X22.  Setting the width and starting.  From any state whose configured
    height is 2 to 4294967295, [updateConfig] with a width of 4 to 4294967295
    followed by [startGame] returns a playing state on an empty grid of the
    new width and the configured height, with the counters reset, the queued
    piece of the drawn kind, and the active piece of the drawn kind legally
    placed. *)
Theorem bundled_resize_then_start (t1 t2 : TetrominoType) (s : GameState) (w : Z) :
  4 <= w <= Bundled.MAX_ARRAY_LENGTH ->
  2 <= height (config s) <= Bundled.MAX_ARRAY_LENGTH ->
  exists s1 s2 p,
    Bundled.updateConfig Bundled.KeyWidth w s = Ok s1 /\
    Bundled.startGame t1 t2 s1 s1 = Ok s2 /\
    width (config s2) = w /\ height (config s2) = height (config s) /\
    baseSpeed (config s2) = baseSpeed (config s) /\
    grid s2 = emptyGrid w (height (config s)) /\
    configured (config s2) (grid s2) /\
    status s2 = PLAYING /\ isFrozen s2 = false /\
    score s2 = 0 /\ lines s2 = 0 /\ level s2 = 1 /\
    catalogPiece (nextPiece s2) /\ type (nextPiece s2) = t2 /\
    currentPiece s2 = Some p /\ catalogPiece p /\ type p = t1 /\
    validPiece (grid s2) p.
Proof.
  intros Hw Hh. unfold Bundled.updateConfig.
  rewrite (makeGrid_returns w (height (config s))) by lia. cbn [bind].
  do 3 eexists. split; [reflexivity|].
  rewrite bundled_startGame_returns
    by (cbn [config Bundled.withConfigKey width height]; lia).
  split; [reflexivity|].
  cbn [grid currentPiece nextPiece heldPiece canHold isFrozen score lines level
       status config Bundled.withConfigKey width height baseSpeed].
  splits; try reflexivity.
  - split; [apply emptyGrid_dims | cbn [width height]; lia].
  - split; reflexivity.
  - split; reflexivity.
  - apply (centred_spawn_valid t1); try reflexivity; lia.
Qed.

(** The width 6, the least that the slider offers, on the initial state. *)
Lemma bundled_resize_then_start_witness :
  (4 <= 6 <= Bundled.MAX_ARRAY_LENGTH /\
   2 <= height (config initialState) <= Bundled.MAX_ARRAY_LENGTH) /\
  exists s1 s2,
    Bundled.updateConfig Bundled.KeyWidth 6 initialState = Ok s1 /\
    Bundled.startGame KO KI s1 s1 = Ok s2 /\
    option_map position (currentPiece s2) = Some {| x := 2; y := 0 |}.
Proof.
  assert (Hw : 4 <= 6 <= Bundled.MAX_ARRAY_LENGTH) by (vm_compute; intuition discriminate).
  assert (Hh : 2 <= height (config initialState) <= Bundled.MAX_ARRAY_LENGTH)
    by (vm_compute; intuition discriminate).
  split; [split; assumption|].
  destruct (bundled_resize_then_start KO KI initialState 6 Hw Hh)
    as (s1 & s2 & p & H1 & H2 & _).
  exists s1, s2. split; [exact H1|]. split; [exact H2|].
  vm_compute in H1. injection H1 as <-.
  vm_compute in H2. injection H2 as <-.
  reflexivity.
Defined.

(** ** The lock of the bundled revision *)

Lemma bundled_lockPiece_inv (t : TetrominoType) (state s' : GameState) (cp : Tetromino) :
  currentPiece state = Some cp ->
  Bundled.lockPiece t state = Ok s' ->
  exists newGrid filteredGrid n hit,
    Bundled.stampPiece (config state) cp (grid state) = Ok newGrid /\
    refill (config state) (keptRows newGrid) = Ok filteredGrid /\
    Bundled.firstRowLength (shape (nextPiece state)) = Ok n /\
    checkCollision
      (withPosition (nextPiece state) {| x := width (config state) / 2 - n / 2; y := 0 |})
      filteredGrid 0 0 None = Ok hit /\
    grid s' = filteredGrid /\
    score s' = score state +
               (if clearedLinesCount newGrid >? 0
                then SCORING (clearedLinesCount newGrid) * level state else 0) /\
    lines s' = lines state + clearedLinesCount newGrid /\
    isFrozen s' = false /\ config s' = config state /\
    (hit = true ->
     status s' = GAME_OVER /\ currentPiece s' = None /\ level s' = level state /\
     nextPiece s' = nextPiece state) /\
    (hit = false ->
     status s' = status state /\
     currentPiece s'
     = Some (withPosition (nextPiece state)
               {| x := width (config state) / 2 - n / 2; y := 0 |}) /\
     level s' = (lines state + clearedLinesCount newGrid) / 10 + 1 /\
     canHold s' = true /\
     Bundled.getRandomPiece t (width (config state)) = Ok (nextPiece s')).
Proof.
  intros Hcp Hlock. unfold Bundled.lockPiece in Hlock. rewrite Hcp in Hlock.
  apply bind_Ok in Hlock. destruct Hlock as (newGrid & Hstamp & Hlock).
  apply bind_Ok in Hlock. destruct Hlock as (filteredGrid & Hrefill & Hlock).
  apply bind_Ok in Hlock. destruct Hlock as (n & Hn & Hlock).
  apply bind_Ok in Hlock. destruct Hlock as (hit & Hhit & Hlock).
  exists newGrid, filteredGrid, n, hit.
  destruct hit.
  - injection Hlock as <-. cbn.
    repeat (split; [first [assumption | reflexivity]|]).
    split; intros Hb; try discriminate. repeat split; reflexivity.
  - apply bind_Ok in Hlock. destruct Hlock as (next & Hnext & Hlock).
    injection Hlock as <-. cbn.
    repeat (split; [first [assumption | reflexivity]|]).
    split; intros Hb; try discriminate. repeat split; try reflexivity.
    exact Hnext.
Qed.

(** The stamp of the bundled revision keeps the number of rows of a grid
    that has [config.height] rows, wherever the piece is. *)
Lemma bundled_stampPiece_rows (cfg : Config) (cp : Tetromino) (g : Grid) :
  length g = Z.to_nat (height cfg) ->
  exists newGrid,
    Bundled.stampPiece cfg cp g = Ok newGrid /\ length newGrid = length g.
Proof.
  intros Hlen. unfold Bundled.stampPiece.
  apply (forEachM_invariant (fun g' : Grid => length g' = length g));
    [reflexivity|].
  intros ky row g1 _ Hg1.
  apply (forEachM_invariant (fun g' : Grid => length g' = length g));
    [exact Hg1|].
  intros kx v g2 _ Hg2. cbv beta in *. unfold Bundled.stampCell.
  destruct (truthyNum v); [|eauto].
  destruct ((y (position cp) + Z.of_nat (0 + ky) >=? 0)
            && (y (position cp) + Z.of_nat (0 + ky) <? height cfg)) eqn:E; [|eauto].
  apply andb_true_iff in E. destruct E as [E1 E2].
  apply Z.geb_le in E1. apply Z.ltb_lt in E2.
  unfold writeCell.
  destruct (nth_error g2 (Z.to_nat (y (position cp) + Z.of_nat (0 + ky))))
    as [r|] eqn:Hrow.
  2:{ apply nth_error_None in Hrow. exfalso. lia. }
  eexists. split; [reflexivity|].
  rewrite replace_length; [exact Hg2|].
  apply nth_error_Some. congruence.
Qed.

(** X23.  The lock of the bundled revision returns wherever the active piece
    is: on a grid of [config.height] rows, with a positive height, a width
    that is an array length and a queued piece whose shape has a row 0, it
    raises nothing, and the grid of the result has [config.height] rows
    again. *)
Theorem bundled_lockPiece_returns (t : TetrominoType) (state : GameState)
    (cp : Tetromino) :
  currentPiece state = Some cp ->
  length (grid state) = Z.to_nat (height (config state)) ->
  0 < height (config state) ->
  0 <= width (config state) <= Bundled.MAX_ARRAY_LENGTH ->
  shape (nextPiece state) <> [] ->
  exists s',
    Bundled.lockPiece t state = Ok s' /\
    length (grid s') = Z.to_nat (height (config state)).
Proof.
  intros Hcp Hlen Hh Hw Hnext.
  destruct (bundled_stampPiece_rows (config state) cp (grid state) Hlen)
    as (newGrid & Hstamp & Hrows).
  assert (Hrefill : exists filteredGrid,
             refill (config state) (keptRows newGrid) = Ok filteredGrid /\
             length filteredGrid = Z.to_nat (height (config state))).
  { pose proof (keptRows_length newGrid) as Hk.
    assert (0 <= clearedLinesCount newGrid)
      by (unfold clearedLinesCount; lia).
    unfold refill.
    destruct (height (config state) - Z.of_nat (length (keptRows newGrid)) <=? 0)
      eqn:E.
    - eexists. split; [reflexivity|]. lia.
    - destruct (width (config state) <? 0) eqn:Ew; [lia|].
      eexists. split; [reflexivity|].
      rewrite length_app, repeat_length. lia. }
  destruct Hrefill as (filteredGrid & Hrefill & Hflen).
  assert (Hne : filteredGrid <> []).
  { intros ->. simpl in Hflen. lia. }
  unfold Bundled.lockPiece. rewrite Hcp, Hstamp. cbn [bind].
  rewrite Hrefill. cbn [bind].
  destruct (shape (nextPiece state)) as [|row0 rest] eqn:Hshape; [congruence|].
  cbn [Bundled.firstRowLength bind].
  rewrite checkCollision_collides by exact Hne. cbn [bind].
  destruct (collides _ filteredGrid 0 0 _).
  - eexists. split; [reflexivity|]. exact Hflen.
  - rewrite bundled_getRandomPiece_returns. cbn [bind].
    eexists. split; [reflexivity|]. exact Hflen.
Qed.

(** The O piece hanging one row over the floor of the empty field: the lock
    of the bundled revision returns, the lock of [src/App.tsx] raises. *)
Lemma bundled_lockPiece_returns_witness :
  (currentPiece
     (withCurrentPiece (startGame KO KT initialState)
        (Some (withPosition (getRandomPiece KO 10) {| x := 3; y := 19 |})))
   = Some (withPosition (getRandomPiece KO 10) {| x := 3; y := 19 |}) /\
   length (grid (startGame KO KT initialState))
   = Z.to_nat (height (config (startGame KO KT initialState))) /\
   0 < height (config (startGame KO KT initialState)) /\
   0 <= width (config (startGame KO KT initialState)) <= Bundled.MAX_ARRAY_LENGTH /\
   shape (nextPiece (startGame KO KT initialState)) <> []) /\
  (exists s',
     Bundled.lockPiece KI
       (withCurrentPiece (startGame KO KT initialState)
          (Some (withPosition (getRandomPiece KO 10) {| x := 3; y := 19 |})))
     = Ok s') /\
  lockPiece KI
    (withCurrentPiece (startGame KO KT initialState)
       (Some (withPosition (getRandomPiece KO 10) {| x := 3; y := 19 |})))
  = Throw.
Proof.
  assert (Hcp : currentPiece
                  (withCurrentPiece (startGame KO KT initialState)
                     (Some (withPosition (getRandomPiece KO 10) {| x := 3; y := 19 |})))
                = Some (withPosition (getRandomPiece KO 10) {| x := 3; y := 19 |}))
    by reflexivity.
  assert (Hlen : length (grid (startGame KO KT initialState))
                 = Z.to_nat (height (config (startGame KO KT initialState))))
    by (vm_compute; reflexivity).
  assert (Hh : 0 < height (config (startGame KO KT initialState)))
    by (vm_compute; reflexivity).
  assert (Hw : 0 <= width (config (startGame KO KT initialState))
               <= Bundled.MAX_ARRAY_LENGTH)
    by (vm_compute; intuition discriminate).
  assert (Hnext : shape (nextPiece (startGame KO KT initialState)) <> [])
    by (vm_compute; discriminate).
  split; [exact (conj Hcp (conj Hlen (conj Hh (conj Hw Hnext))))|]. split.
  - destruct (bundled_lockPiece_returns KI
                (withCurrentPiece (startGame KO KT initialState)
                   (Some (withPosition (getRandomPiece KO 10) {| x := 3; y := 19 |})))
                _ Hcp Hlen Hh Hw Hnext) as (s' & Hs' & _).
    exists s'. exact Hs'.
  - vm_compute. reflexivity.
Defined.

(** X24.  When the lock of the bundled revision ends the game, the rows that
    it cleared are counted: [lines] grows by their number and the score by
    their reward at the level before the lock, while [level] keeps its value
    and the active piece is removed. *)
Theorem bundled_lockPiece_game_over (t : TetrominoType) (state s' : GameState)
    (cp : Tetromino) :
  currentPiece state = Some cp -> status state <> GAME_OVER ->
  Bundled.lockPiece t state = Ok s' -> status s' = GAME_OVER ->
  exists newGrid,
    Bundled.stampPiece (config state) cp (grid state) = Ok newGrid /\
    lines s' = lines state + clearedLinesCount newGrid /\
    score s' = score state +
               (if clearedLinesCount newGrid >? 0
                then SCORING (clearedLinesCount newGrid) * level state else 0) /\
    level s' = level state /\ currentPiece s' = None /\ isFrozen s' = false.
Proof.
  intros Hcp Hst Hlock Hover.
  destruct (bundled_lockPiece_inv t state s' cp Hcp Hlock)
    as (newGrid & filteredGrid & n & hit & Hstamp & _ & _ & _ & _ & Hscore & Hlines
        & Hfr & _ & Hhit & Hgo).
  exists newGrid. destruct hit.
  - destruct (Hhit eq_refl) as (_ & Hnone & Hlevel & _). splits; assumption.
  - destruct (Hgo eq_refl) as (Hsame & _). congruence.
Qed.

(** The state of C3 whose next descent completes a row and ends the game:
    the bundled lock counts the row, the lock of [src/App.tsx] does not. *)
Lemma bundled_lockPiece_game_over_witness :
  (exists cp, currentPiece restingState = Some cp) /\
  status restingState <> GAME_OVER /\
  (exists s', Bundled.lockPiece KI restingState = Ok s' /\
              status s' = GAME_OVER /\ lines s' = lines restingState + 1) /\
  (exists s', lockPiece KI restingState = Ok s' /\
              status s' = GAME_OVER /\ lines s' = lines restingState).
Proof.
  assert (Hst : status restingState <> GAME_OVER) by (vm_compute; discriminate).
  assert (Hlock : Bundled.lockPiece KI restingState
                  = Ok (resultOr initialState (Bundled.lockPiece KI restingState)))
    by (vm_compute; reflexivity).
  assert (Hover : status (resultOr initialState (Bundled.lockPiece KI restingState))
                  = GAME_OVER) by (vm_compute; reflexivity).
  destruct (currentPiece restingState) as [cp|] eqn:Hcp;
    [|vm_compute in Hcp; discriminate].
  split; [exists cp; reflexivity|]. split; [exact Hst|]. split.
  - destruct (bundled_lockPiece_game_over KI restingState _ cp Hcp Hst Hlock Hover)
      as (newGrid & Hstamp & Hlines & _).
    eexists. split; [exact Hlock|]. split; [exact Hover|].
    vm_compute. reflexivity.
  - eexists. split; [vm_compute; reflexivity|]. split; vm_compute; reflexivity.
Defined.

(** ** Sessions of the bundled revision *)

(** What one intent does to the counters: nothing, a reset, or a lock in a
    playing state with the counters of the state. *)
Lemma bundled_dispatch_counters (i : Bundled.Intent) (s s' : GameState) :
  Bundled.dispatch i s = Ok s' ->
  (lines s' = lines s /\ level s' = level s /\ status s' = status s) \/
  (lines s' = 0 /\ level s' = 1 /\ status s' <> GAME_OVER) \/
  (status s = PLAYING /\
   exists t st cp,
     currentPiece st = Some cp /\ lines st = lines s /\ level st = level s /\
     status st = status s /\ Bundled.lockPiece t st = Ok s').
Proof.
  destruct i as [t1 t2| |dim val|t dx dy|fuel dx|cw|fuel t|]; simpl; intros H.
  - right; left. unfold Bundled.startGame in H.
    apply bind_Ok in H. destruct H as (p1 & _ & H).
    apply bind_Ok in H. destruct H as (p2 & _ & H).
    apply bind_Ok in H. destruct H as (g & _ & H).
    apply bind_Ok in H. destruct H as (n & _ & H).
    injection H as <-. simpl. splits; try reflexivity. discriminate.
  - right; left. injection H as <-. simpl. splits; try reflexivity. discriminate.
  - left. unfold Bundled.updateConfig in H.
    apply bind_Ok in H. destruct H as (g & _ & H).
    injection H as <-. simpl. auto.
  - unfold Bundled.move in H.
    destruct (currentPiece s) as [cp|] eqn:Hcp; [|injection H as <-; auto].
    destruct (isPlaying s) eqn:Hplay; simpl in H; [|injection H as <-; auto].
    destruct (isFrozen s && negb (dy =? 0)); [injection H as <-; auto|].
    destruct (checkCollision cp (grid s) dx dy None) as [hit| |]; try discriminate.
    simpl in H. destruct hit; simpl in H; [|injection H as <-; simpl; auto].
    destruct (dy >? 0); [|injection H as <-; auto].
    right; right. split.
    + unfold isPlaying in Hplay. destruct (status s); try discriminate. reflexivity.
    + exists t, s, cp. auto.
  - left. unfold moveToEnd in H.
    destruct (currentPiece s) as [cp|]; [|injection H as <-; auto].
    destruct (negb (isPlaying s) || isFrozen s); [injection H as <-; auto|].
    destruct (slideLoop fuel cp (grid s) dx 0) as [d| |]; try discriminate.
    simpl in H. injection H as <-. simpl. auto.
  - left. unfold rotate in H.
    destruct (currentPiece s) as [cp|]; [|injection H as <-; auto].
    destruct (negb (isPlaying s) || isFrozen s); [injection H as <-; auto|].
    destruct (rotateShape cw (shape cp)) as [sh| |]; try discriminate.
    simpl in H.
    destruct (checkCollision cp (grid s) 0 0 (Some sh)) as [hit| |]; try discriminate.
    simpl in H. destruct hit; simpl in H; injection H as <-; simpl; auto.
  - unfold Bundled.hardDrop in H.
    destruct (currentPiece s) as [cp|] eqn:Hcp; [|injection H as <-; auto].
    destruct (isPlaying s) eqn:Hplay; simpl in H; [|injection H as <-; auto].
    destruct (dropLoop fuel cp (grid s) 0) as [d| |]; try discriminate.
    simpl in H. right; right. split.
    + unfold isPlaying in Hplay. destruct (status s); try discriminate. reflexivity.
    + exists t, (withCurrentPiece s (Some (droppedPiece cp d))), (droppedPiece cp d).
      splits; try reflexivity. exact H.
  - left. injection H as <-. unfold toggleFreeze.
    destruct (negb (isPlaying s)); simpl; auto.
Qed.

(** X25.  In every state of a session of the bundled revision, with its
    [stopGame] and [updateConfig], the level is at most
    [floor(lines / 10) + 1], and it is that number in every state whose status
    is not [GAME_OVER]: only the lock that ends the game counts rows without
    recomputing the level. *)
Theorem bundled_session_level (s : GameState) :
  Bundled.reachable s ->
  0 <= lines s /\ level s <= lines s / 10 + 1 /\
  (status s <> GAME_OVER -> level s = lines s / 10 + 1).
Proof.
  intros Hs. induction Hs as [|i s s' Hs IH Hstep].
  - simpl. splits; try reflexivity; lia.
  - destruct IH as (Hpos & Hle & Hlevel).
    destruct (bundled_dispatch_counters i s s' Hstep)
      as [(Hl & Hv & Hst)|[(Hl & Hv & Hst)|(Hplay & t & st & cp & Hcp & Hl & Hv & Hst & Hlock)]].
    + rewrite Hl, Hv, Hst. auto.
    + rewrite Hl, Hv. splits; try reflexivity; lia.
    + destruct (bundled_lockPiece_inv t st s' cp Hcp Hlock)
        as (newGrid & filteredGrid & n & hit & _ & _ & _ & _ & _ & _ & Hlines
            & _ & _ & Hhit & Hgo).
      assert (Hc : 0 <= clearedLinesCount newGrid)
        by (unfold clearedLinesCount; lia).
      assert (Hbefore : level s = lines s / 10 + 1)
        by (apply Hlevel; rewrite Hplay; discriminate).
      assert (Hmono : lines s / 10 <= (lines s + clearedLinesCount newGrid) / 10)
        by (apply Z.div_le_mono; lia).
      rewrite Hlines, Hl. split; [lia|].
      destruct hit.
      * destruct (Hhit eq_refl) as (Hover & _ & Hsame & _).
        rewrite Hsame, Hv. split; [lia|]. intros Hno. congruence.
      * destruct (Hgo eq_refl) as (_ & _ & Hnew & _).
        rewrite Hnew, Hl. split; [lia|]. intros _. reflexivity.
Qed.

(** The state after a start and a hard drop of the bundled revision. *)
Lemma bundled_session_level_witness :
  Bundled.reachable
    (resultOr initialState
       (Bundled.hardDrop 32 KI
          (resultOr initialState (Bundled.startGame KO KT initialState initialState)))) /\
  level (resultOr initialState
           (Bundled.hardDrop 32 KI
              (resultOr initialState
                 (Bundled.startGame KO KT initialState initialState)))) = 1.
Proof.
  assert (Hreach : Bundled.reachable
            (resultOr initialState
               (Bundled.hardDrop 32 KI
                  (resultOr initialState
                     (Bundled.startGame KO KT initialState initialState))))).
  { apply (@Bundled.bundled_step (Bundled.HardDrop 32 KI)
             (resultOr initialState
                (Bundled.startGame KO KT initialState initialState))).
    - apply (@Bundled.bundled_step (Bundled.Start KO KT) initialState).
      + exact Bundled.bundled_initial.
      + vm_compute. reflexivity.
    - vm_compute. reflexivity. }
  split; [exact Hreach|].
  destruct (bundled_session_level _ Hreach) as (_ & _ & Hlevel).
  rewrite Hlevel; vm_compute; [reflexivity | discriminate].
Defined.

(** X26.  After [stopGame] every updater of the bundled revision except
    [startGame] and [updateConfig] returns the state unchanged, and a start
    from the stopped state is the start from the state before the stop. *)
Theorem bundled_stop (i : Bundled.Intent) (s : GameState) :
  (forall t1 t2, i <> Bundled.Start t1 t2) ->
  (forall dim val, i <> Bundled.UpdateConfig dim val) ->
  Bundled.dispatch i (Bundled.stopGame s) = Ok (Bundled.stopGame s) /\
  forall t1 t2,
    Bundled.startGame t1 t2 (Bundled.stopGame s) (Bundled.stopGame s)
    = Bundled.startGame t1 t2 s s.
Proof.
  intros Hstart Hconfig. split; [|reflexivity].
  destruct i as [t1 t2| |dim val|t dx dy|fuel dx|cw|fuel t|]; simpl;
    try reflexivity.
  - exfalso. exact (Hstart t1 t2 eq_refl).
  - exfalso. exact (Hconfig dim val eq_refl).
Qed.

(** A hard drop after stopping the session of C3. *)
Lemma bundled_stop_witness :
  ((forall t1 t2, Bundled.HardDrop 32 KI <> Bundled.Start t1 t2) /\
   (forall dim val, Bundled.HardDrop 32 KI <> Bundled.UpdateConfig dim val)) /\
  Bundled.dispatch (Bundled.HardDrop 32 KI) (Bundled.stopGame restingState)
  = Ok (Bundled.stopGame restingState).
Proof.
  assert (Hstart : forall t1 t2, Bundled.HardDrop 32 KI <> Bundled.Start t1 t2)
    by (intros; discriminate).
  assert (Hconfig : forall dim val,
             Bundled.HardDrop 32 KI <> Bundled.UpdateConfig dim val)
    by (intros; discriminate).
  split; [split; assumption|].
  exact (proj1 (bundled_stop (Bundled.HardDrop 32 KI) restingState Hstart Hconfig)).
Defined.

(** * The held piece *)



(** * C6: the level and the rows cleared in a session *)

(** What one intent other than a start does to the counters: it calls no
    lock and leaves them alone, or it locks a playing state that carries the
    counters of the state. *)
Lemma dispatch_lockedState (i : Intent) (s s' : GameState) :
  dispatch i s = Ok s' -> (forall t1 t2, i <> Start t1 t2) ->
  (lockedState i s = None /\
   lines s' = lines s /\ level s' = level s /\ status s' = status s) \/
  (exists state cp t,
     lockedState i s = Some state /\ currentPiece state = Some cp /\
     grid state = grid s /\
     lines state = lines s /\ level state = level s /\ status state = PLAYING /\
     lockPiece t state = Ok s').
Proof.
  intros H Hnostart.
  destruct i as [t1 t2|t dx dy|fuel dx|cw|fuel t|t|]; simpl in H.
  - exfalso. exact (Hnostart t1 t2 eq_refl).
  - unfold move in H. unfold lockedState.
    destruct (currentPiece s) as [cp|] eqn:Hcp; [|injection H as <-; auto].
    destruct (isPlaying s) eqn:Hplay; cbn [negb] in *; [|injection H as <-; auto].
    destruct (isFrozen s && negb (dy =? 0)); [injection H as <-; auto|].
    destruct (checkCollision cp (grid s) dx dy None) as [hit| |]; try discriminate.
    cbn [bind] in H. destruct hit; cbn [negb] in *; [|injection H as <-; cbn; auto].
    destruct (dy >? 0); [|injection H as <-; auto].
    right. exists s, cp, t. splits; try reflexivity; try assumption.
    unfold isPlaying in Hplay. destruct (status s); try discriminate. reflexivity.
  - left. split; [unfold lockedState; destruct (currentPiece s); reflexivity|].
    unfold moveToEnd in H.
    destruct (currentPiece s) as [cp|]; [|injection H as <-; auto].
    destruct (negb (isPlaying s) || isFrozen s); [injection H as <-; auto|].
    destruct (slideLoop fuel cp (grid s) dx 0) as [d| |]; try discriminate.
    cbn [bind] in H. injection H as <-. cbn. auto.
  - left. split; [unfold lockedState; destruct (currentPiece s); reflexivity|].
    unfold rotate in H.
    destruct (currentPiece s) as [cp|]; [|injection H as <-; auto].
    destruct (negb (isPlaying s) || isFrozen s); [injection H as <-; auto|].
    destruct (rotateShape cw (shape cp)) as [sh| |]; try discriminate.
    cbn [bind] in H.
    destruct (checkCollision cp (grid s) 0 0 (Some sh)) as [hit| |]; try discriminate.
    cbn [bind] in H. destruct hit; cbn [negb] in H; injection H as <-; cbn; auto.
  - unfold hardDrop in H. unfold lockedState.
    destruct (currentPiece s) as [cp|] eqn:Hcp; [|injection H as <-; auto].
    destruct (isPlaying s) eqn:Hplay; cbn [negb] in *; [|injection H as <-; auto].
    destruct (dropLoop fuel cp (grid s) 0) as [d| |]; try discriminate.
    cbn [bind] in H. right.
    exists (withCurrentPiece s (Some (droppedPiece cp d))), (droppedPiece cp d), t.
    splits; try reflexivity; try exact H.
    cbn. unfold isPlaying in Hplay. destruct (status s); try discriminate. reflexivity.
  - left. split; [unfold lockedState; destruct (currentPiece s); reflexivity|].
    injection H as <-. destruct (holdPiece_counters t s) as (_ & Hl & Hv & _).
    splits; try assumption.
    unfold holdPiece. destruct (currentPiece s); [|reflexivity].
    destruct (negb (canHold s) || negb (isPlaying s)); [reflexivity|].
    destruct (heldPiece s); reflexivity.
  - left. split; [unfold lockedState; destruct (currentPiece s); reflexivity|].
    injection H as <-. unfold toggleFreeze.
    destruct (negb (isPlaying s)); cbn; auto.
Qed.

(** The lines counter follows the rows cleared at every step of a session
    but the one that ends the game. *)
Lemma dispatch_lines (i : Intent) (s s' : GameState) :
  dispatch i s = Ok s' -> (forall t1 t2, i <> Start t1 t2) ->
  (status s' <> GAME_OVER -> lines s' = lines s + clearedBy i s) /\
  (status s' = GAME_OVER -> lines s' = lines s /\ level s' = level s).
Proof.
  intros H Hnostart. unfold clearedBy.
  destruct (dispatch_lockedState i s s' H Hnostart)
    as [(-> & Hl & Hv & Hst)
       |(state & cp & t & -> & Hcp & Hg & Hl & Hv & Hst & Hlock)].
  - split; intros _; [lia | auto].
  - destruct (lockPiece_inv t state s' cp Hcp Hlock)
      as (newGrid & filteredGrid & hit & Hstamp & _ & _ & _ & _ & _ & _ & _
          & Hover & Hgo).
    unfold lockClears. rewrite Hcp, Hstamp.
    destruct hit.
    + destruct (Hover eq_refl) as (Hend & _ & Hl' & Hv' & _). split.
      * intros Hno. congruence.
      * intros _. split; congruence.
    + destruct (Hgo eq_refl) as (Hsame & _ & Hl' & _). split.
      * intros _. rewrite Hl', Hl. reflexivity.
      * intros Hend. rewrite Hsame, Hst in Hend. discriminate.
Qed.

Lemma nineRowsState_run : run nineRowsIntents initialState = Ok nineRowsState.
Proof. vm_compute. reflexivity. Qed.

Lemma tenRowsState_run : run lastRowIntents nineRowsState = Ok tenRowsState.
Proof. vm_compute. reflexivity. Qed.

Lemma nineRowsState_reachable : reachable nineRowsState.
Proof. exact (run_reachable nineRowsIntents _ _ reachable_initial nineRowsState_run). Qed.

(** C6.  The level is not a function of the rows cleared in the session.
    The keyboard session [tenRowsIntents] clears 4, 4, 1 and 1 rows.  Before
    its last two intents the state is playing with 9 rows cleared, 9 lines
    and level 1; the hard drop that follows clears the tenth row and ends the
    game, and the state it returns has 9 lines and level 1, not level
    [floor(10 / 10) + 1 = 2].  At every step of a session other than a start
    the lines counter grows by the rows that the step clears when the result
    is not [GAME_OVER], and neither [lines] nor [level] changes when it
    is. *)
Theorem level_misses_final_rows :
  run tenRowsIntents initialState = Ok tenRowsState /\
  reachable nineRowsState /\ reachable tenRowsState /\
  status nineRowsState = PLAYING /\
  totalCleared nineRowsIntents initialState 0 = 9 /\
  lines nineRowsState = 9 /\ level nineRowsState = 1 /\
  status tenRowsState = GAME_OVER /\
  totalCleared tenRowsIntents initialState 0 = 10 /\
  lines tenRowsState = 9 /\ level tenRowsState = 1 /\
  level tenRowsState <> totalCleared tenRowsIntents initialState 0 / 10 + 1 /\
  (forall i s s',
     dispatch i s = Ok s' -> (forall t1 t2, i <> Start t1 t2) ->
     (status s' <> GAME_OVER -> lines s' = lines s + clearedBy i s) /\
     (status s' = GAME_OVER -> lines s' = lines s /\ level s' = level s)).
Proof.
  splits; try (vm_compute; reflexivity).
  - exact nineRowsState_reachable.
  - exact (run_reachable lastRowIntents _ _ nineRowsState_reachable tenRowsState_run).
  - vm_compute. discriminate.
  - exact dispatch_lines.
Qed.
